(** * Demographic-Analysis: normalisation and equity analytics, verified

    A shallow embedding of the analytic core of the repository
    (utils/data_processor.py, utils/advanced_analytics.py,
    utils/heatmap_fix.py, utils/improved_heatmap.py,
    utils/data_health_checker.py, utils/module_validator.py and
    utils/export_utils.py) together with the properties that its
    specification states about it and further properties of the code.

    Conventions of the embedding.
    - Python [str] is [string]; only the ASCII part of [str.lower] and
      [str.strip] is modelled.
    - Python and numpy floats are idealised as exact rationals [Q]; the
      results of a division by zero (numpy's [inf] and [nan]) are kept
      apart from the finite values in the type [npfloat].
    - A pandas DataFrame is a list of column labels and a list of rows of
      cells; a [dict] with string keys is a [gmap string _]; a dict that is
      only iterated is an association list in insertion order.
    - Code that can raise returns a [result].
    - A label names one column, and a sum reads text as nothing.  pandas
      differs on a frame with a repeated label and on text in a column that
      is summed, and its int64 and float64 sums wrap and round; properties
      that depend on any of this are stated for tables of counts
      ([count_table]), on which the embedding and pandas agree. *)

From Stdlib Require Import String Ascii List ZArith QArith Qround Qabs Bool.
From Stdlib Require Import Reals Qreals DecimalString Psatz Sorted.
From stdpp Require Import gmap strings.
Import ListNotations.

Local Open Scope string_scope.

(** ** Python strings *)

Module PyStr.

(** [c.lower()] on one ASCII character. *)
Definition lower_ascii (c : ascii) : ascii :=
  let n := N_of_ascii c in
  if ((65 <=? n) && (n <=? 90))%N then ascii_of_N (n + 32) else c.

(** [s.lower()] *)
Fixpoint lower (s : string) : string :=
  match s with
  | EmptyString => EmptyString
  | String c s' => String (lower_ascii c) (lower s')
  end.

Definition upper_ascii (c : ascii) : ascii :=
  let n := N_of_ascii c in
  if ((97 <=? n) && (n <=? 122))%N then ascii_of_N (n - 32) else c.

(** [s.upper()] *)
Fixpoint upper (s : string) : string :=
  match s with
  | EmptyString => EmptyString
  | String c s' => String (upper_ascii c) (upper s')
  end.

(** The ASCII characters for which [str.isspace] holds. *)
Definition is_space (c : ascii) : bool :=
  let n := N_of_ascii c in
  (((9 <=? n) && (n <=? 13)) || ((28 <=? n) && (n <=? 32)))%N.

Fixpoint lstrip (s : string) : string :=
  match s with
  | EmptyString => EmptyString
  | String c s' => if is_space c then lstrip s' else s
  end.

Fixpoint rstrip (s : string) : string :=
  match s with
  | EmptyString => EmptyString
  | String c s' =>
      match rstrip s' with
      | EmptyString => if is_space c then EmptyString else String c EmptyString
      | r => String c r
      end
  end.

(** [s.strip()] *)
Definition strip (s : string) : string := lstrip (rstrip s).

(** [p in s] for two strings: [p] occurs in [s] as a contiguous block. *)
Fixpoint contains (p s : string) : bool :=
  String.prefix p s ||
  match s with
  | EmptyString => false
  | String _ s' => contains p s'
  end.

(** [sep.join(l)] *)
Fixpoint join (sep : string) (l : list string) : string :=
  match l with
  | [] => EmptyString
  | [x] => x
  | x :: rest => x +:+ sep +:+ join sep rest
  end.

(** [s[:n]] *)
Definition slice_to (n : nat) (s : string) : string := String.substring 0 n s.

(** [x in l] for a list of strings. *)
Definition mem (x : string) (l : list string) : bool :=
  existsb (String.eqb x) l.

Definition newline : string := String (ascii_of_nat 10) EmptyString.

(** [repr(l)] of a list of strings that hold no quote and no escape. *)
Definition repr_list (l : list string) : string :=
  "[" +:+ join ", " (map (fun s => "'" +:+ s +:+ "'") l) +:+ "]".

End PyStr.

(** ** Numbers *)

Module Num.

Local Open Scope Q_scope.

(** Nearest integer, ties to the even one: the rounding of Python's
    [round]. *)
Definition round_half_even (q : Q) : Z :=
  let f := Qfloor q in
  let r := q - inject_Z f in
  match Qcompare r (1 # 2) with
  | Lt => f
  | Gt => (f + 1)%Z
  | Eq => if Z.even f then f else (f + 1)%Z
  end.

(** [round(q, 2)] *)
Definition round2 (q : Q) : Q :=
  inject_Z (round_half_even (q * 100)) / 100.

(** The value of a numpy float operation: finite, infinite, or not a
    number. *)
Inductive npfloat : Type :=
| Fin (q : Q)
| PInf
| NInf
| NaNf.

(** [a / b] on numpy numbers: a zero divisor gives [inf] or [nan] (with a
    warning), never an exception. *)
Definition np_div (a b : Q) : npfloat :=
  if Qeq_bool b 0 then
    match Qcompare a 0 with
    | Eq => NaNf
    | Gt => PInf
    | Lt => NInf
    end
  else Fin (a / b).

(** [int(q)]: truncation toward zero. *)
Definition py_int (q : Q) : Z := Z.quot (Qnum q) (Zpos (Qden q)).

(** [x * k] for a finite [k > 0]. *)
Definition np_scale (x : npfloat) (k : Q) : npfloat :=
  match x with
  | Fin q => Fin (q * k)
  | other => other
  end.

(** [x - t] for a finite [t]. *)
Definition np_sub (x : npfloat) (t : Q) : npfloat :=
  match x with
  | Fin q => Fin (q - t)
  | other => other
  end.

(** [t - x] for a finite [t]. *)
Definition np_rsub (t : Q) (x : npfloat) : npfloat :=
  match x with
  | Fin q => Fin (t - q)
  | PInf => NInf
  | NInf => PInf
  | NaNf => NaNf
  end.

Definition np_abs (x : npfloat) : npfloat :=
  match x with
  | Fin q => Fin (Qabs q)
  | PInf | NInf => PInf
  | NaNf => NaNf
  end.

(** [x > t]; false for [nan]. *)
Definition np_gt (x : npfloat) (t : Q) : bool :=
  match x with
  | Fin q => negb (Qle_bool q t)
  | PInf => true
  | NInf | NaNf => false
  end.

(** [x < t]; false for [nan]. *)
Definition np_lt (x : npfloat) (t : Q) : bool :=
  match x with
  | Fin q => negb (Qle_bool t q)
  | NInf => true
  | PInf | NaNf => false
  end.

(** Python's [max(0, x)]: [x] replaces [0] only when [x > 0] holds. *)
Definition py_max0 (x : npfloat) : npfloat :=
  if np_gt x 0 then x else Fin 0.

Definition is_finite (x : npfloat) : bool :=
  match x with Fin _ => true | _ => false end.

End Num.

(** ** Errors *)

Inductive exn : Type :=
| KeyError (key : string)
| ValueError (msg : string)
| TypeError.

Inductive result (A : Type) : Type :=
| Ok (a : A)
| Raise (e : exn).

Arguments Ok {A} a.
Arguments Raise {A} e.

Definition rbind {A B} (m : result A) (k : A -> result B) : result B :=
  match m with
  | Ok a => k a
  | Raise e => Raise e
  end.

Notation "'do!' x <- m ; k" := (rbind m (fun x => k))
  (at level 10, x name, m at level 100, k at level 200).

(** ** DataFrames *)

Module Frame.

Inductive cell : Type :=
| Num (q : Q)
| Str (s : string)
| NaN.

(** Column labels, and rows that hold one cell per label, in order. *)
Record DataFrame : Type := mkDF {
  columns : list string;
  rows : list (list cell)
}.

(** [df.empty]: an axis of length 0. *)
Definition empty (df : DataFrame) : bool :=
  match columns df, rows df with
  | [], _ | _, [] => true
  | _, _ => false
  end.

(** [col in df.columns] *)
Definition has_column (df : DataFrame) (col : string) : bool :=
  PyStr.mem col (columns df).

Fixpoint index_of (col : string) (cols : list string) : option nat :=
  match cols with
  | [] => None
  | c :: rest =>
      if String.eqb col c then Some 0%nat
      else option_map S (index_of col rest)
  end.

(** The cell of row [r] under the label [col]; a short row reads as
    missing. *)
Definition row_get (cols : list string) (r : list cell) (col : string)
  : option cell :=
  match index_of col cols with
  | Some i => Some (nth i r NaN)
  | None => None
  end.

(** [df[col]] as the list of its cells. *)
Definition column (df : DataFrame) (col : string) : result (list cell) :=
  match index_of col (columns df) with
  | Some i => Ok (map (fun r => nth i r NaN) (rows df))
  | None => Raise (KeyError col)
  end.

(** The number a cell contributes to [Series.sum()]: missing values are
    skipped.  The count columns of a Record hold numbers; a text cell is
    read as contributing nothing. *)
Definition cell_num (c : cell) : Q :=
  match c with
  | Num q => q
  | _ => 0
  end.

(** [series.sum()] *)
Definition sum_cells (l : list cell) : Q :=
  fold_right (fun c acc => cell_num c + acc)%Q 0%Q l.

(** [df[col].sum()] *)
Definition col_sum (df : DataFrame) (col : string) : result Q :=
  do! l <- column df col; Ok (sum_cells l).

(** [series.isna().all()] *)
Definition all_na (l : list cell) : bool :=
  forallb (fun c => match c with NaN => true | _ => false end) l.

(** Equality of cell values as [isin] and [==] see it. *)
Definition cell_eqb (a b : cell) : bool :=
  match a, b with
  | Num x, Num y => Qeq_bool x y
  | Str s, Str t => String.eqb s t
  | NaN, NaN => true
  | _, _ => false
  end.

(** [value in values] *)
Definition isin (c : cell) (values : list cell) : bool :=
  existsb (cell_eqb c) values.

(** Elementwise [==]: a missing value equals nothing, itself included. *)
Definition cell_equal (a b : cell) : bool :=
  match a, b with
  | NaN, _ | _, NaN => false
  | _, _ => cell_eqb a b
  end.

(** [series.unique()]: the distinct values in order of first appearance. *)
Fixpoint unique_aux (seen l : list cell) : list cell :=
  match l with
  | [] => []
  | c :: rest =>
      if isin c seen then unique_aux seen rest
      else c :: unique_aux (c :: seen) rest
  end.

Definition unique (l : list cell) : list cell := unique_aux [] l.

(** [df[col].sum()] for a label already known to be in [df.columns]. *)
Definition demo_sum (df : DataFrame) (col : string) : Q :=
  match column df col with
  | Ok l => sum_cells l
  | Raise _ => 0
  end.

(** [df[mask]] where the mask is computed row by row. *)
Definition select (df : DataFrame) (keep : list cell -> bool) : DataFrame :=
  mkDF (columns df) (List.filter keep (rows df)).

End Frame.

(** ** utils/data_processor.py *)

Section data_processor.

Import PyStr Num Frame.
Local Open Scope Q_scope.

(** The numeric-literal reader behind [pd.to_numeric]: the number a text
    cell denotes, if it denotes one. *)
Variable parse_numeric : string -> option Q.

(** [column_mappings] of [_validate_data], in insertion order. *)
Definition column_mappings : list (string * list string) :=
  [ ("Grade", ["grade"; "level"; "grade level"; "gradelevel"]);
    ("EntityDesc", ["entity"; "entitydesc"; "entity desc"; "entity description";
                    "module"; "lesson"; "title"; "content"; "lesson title"]);
    ("Component Desc", ["component"; "componentdesc"; "component desc";
                        "component description"; "activity"; "activity type"]);
    ("TOTAL", ["total"; "total people"; "people"; "count"; "sum"; "total count"]) ].

(** [col.lower().strip()] *)
Definition normalize (col : string) : string := strip (lower col).

(** First pass: the first variation that is the normalised name of some
    column selects the first column with that normalised name. *)
Definition find_exact (variations cols : list string) : option string :=
  match List.find (fun v => mem (lower v) (map normalize cols)) variations with
  | Some v => List.find (fun col => String.eqb (normalize col) (lower v)) cols
  | None => None
  end.

(** Second pass: the first column whose normalised name contains some
    variation. *)
Definition find_partial (variations cols : list string) : option string :=
  List.find (fun col => existsb (fun var => contains var (normalize col)) variations) cols.

Definition map_column (variations cols : list string) : option string :=
  match find_exact variations cols with
  | Some c => Some c
  | None => find_partial variations cols
  end.

(** [mapped_columns]: required name and the raw column found for it. *)
Fixpoint map_columns (mappings : list (string * list string)) (cols : list string)
  : list (string * string) :=
  match mappings with
  | [] => []
  | (required_col, variations) :: rest =>
      match map_column variations cols with
      | Some actual => (required_col, actual) :: map_columns rest cols
      | None => map_columns rest cols
      end
  end.

Definition missing_required (mapped : list (string * string)) : list string :=
  List.filter (fun r => negb (mem r (map fst mapped))) (map fst column_mappings).

Definition variations_of (required_col : string) : list string :=
  match List.find (fun kv => String.eqb (fst kv) required_col) column_mappings with
  | Some kv => snd kv
  | None => []
  end.

Definition suggestion (missing_col : string) : string :=
  missing_col +:+ ": looking for columns like " +:+
  join ", " (firstn 3 (variations_of missing_col)).

Definition error_msg (missing cols : list string) : string :=
  "Could not find required columns: " +:+ repr_list missing +:+ newline +:+ newline +:+
  "Available columns in your file: " +:+ join ", " cols +:+ newline +:+ newline +:+
  "Suggestions:" +:+ newline +:+ join newline (map suggestion missing).

(** [{v: k for k, v in mapped_columns.items()}]: a later entry overwrites
    an earlier one with the same raw column. *)
Definition rename_dict (mapped : list (string * string)) : gmap string string :=
  fold_left (fun d kv => <[snd kv := fst kv]> d) mapped ∅.

(** [df.rename(columns=d)] on the labels. *)
Definition rename (d : gmap string string) (cols : list string) : list string :=
  map (fun c => default c (d !! c)) cols.

(** [pd.to_numeric(x, errors='coerce')] then [.fillna(0)] on one cell. *)
Definition to_numeric (c : cell) : cell :=
  match c with
  | Num q => Num q
  | Str s => match parse_numeric s with Some q => Num q | None => NaN end
  | NaN => NaN
  end.

Definition fillna0 (c : cell) : cell :=
  match c with
  | NaN => Num 0
  | other => other
  end.

Fixpoint update_nth {A} (i : nat) (f : A -> A) (dflt : A) (l : list A) : list A :=
  match i, l with
  | O, [] => [f dflt]
  | O, x :: rest => f x :: rest
  | S j, [] => dflt :: update_nth j f dflt []
  | S j, x :: rest => x :: update_nth j f dflt rest
  end.

(** [df['TOTAL'] = pd.to_numeric(df['TOTAL'], errors='coerce').fillna(0)].
    Two columns with the label make [df['TOTAL']] a frame, which
    [pd.to_numeric] refuses. *)
Definition coerce_total (df : DataFrame) : result DataFrame :=
  match index_of "TOTAL" (columns df) with
  | None => Raise (KeyError "TOTAL")
  | Some i =>
      if (1 <? count_occ string_dec (columns df) "TOTAL")%nat then Raise TypeError
      else Ok (mkDF (columns df)
                 (map (update_nth i (fun c => fillna0 (to_numeric c)) NaN) (rows df)))
  end.

Definition _validate_data (df : DataFrame) : result DataFrame :=
  let mapped := map_columns column_mappings (columns df) in
  let missing := missing_required mapped in
  if negb (Nat.eqb (length missing) 0)
  then Raise (ValueError (error_msg missing (columns df)))
  else coerce_total (mkDF (rename (rename_dict mapped) (columns df)) (rows df)).

(** [apply_filters]: the filters in the dict's order. *)
Definition apply_filters (self_df : DataFrame) (filters : list (string * list cell))
  : DataFrame :=
  fold_left
    (fun filtered_df (f : string * list cell) =>
       let (column, values) := f in
       if has_column filtered_df column && negb (Nat.eqb (length values) 0)
       then select filtered_df
              (fun r => match row_get (columns filtered_df) r column with
                        | Some c => isin c values
                        | None => false
                        end)
       else filtered_df)
    filters self_df.

Definition approved_demographic_patterns : list string :=
  [ "AAM"; "AAF"; "PCM"; "PCF"; "LGBTF"; "OTHER_M"; "OTHER_F";
    "ASM"; "ASF"; "HM"; "HF"; "NAM"; "NAF"; "PIM"; "PIF";
    "LEGACY_M"; "LEGACY_F"; "PC_M"; "PC_F";
    "african american male"; "african american female"; "african american";
    "asian male"; "asian female"; "asian";
    "caucasian male"; "caucasian female"; "caucasian"; "white";
    "hispanic male"; "hispanic female"; "hispanic"; "latino"; "latina";
    "native american male"; "native american female"; "native american";
    "pacific islander male"; "pacific islander female"; "pacific islander";
    "lgbt"; "lgbtq"; "lgbtf"; "lgbt female"; "lgbt male";
    "legacy"; "legacy male"; "legacy female";
    "physically challenged"; "physically challenged male";
    "physically challenged female";
    "other"; "other male"; "other female";
    "male"; "female" ].

Definition exclude_patterns : list string :=
  [ "total"; "grade"; "entity"; "component"; "desc"; "description";
    "id"; "name"; "date"; "time"; "page"; "folio"; "number"; "count";
    "row"; "index"; "file"; "path"; "url"; "link"; "reference";
    "score"; "rating"; "level"; "category"; "type"; "status" ].

(** [get_demographic_columns]: the loop over [self.df.columns]. *)
Fixpoint get_demographic_columns (cols : list string) : list string :=
  match cols with
  | [] => []
  | col :: rest =>
      let col_lower := normalize col in
      if existsb (fun exclude => contains exclude col_lower) exclude_patterns
      then get_demographic_columns rest
      else if existsb (fun pattern => contains (lower pattern) col_lower)
                approved_demographic_patterns
      then col :: get_demographic_columns rest
      else get_demographic_columns rest
  end.

End data_processor.

Section data_processor_analytics.

Import PyStr Num Frame.
Local Open Scope Q_scope.

(** [get_default_demographic_targets] *)
Definition get_default_demographic_targets : gmap string Q :=
  list_to_map
    [ ("male", 50); ("female", 50);
      ("african american", 12); ("african american male", 6);
      ("african american female", 6); ("aam", 6); ("aaf", 6);
      ("hispanic", 18); ("hispanic male", 9); ("hispanic female", 9);
      ("hm", 9); ("hf", 9);
      ("asian", 6); ("asian male", 3); ("asian female", 3);
      ("asm", 3); ("asf", 3);
      ("caucasian", 60); ("caucasian male", 30); ("caucasian female", 30);
      ("pcm", 30); ("pcf", 30); ("white", 60);
      ("native american", 1); ("native american male", 1 # 2);
      ("native american female", 1 # 2); ("nam", 1 # 2); ("naf", 1 # 2);
      ("pacific islander", 1 # 2); ("pacific islander male", 1 # 4);
      ("pacific islander female", 1 # 4); ("pim", 1 # 4); ("pif", 1 # 4);
      ("lgbt", 7); ("lgbtf", 7); ("lgbtq", 7);
      ("legacy", 5); ("legacy male", 5 # 2); ("legacy female", 5 # 2);
      ("physically challenged", 2); ("pc_m", 1); ("pc_f", 1);
      ("other", 3); ("other male", 3 # 2); ("other female", 3 # 2);
      ("other_m", 3 # 2); ("other_f", 3 # 2) ].

(** [round(x, 2)] on a numpy float. *)
Definition np_round2 (x : npfloat) : npfloat :=
  match x with
  | Fin q => Fin (round2 q)
  | other => other
  end.

(** One row of the table of [calculate_demographic_percentages]. *)
Record PercentageRow : Type := mkPercentageRow {
  pr_EntityDesc : cell;
  pr_percentages : list (string * npfloat)
}.

(** [df[df['EntityDesc'] == entity]] *)
Definition entity_rows (df : DataFrame) (entity : cell) : DataFrame :=
  select df (fun r => match row_get (columns df) r "EntityDesc" with
                      | Some c => cell_equal c entity
                      | None => false
                      end).

(** The loop body of [calculate_demographic_percentages] for one entity:
    [None] stands for [continue]. *)
Definition percentage_row (demographic_cols : list string) (df : DataFrame)
  (entity : cell) : result (option PercentageRow) :=
  let entity_data := entity_rows df entity in
  if empty entity_data then Ok None
  else
    do! total_people <- col_sum entity_data "TOTAL";
    if Qeq_bool total_people 0 then Ok None
    else
      Ok (Some (mkPercentageRow entity
        (map (fun demo_col =>
                if has_column entity_data demo_col then
                  let demo_total := demo_sum entity_data demo_col in
                  let percentage :=
                    if negb (Qle_bool total_people 0)
                    then np_scale (np_div demo_total total_people) 100
                    else Fin 0 in
                  (demo_col, np_round2 percentage)
                else (demo_col, Fin 0))
             demographic_cols))).

Fixpoint collect_rows {A B} (f : A -> result (option B)) (l : list A)
  : result (list B) :=
  match l with
  | [] => Ok []
  | x :: rest =>
      do! r <- f x;
      do! rs <- collect_rows f rest;
      Ok (match r with Some b => b :: rs | None => rs end)
  end.

(** [calculate_demographic_percentages]; [self_cols] is [self.df.columns]. *)
Definition calculate_demographic_percentages (self_cols : list string)
  (df : DataFrame) : result (list PercentageRow) :=
  let demographic_cols := get_demographic_columns self_cols in
  if (Nat.eqb (length demographic_cols) 0) || empty df then Ok []
  else
    do! entities <- column df "EntityDesc";
    collect_rows (percentage_row demographic_cols df) (unique entities).

Inductive gap_status : Type :=
| Over_Target
| Under_Target
| On_Target.

(** One row of the table of [calculate_demographic_gaps]. *)
Record GapRecord : Type := mkGapRecord {
  Demographic : string;
  Actual_Count : Q;
  Actual_pct : Q;
  Target_pct : Q;
  Gap : Q;
  Gap_Status : gap_status
}.

(** ['Over Target' if gap > 0 else 'Under Target' if gap < 0 else 'On Target'] *)
Definition status_of_gap (gap : Q) : gap_status :=
  if negb (Qle_bool gap 0) then Over_Target
  else if negb (Qle_bool 0 gap) then Under_Target
  else On_Target.

(** The loop body of [calculate_demographic_gaps], reached only with
    [total_people] different from 0. *)
Definition gap_record (df : DataFrame) (targets : gmap string Q)
  (total_people : Q) (demo_col : string) : GapRecord :=
  let actual_count := demo_sum df demo_col in
  let actual_percentage := (actual_count / total_people) * 100 in
  let target_percentage := default 0 (targets !! demo_col) in
  let gap := actual_percentage - target_percentage in
  mkGapRecord demo_col actual_count (round2 actual_percentage)
    target_percentage (round2 gap) (status_of_gap gap).

(** [sort_values] on one numeric key, ascending. *)
Fixpoint insert_by {A} (key : A -> Q) (x : A) (l : list A) : list A :=
  match l with
  | [] => [x]
  | y :: rest =>
      if Qle_bool (key x) (key y) then x :: l else y :: insert_by key x rest
  end.

Definition sort_values {A} (key : A -> Q) (l : list A) : list A :=
  fold_right (insert_by key) [] l.

(** [calculate_demographic_gaps]; an empty list is the empty frame.  When
    no demographic column is in [df], the frame built from the empty list has
    no column to sort by. *)
Definition calculate_demographic_gaps (self_cols : list string) (df : DataFrame)
  (targets : gmap string Q) : result (list GapRecord) :=
  let demographic_cols := get_demographic_columns self_cols in
  if (Nat.eqb (length demographic_cols) 0) || empty df then Ok []
  else
    do! total_people <- col_sum df "TOTAL";
    if Qeq_bool total_people 0 then Ok []
    else
      let gaps_data :=
        map (gap_record df targets total_people)
            (List.filter (has_column df) demographic_cols) in
      match gaps_data with
      | [] => Raise (KeyError "Gap")
      | _ => Ok (sort_values Gap gaps_data)
      end.

End data_processor_analytics.

Section diversity.

Import PyStr Num Frame.
Local Open Scope Q_scope.

(** The accumulation [diversity_sum += proportion ** 2]. *)
Definition simpson_sum (total_people : Q) (counts : list Q) : Q :=
  fold_left (fun diversity_sum demo_count =>
               let proportion := demo_count / total_people in
               diversity_sum + proportion * proportion)
            counts 0.

(** The accumulation [shannon_diversity -= proportion * np.log(proportion)],
    entered only for [demo_count > 0].  The logarithm is the real one. *)
Definition shannon_sum (total_people : Q) (counts : list Q) : R :=
  fold_left (fun shannon_diversity demo_count =>
               if negb (Qle_bool demo_count 0) then
                 let proportion := Q2R (demo_count / total_people) in
                 (shannon_diversity - proportion * ln proportion)%R
               else shannon_diversity)
            counts 0%R.

(** The Simpson and Shannon entries of the dict of
    [calculate_diversity_metrics]. *)
Record DiversityMetrics : Type := mkDiversityMetrics {
  simpson_diversity_index : Q;
  shannon_diversity_index : R
}.

(** The summed count of every demographic column present in [df]. *)
Definition demo_counts (self_cols : list string) (df : DataFrame) : list Q :=
  map (demo_sum df) (List.filter (has_column df) (get_demographic_columns self_cols)).

(** [calculate_diversity_metrics]; [None] is the empty dict. *)
Definition calculate_diversity_metrics (self_cols : list string) (df : DataFrame)
  : result (option DiversityMetrics) :=
  let demographic_cols := get_demographic_columns self_cols in
  if Nat.eqb (length demographic_cols) 0 then Ok None
  else
    do! total_people <- col_sum df "TOTAL";
    if Qeq_bool total_people 0 then Ok None
    else
      let counts := demo_counts self_cols df in
      Ok (Some (mkDiversityMetrics
                  (1 - simpson_sum total_people counts)
                  (shannon_sum total_people counts))).

(** [np.sum(proportions ** 2)] *)
Definition sum_squares (proportions : list Q) : Q :=
  fold_right (fun p acc => p * p + acc) 0 proportions.

(** [np.sum(proportions * np.log(proportions))] *)
Definition sum_plogp (proportions : list Q) : R :=
  fold_right (fun p acc => (Q2R p * ln (Q2R p) + acc)%R) 0%R proportions.

(** [AdvancedDemographicAnalytics.calculate_diversity_index]: the pair
    (shannon, simpson) of a Series of counts. *)
Definition calculate_diversity_index (entity_data : list cell) : R * Q :=
  let total := sum_cells entity_data in
  if Qeq_bool total 0 then (0%R, 0)
  else
    let proportions := map (fun c => cell_num c / total) entity_data in
    let proportions := List.filter (fun p => negb (Qle_bool p 0)) proportions in
    ((- sum_plogp proportions)%R, 1 - sum_squares proportions).

End diversity.

(** ** utils/advanced_analytics.py *)

Section advanced_analytics.

Import PyStr Num Frame.
Local Open Scope Q_scope.

(** [targets.get(demo_col.lower(), targets.get(demo_col, 10))], the
    expression each caller of this module and each heat map writes out. *)
Definition lookup_target (targets : gmap string Q) (demo_col : string) : Q :=
  default (default 10 (targets !! demo_col)) (targets !! lower demo_col).

(** One row of the table of [detect_representation_gaps]. *)
Record ModuleGap : Type := mkModuleGap {
  mg_Module : cell;
  mg_Total_People : Z;
  mg_Largest_Overrep : string * Q;
  mg_Largest_Underrep : string * Q;
  mg_Gap_Range : Q
}.

(** [max(gaps, key=gaps.get)] with its value: the first largest entry. *)
Fixpoint max_entry (first : string * Q) (rest : list (string * Q)) : string * Q :=
  match rest with
  | [] => first
  | e :: rest' =>
      if negb (Qle_bool (snd e) (snd first)) then max_entry e rest'
      else max_entry first rest'
  end.

Fixpoint min_entry (first : string * Q) (rest : list (string * Q)) : string * Q :=
  match rest with
  | [] => first
  | e :: rest' =>
      if negb (Qle_bool (snd first) (snd e)) then min_entry e rest'
      else min_entry first rest'
  end.

(** The dict [gaps] of one module, reached with [total_people <> 0]. *)
Definition module_gaps (demographic_cols : list string) (entity_data : DataFrame)
  (targets : gmap string Q) (total_people : Q) : list (string * Q) :=
  map (fun demo_col =>
         let actual_count := demo_sum entity_data demo_col in
         let actual_pct := (actual_count / total_people) * 100 in
         let target_pct := lookup_target targets demo_col in
         (demo_col, actual_pct - target_pct))
      (List.filter (has_column entity_data) demographic_cols).

Definition module_gap_row (demographic_cols : list string) (df : DataFrame)
  (targets : gmap string Q) (entity : cell) : result (option ModuleGap) :=
  let entity_data := entity_rows df entity in
  do! total_people <- col_sum entity_data "TOTAL";
  if Qeq_bool total_people 0 then Ok None
  else
    match module_gaps demographic_cols entity_data targets total_people with
    | [] => Ok None
    | g :: gs =>
        let largest := max_entry g gs in
        let smallest := min_entry g gs in
        Ok (Some (mkModuleGap entity (py_int total_people) largest smallest
                    (snd largest - snd smallest)))
    end.

(** [detect_representation_gaps]: sorting the frame built from an empty
    list fails on the missing column. *)
Definition detect_representation_gaps (demographic_cols : list string)
  (df : DataFrame) (targets : gmap string Q) : result (list ModuleGap) :=
  do! entities <- column df "EntityDesc";
  do! gap_analysis <- collect_rows (module_gap_row demographic_cols df targets)
                        (unique entities);
  match gap_analysis with
  | [] => Raise (KeyError "Gap_Range")
  | _ => Ok (sort_values (fun r => - mg_Gap_Range r) gap_analysis)
  end.

(** An entry of [scorecard['demographic_scores']]. *)
Record DemographicScore : Type := mkDemographicScore {
  ds_score : npfloat;
  ds_actual : npfloat;
  ds_target : Q;
  ds_gap : npfloat
}.

Inductive recommendation : Type :=
| Increase (demo_col : string) (points : npfloat)
| Balance (demo_col : string) (points : npfloat).

Record Scorecard : Type := mkScorecard {
  overall_score : npfloat;
  demographic_scores : list (string * DemographicScore);
  recommendations : list recommendation
}.

(** [np.mean] of a non-empty list. *)
Definition np_mean (l : list npfloat) : npfloat :=
  fold_right (fun x acc =>
                match x, acc with
                | Fin a, Fin b => Fin (a / inject_Z (Z.of_nat (length l)) + b)
                | _, _ => NaNf
                end) (Fin 0) l.

(** The loop body of [generate_equity_scorecard] for one column. *)
Definition score_demographic (df : DataFrame) (targets : gmap string Q)
  (total_people : Q) (demo_col : string)
  : (string * DemographicScore) * list recommendation :=
  let actual_count := demo_sum df demo_col in
  let actual_pct := np_scale (np_div actual_count total_people) 100 in
  let target_pct := lookup_target targets demo_col in
  let gap := np_abs (np_sub actual_pct target_pct) in
  let score := py_max0 (np_rsub 100 (np_scale gap 5)) in
  ((demo_col,
    mkDemographicScore score actual_pct target_pct (np_sub actual_pct target_pct)),
   if np_gt gap 10 then
     if np_lt actual_pct target_pct
     then [Increase demo_col (np_rsub target_pct actual_pct)]
     else [Balance demo_col (np_sub actual_pct target_pct)]
   else []).

(** [generate_equity_scorecard]: no test of [total_people] precedes the
    division. *)
Definition generate_equity_scorecard (demographic_cols : list string)
  (df : DataFrame) (targets : gmap string Q) : result Scorecard :=
  do! total_people <- col_sum df "TOTAL";
  let scored :=
    map (score_demographic df targets total_people)
        (List.filter (has_column df) demographic_cols) in
  let scores := map fst scored in
  Ok (mkScorecard
        (match scores with
         | [] => Fin 0
         | _ => np_mean (map (fun d => ds_score (snd d)) scores)
         end)
        scores
        (concat (map snd scored))).

End advanced_analytics.

(** ** Text of numbers *)

Section formatting.

Import PyStr Num.
Local Open Scope Q_scope.

Definition digits (n : Z) : string := NilZero.string_of_uint (N.to_uint (Z.to_N n)).

(** [f"{q:.1f}"]: one decimal, nearest with ties to even, the sign of [q]
    in front of the magnitude. *)
Definition fmt_1f (q : Q) : string :=
  let n := round_half_even (Qabs q * 10) in
  (if negb (Qle_bool 0 q) then "-" else "") +:+
  digits (n / 10) +:+ "." +:+ digits (n mod 10).

(** [f"{q:+.1f}"] *)
Definition fmt_signed_1f (q : Q) : string :=
  (if Qle_bool 0 q then "+" else "") +:+ fmt_1f q.

(** [int(q)] as text: truncation toward zero. *)
Definition fmt_int (q : Q) : string :=
  NilZero.string_of_int (Z.to_int (py_int q)).

End formatting.

(** ** utils/heatmap_fix.py and utils/improved_heatmap.py *)

Section heatmaps.

Import PyStr Num Frame.
Local Open Scope Q_scope.

(** A figure is an annotation alone (the "no data" results) or a heat map
    with its four arrays. *)
Inductive Figure : Type :=
| Annotation (text : string)
| Heatmap (z : list (list Q)) (x : list string) (y : list string)
    (customdata : list (list string)).

Fixpoint insert_sorted (s : string) (l : list string) : list string :=
  match l with
  | [] => [s]
  | t :: rest =>
      if String.eqb s t then l
      else if String.ltb s t then s :: l
      else t :: insert_sorted s rest
  end.

(** The keys of [df.groupby('EntityDesc')]: the distinct names in
    ascending order, missing values left out.  A module name is text; a
    number in its place is refused. *)
Fixpoint group_keys (cells : list cell) : result (list string) :=
  match cells with
  | [] => Ok []
  | Str s :: rest => do! ks <- group_keys rest; Ok (insert_sorted s ks)
  | NaN :: rest => group_keys rest
  | Num _ :: _ => Raise TypeError
  end.

(** The rows of one group. *)
Definition group_rows (df : DataFrame) (entity_name : string) : DataFrame :=
  entity_rows df (Str entity_name).

(** [name[:n] + "..." if len(name) > n else name] *)
Definition truncate_label (n : nat) (name : string) : string :=
  if (n <? String.length name)%nat then slice_to n name +:+ "..." else name.

Definition percent_of (demo_count total_people : Q) : Q :=
  if negb (Qle_bool total_people 0) then (demo_count / total_people) * 100 else 0.

Definition hover_text (title demo_col : string)
  (actual_pct demo_count target_pct gap total_people : Q) : string :=
  "<b>" +:+ title +:+ "</b><br>" +:+
  "<b>Demographic:</b> " +:+ demo_col +:+ "<br>" +:+
  "<b>Actual:</b> " +:+ fmt_1f actual_pct +:+ "% (" +:+ fmt_int demo_count +:+ " people)<br>" +:+
  "<b>Target:</b> " +:+ fmt_1f target_pct +:+ "%<br>" +:+
  "<b>Gap:</b> " +:+ fmt_signed_1f gap +:+ "%<br>" +:+
  "<b>Total People:</b> " +:+ fmt_int total_people.

(** The abbreviation of a column on the x axis of [create_aligned_heatmap]. *)
Definition abbrev_aligned (demo_col : string) : string :=
  let demo_lower := lower demo_col in
  if contains "african american" demo_lower then "AA"
  else if contains "caucasian" demo_lower || contains "white" demo_lower then "C"
  else if contains "asian" demo_lower then "AS"
  else if contains "hispanic" demo_lower then "H"
  else if contains "native american" demo_lower then "NA"
  else if contains "pacific islander" demo_lower then "PI"
  else if contains "lgbt" demo_lower then "LGBT"
  else if contains "legacy" demo_lower then "LEG"
  else if contains "physically challenged" demo_lower then "PC"
  else if String.eqb demo_lower "male" then "M"
  else if String.eqb demo_lower "female" then "F"
  else if String.eqb demo_lower "other" then "OTHER"
  else upper (slice_to 4 demo_col).

(** One cell of [create_aligned_heatmap]: the gap and its text. *)
Definition aligned_cell (entity_name : string) (entity_data : DataFrame)
  (targets : gmap string Q) (total_people : Q) (demo_col : string) : Q * string :=
  let demo_count :=
    if has_column entity_data demo_col then demo_sum entity_data demo_col else 0 in
  let actual_pct := percent_of demo_count total_people in
  let target_pct := lookup_target targets demo_col in
  let gap := actual_pct - target_pct in
  (gap, hover_text entity_name demo_col actual_pct demo_count target_pct gap total_people).

(** One group of [create_aligned_heatmap]: label, gap row and text row, or
    [None] for [continue]. *)
Definition aligned_row (df : DataFrame) (valid_cols : list string)
  (targets : gmap string Q) (entity_name : string)
  : result (option (string * list (Q * string))) :=
  let entity_data := group_rows df entity_name in
  do! total_people <- col_sum entity_data "TOTAL";
  if Qeq_bool total_people 0 then Ok None
  else Ok (Some (truncate_label 40 entity_name,
                 map (aligned_cell entity_name entity_data targets total_people)
                     valid_cols)).

Definition create_aligned_heatmap (df : DataFrame) (demographic_cols : list string)
  (targets : gmap string Q) : result Figure :=
  if empty df || Nat.eqb (length demographic_cols) 0
  then Ok (Annotation "No data available for heatmap")
  else
    let valid_cols := List.filter (has_column df) demographic_cols in
    if Nat.eqb (length valid_cols) 0
    then Ok (Annotation "No valid demographic columns found")
    else
      do! entities <- column df "EntityDesc";
      do! keys <- group_keys entities;
      do! groups <- collect_rows (aligned_row df valid_cols targets) keys;
      match groups with
      | [] => Ok (Annotation "No data to display")
      | _ =>
          Ok (Heatmap (map (fun g => map fst (snd g)) groups)
                      (map abbrev_aligned valid_cols)
                      (map fst groups)
                      (map (fun g => map snd (snd g)) groups))
      end.

End heatmaps.

Section improved_heatmap.

Import PyStr Num Frame.
Local Open Scope Q_scope.

(** A value of the [row_data] dicts: the module name or a number. *)
Inductive hval : Type :=
| HStr (s : string)
| HNum (q : Q).

(** Whether the column holds data for the group:
    [demo_col in entity_data.columns and not entity_data[demo_col].isna().all()] *)
Definition has_data (entity_data : DataFrame) (demo_col : string) : bool :=
  match column entity_data demo_col with
  | Ok l => negb (all_na l)
  | Raise _ => false
  end.

(** First pass, one group: the dict [row_data]. *)
Definition improved_row_data (entity_data : DataFrame) (valid_demographic_cols : list string)
  (targets : gmap string Q) (entity_name : string) (total_people : Q)
  : gmap string hval :=
  fold_left
    (fun (row_data : gmap string hval) demo_col =>
       let target_percentage := lookup_target targets demo_col in
       let gap :=
         if has_data entity_data demo_col
         then percent_of (demo_sum entity_data demo_col) total_people - target_percentage
         else - target_percentage in
       <[demo_col := HNum gap]> row_data)
    valid_demographic_cols
    (<["Total_People" := HNum total_people]> (<["EntityDesc" := HStr entity_name]> ∅)).

Definition improved_first_pass (df : DataFrame) (valid_demographic_cols : list string)
  (targets : gmap string Q) (entity_name : string)
  : result (option (gmap string hval)) :=
  let entity_data := group_rows df entity_name in
  do! total_people <- col_sum entity_data "TOTAL";
  if Qeq_bool total_people 0 then Ok None
  else Ok (Some (improved_row_data entity_data valid_demographic_cols targets
                   entity_name total_people)).

Definition no_data_text (title demo_col : string) (target_percentage total_people : Q)
  : string :=
  "<b>" +:+ title +:+ "</b><br>" +:+
  "<b>Demographic:</b> " +:+ demo_col +:+ "<br>" +:+
  "<b>Actual:</b> 0.0% (0 people)<br>" +:+
  "<b>Target:</b> " +:+ fmt_1f target_percentage +:+ "%<br>" +:+
  "<b>Gap:</b> " +:+ fmt_signed_1f (- target_percentage) +:+ "%<br>" +:+
  "<b>Total People:</b> " +:+ fmt_int total_people +:+ "<br>" +:+
  "<i>No data available</i>".

(** Second pass, one cell. *)
Definition improved_cell (df : DataFrame) (targets : gmap string Q)
  (row : gmap string hval) (entity_name : string) (total_people : Q)
  (demo_col : string) : result (Q * string) :=
  let title := truncate_label 60 entity_name in
  match row !! demo_col with
  | Some (HNum gap_value) =>
      let entity_data := entity_rows df (Str entity_name) in
      let demo_count :=
        if has_data entity_data demo_col then demo_sum entity_data demo_col else 0 in
      let actual_percentage :=
        if has_data entity_data demo_col then percent_of demo_count total_people else 0 in
      let target_percentage := lookup_target targets demo_col in
      Ok (gap_value,
          hover_text title demo_col actual_percentage demo_count target_percentage
            gap_value total_people)
  | Some (HStr _) => Raise TypeError
  | None =>
      let target_percentage := lookup_target targets demo_col in
      Ok (0, no_data_text title demo_col target_percentage total_people)
  end.

Fixpoint mapM {A B} (f : A -> result B) (l : list A) : result (list B) :=
  match l with
  | [] => Ok []
  | x :: rest => do! y <- f x; do! ys <- mapM f rest; Ok (y :: ys)
  end.

(** Second pass, one row of [heatmap_df]: label, values and texts. *)
Definition improved_second_pass (df : DataFrame) (valid_demographic_cols : list string)
  (targets : gmap string Q) (row : gmap string hval)
  : result (string * list (Q * string)) :=
  match row !! "EntityDesc", row !! "Total_People" with
  | Some (HStr entity_name), Some (HNum total_people) =>
      do! cells <- mapM (improved_cell df targets row entity_name total_people)
                     valid_demographic_cols;
      Ok (truncate_label 40 entity_name, cells)
  | _, _ => Raise TypeError
  end.

(** The abbreviation of a column on the x axis of [create_improved_heatmap]. *)
Definition abbrev_improved (demo_col : string) : string :=
  let demo_lower := lower demo_col in
  if mem demo_lower ["aam"; "aaf"; "pcm"; "pcf"; "lgbtf"; "other_m"; "other_f"]
  then upper demo_col
  else if contains "african american" demo_lower then "AA"
  else if contains "hispanic" demo_lower then "H"
  else if contains "asian" demo_lower then "AS"
  else if contains "caucasian" demo_lower || contains "white" demo_lower then "C"
  else if contains "native american" demo_lower then "NA"
  else if contains "pacific islander" demo_lower then "PI"
  else if contains "lgbt" demo_lower then "LGBT"
  else if contains "legacy" demo_lower then "LEG"
  else if contains "physically challenged" demo_lower then "PC"
  else if String.eqb demo_lower "male" then "M"
  else if String.eqb demo_lower "female" then "F"
  else if String.eqb demo_lower "other" then "OTHER"
  else upper (slice_to 4 demo_col).

Definition create_improved_heatmap (df : DataFrame) (demographic_cols : list string)
  (targets : gmap string Q) : result Figure :=
  if empty df
  then Ok (Annotation
             "No data available - try selecting different modules or check your filters")
  else if Nat.eqb (length demographic_cols) 0
  then Ok (Annotation "No demographic columns found in the data")
  else
    let required_cols := "EntityDesc" :: "TOTAL" :: demographic_cols in
    let missing_cols := List.filter (fun col => negb (has_column df col)) required_cols in
    if negb (Nat.eqb (length missing_cols) 0)
    then Ok (Annotation ("Missing required columns: " +:+ join ", " missing_cols))
    else
      let valid_demographic_cols := List.filter (has_column df) demographic_cols in
      if Nat.eqb (length valid_demographic_cols) 0
      then Ok (Annotation "No valid demographic columns found in the data")
      else
        do! entities <- column df "EntityDesc";
        do! keys <- group_keys entities;
        do! heatmap_data <-
          collect_rows (improved_first_pass df valid_demographic_cols targets) keys;
        match heatmap_data with
        | [] => Ok (Annotation "No data available for heatmap")
        | _ =>
            do! rows <-
              mapM (improved_second_pass df valid_demographic_cols targets) heatmap_data;
            Ok (Heatmap (map (fun g => map fst (snd g)) rows)
                        (map abbrev_improved valid_demographic_cols)
                        (map fst rows)
                        (map (fun g => map snd (snd g)) rows))
        end.

End improved_heatmap.

(** ** utils/data_health_checker.py *)

Section data_health_checker.

Import PyStr Num Frame.
Local Open Scope Q_scope.

Variable parse_numeric : string -> option Q.

(** The entries of the three lists of the checker.  The two findings of
    [_check_total_consistency] and their overflow lines keep their numbers;
    the text of the other checks is carried as it is. *)
Inductive message : Type :=
| Text (s : string)
| SumExceedsTotal (row_number : nat) (demo_sum total : Q)
| MoreSumExceedsTotal (more : nat)
| Unassigned (row_number : nat) (gap percent : Q)
| MoreUnassigned (more : nat).

(** [self.issues], [self.warnings], [self.info] *)
Record Checker : Type := mkChecker {
  issues : list message;
  warnings : list message;
  info : list message
}.

(** A cell read as a Python number: a missing value is [nan] ([None]
    here); text in a numeric position makes the arithmetic raise. *)
Definition cell_value (c : cell) : result (option Q) :=
  match c with
  | Num q => Ok (Some q)
  | NaN => Ok None
  | Str _ => Raise TypeError
  end.

(** [sum(row.get(col, 0) for col in demographic_cols if col in self.df.columns)] *)
Fixpoint row_demo_sum (cols : list string) (r : list cell) (demographic_cols : list string)
  : result (option Q) :=
  match demographic_cols with
  | [] => Ok (Some 0)
  | col :: rest =>
      do! acc <- row_demo_sum cols r rest;
      match row_get cols r col with
      | Some c =>
          do! v <- cell_value c;
          Ok (match v, acc with
              | Some x, Some y => Some (x + y)
              | _, _ => None
              end)
      | None => Ok acc
      end
  end.

Inductive row_finding : Type :=
| Inconsistent (m : message)
| MissingAttribution (m : message)
| Consistent.

(** The body of the loop over [self.df.iterrows()] for the row at position
    [idx]. *)
Definition check_row (cols : list string) (demographic_cols : list string)
  (idx : nat) (r : list cell) : result row_finding :=
  do! total_specified <- cell_value (default (Num 0) (row_get cols r "TOTAL"));
  do! demo_sum <- row_demo_sum cols r demographic_cols;
  match demo_sum, total_specified with
  | Some s, Some t =>
      if negb (Qle_bool s t) && negb (Qle_bool t 0)
      then Ok (Inconsistent (SumExceedsTotal (idx + 1) s t))
      else if negb (Qle_bool t s) && negb (Qle_bool t 0)
      then
        let gap := t - s in
        if negb (Qle_bool gap (t * (1 # 10)))
        then Ok (MissingAttribution (Unassigned (idx + 1) gap (gap / t * 100)))
        else Ok Consistent
      else Ok Consistent
  | _, _ => Ok Consistent
  end.

Fixpoint check_rows (cols demographic_cols : list string) (idx : nat)
  (rs : list (list cell)) : result (list row_finding) :=
  match rs with
  | [] => Ok []
  | r :: rest =>
      do! f <- check_row cols demographic_cols idx r;
      do! fs <- check_rows cols demographic_cols (S idx) rest;
      Ok (f :: fs)
  end.

Definition inconsistent_rows (fs : list row_finding) : list message :=
  flat_map (fun f => match f with Inconsistent m => [m] | _ => [] end) fs.

Definition missing_attribution_rows (fs : list row_finding) : list message :=
  flat_map (fun f => match f with MissingAttribution m => [m] | _ => [] end) fs.

(** [lst.extend(found[:n])], then the overflow line when more were found. *)
Definition report (n : nat) (more : nat -> message) (found lst : list message)
  : list message :=
  match found with
  | [] => lst
  | _ =>
      (lst ++ firstn n found ++
       (if (n <? length found)%nat then [more (length found - n)%nat] else []))%list
  end.

(** [_check_total_consistency] on the checker's frame [df]. *)
Definition _check_total_consistency (df : DataFrame) (self : Checker) : result Checker :=
  if negb (has_column df "TOTAL") then Ok self
  else
    do! processor_df <- _validate_data parse_numeric df;
    let demographic_cols := get_demographic_columns (columns processor_df) in
    if Nat.eqb (length demographic_cols) 0 then Ok self
    else
      do! fs <- check_rows (columns df)
                  (List.filter (has_column df) demographic_cols) 0 (rows df);
      Ok (mkChecker
            (report 5 MoreSumExceedsTotal (inconsistent_rows fs) (issues self))
            (report 3 MoreUnassigned (missing_attribution_rows fs) (warnings self))
            (info self)).

(** The dict that [run_comprehensive_check] returns. *)
Record Results : Type := mkResults {
  critical : list message;
  warning : list message;
  information : list message
}.

Definition results_of (self : Checker) : Results :=
  mkResults (issues self) (warnings self) (info self).

(** The Streamlit calls of [display_health_check_results]. *)
Inductive st_call : Type :=
| st_error_title
| st_error (m : message)
| st_write_action_required
| st_warning_title
| st_warning (m : message)
| st_write_recommendation
| st_success_summary
| st_info (m : message)
| st_success_excellent
| st_info_good.

Definition nonempty {A} (l : list A) : bool := negb (Nat.eqb (length l) 0).

(** [display_health_check_results]: the calls made and the value returned. *)
Definition display_health_check_results (results : Results) : list st_call * bool :=
  if nonempty (critical results)
  then ((st_error_title :: map st_error (critical results)
         ++ [st_write_action_required])%list,
        false)
  else
    (((if nonempty (warning results)
       then st_warning_title :: map st_warning (warning results)
            ++ [st_write_recommendation]
       else []) ++
      (if nonempty (information results)
       then st_success_summary :: map st_info (information results)
       else []) ++
      (if negb (nonempty (critical results)) && negb (nonempty (warning results))
       then [st_success_excellent]
       else if negb (nonempty (critical results)) then [st_info_good] else []))%list,
     true).

End data_health_checker.

(** ** Objects and aliasing

    Frames are objects: the caller and the processor hold references into
    one store, a [copy()] allocates, and an item assignment writes in
    place. *)

Section objects.

Import PyStr Num Frame.
Local Open Scope Q_scope.

Variable parse_numeric : string -> option Q.

Local Abbreviation store := (gmap nat DataFrame).

(** A computation on the store that may raise; the store survives a raise. *)
Definition M (A : Type) : Type := store -> result A * store.

Definition ret {A} (a : A) : M A := fun h => (Ok a, h).

Definition raise {A} (e : exn) : M A := fun h => (Raise e, h).

Definition bind {A B} (m : M A) (k : A -> M B) : M B :=
  fun h => match m h with
           | (Ok a, h') => k a h'
           | (Raise e, h') => (Raise e, h')
           end.

Definition lift {A} (r : result A) : M A := fun h => (r, h).

(** A new object. *)
Definition alloc (d : DataFrame) : M nat :=
  fun h => let r := fresh (dom h) in (Ok r, <[r := d]> h).

Definition read (r : nat) : M DataFrame :=
  fun h => match h !! r with
           | Some d => (Ok d, h)
           | None => (Raise (KeyError "no such object"), h)
           end.

(** An update in place of the object at [r]. *)
Definition write (r : nat) (d : DataFrame) : M unit :=
  fun h => (Ok tt, <[r := d]> h).

(** [df.copy()] *)
Definition copy (r : nat) : M nat := bind (read r) alloc.

(** The attributes of a [DataProcessor]. *)
Record DataProcessor : Type := mkDataProcessor {
  self_df : nat;
  original_df : nat
}.

(** [_validate_data] on the object [self.df]: [rename] returns a new frame
    that [self.df] is rebound to, and the assignment to its ['TOTAL'] writes
    into that new frame. *)
Definition validate_data_obj (self_df0 : nat) : M nat :=
  bind (read self_df0) (fun d =>
  let mapped := map_columns column_mappings (columns d) in
  let missing := missing_required mapped in
  if negb (Nat.eqb (length missing) 0)
  then raise (ValueError (error_msg missing (columns d)))
  else
    bind (alloc (mkDF (rename (rename_dict mapped) (columns d)) (rows d))) (fun r =>
    bind (read r) (fun renamed =>
    bind (lift (coerce_total parse_numeric renamed)) (fun coerced =>
    bind (write r coerced) (fun _ => ret r))))).

(** [DataProcessor.__init__(df)] *)
Definition __init__ (df : nat) : M DataProcessor :=
  bind (copy df) (fun r1 =>
  bind (copy df) (fun r2 =>
  bind (validate_data_obj r1) (fun r => ret (mkDataProcessor r r2)))).

(** One round of the loop of [apply_filters]: the selection is a new frame. *)
Definition filter_step (filtered_df : nat) (f : string * list cell) : M nat :=
  bind (read filtered_df) (fun d =>
  let (column, values) := f in
  if has_column d column && negb (Nat.eqb (length values) 0)
  then alloc (select d (fun r => match row_get (columns d) r column with
                                 | Some c => isin c values
                                 | None => false
                                 end))
  else ret filtered_df).

Fixpoint filter_loop (filtered_df : nat) (filters : list (string * list cell)) : M nat :=
  match filters with
  | [] => ret filtered_df
  | f :: rest => bind (filter_step filtered_df f) (fun r => filter_loop r rest)
  end.

(** [DataProcessor.apply_filters(filters)] *)
Definition apply_filters_obj (self : DataProcessor) (filters : list (string * list cell))
  : M nat :=
  bind (copy (self_df self)) (fun r => filter_loop r filters).

(** An analytic method: it reads [self.df] and its argument and builds its
    answer from their contents. *)
Definition analytic {A} (f : list string -> DataFrame -> result A)
  (self : DataProcessor) (df : nat) : M A :=
  bind (read (self_df self)) (fun s =>
  bind (read df) (fun d => lift (f (columns s) d))).

(** What the analyses of one session return. *)
Record Analyses : Type := mkAnalyses {
  an_percentages : list PercentageRow;
  an_gaps : list GapRecord;
  an_diversity : option DiversityMetrics
}.

(** A session: construct the processor on the caller's frame, filter, and
    run the analyses on the filtered frame. *)
Definition session (df : nat) (filters : list (string * list cell))
  (targets : gmap string Q) : M (nat * Analyses) :=
  bind (__init__ df) (fun processor =>
  bind (apply_filters_obj processor filters) (fun filtered =>
  bind (analytic calculate_demographic_percentages processor filtered) (fun p =>
  bind (analytic (fun c d => calculate_demographic_gaps c d targets) processor filtered)
    (fun g =>
  bind (analytic calculate_diversity_metrics processor filtered) (fun m =>
  ret (filtered, mkAnalyses p g m)))))).

End objects.

(** ** Python strings and lists, continued

    Text outside ASCII is held as its UTF-8 bytes, on which equality,
    concatenation, search and order agree with Python's, which work on code
    points. *)

Section python_values.

Import PyStr Num Frame.

(** [s.replace(old, new)] for a non-empty [old]: the occurrences of [old]
    are found from the left and do not overlap; [skip] counts the characters
    of the occurrence just replaced that are still to be passed over. *)
Fixpoint replace_from (old new : string) (skip : nat) (s : string) : string :=
  match s with
  | EmptyString => EmptyString
  | String c rest =>
      match skip with
      | S k => replace_from old new k rest
      | O =>
          if String.prefix old s
          then new +:+ replace_from old new (String.length old - 1) rest
          else String c (replace_from old new 0 rest)
      end
  end.

Definition replace (old new s : string) : string := replace_from old new 0 s.

(** A stable sort: [x] is put in front of the first element that it does
    not exceed. *)
Fixpoint insert_leb {A} (leb : A -> A -> bool) (x : A) (l : list A) : list A :=
  match l with
  | [] => [x]
  | y :: rest => if leb x y then x :: l else y :: insert_leb leb x rest
  end.

Definition sort_leb {A} (leb : A -> A -> bool) (l : list A) : list A :=
  fold_right (insert_leb leb) [] l.

(** The distinct elements in order of first appearance. *)
Fixpoint distinct_aux {A} (eqb : A -> A -> bool) (seen l : list A) : list A :=
  match l with
  | [] => []
  | x :: rest =>
      if existsb (eqb x) seen then distinct_aux eqb seen rest
      else x :: distinct_aux eqb (x :: seen) rest
  end.

Definition distinct {A} (eqb : A -> A -> bool) (l : list A) : list A :=
  distinct_aux eqb [] l.

(** [pd.notna(c)] *)
Definition notna (c : cell) : bool :=
  match c with
  | NaN => false
  | _ => true
  end.

(** [series.dropna()] *)
Definition dropna (l : list cell) : list cell := List.filter notna l.

(** [series.nunique()]: missing values are not counted. *)
Definition nunique (l : list cell) : nat := length (unique (dropna l)).

(** The numbers of a list that holds only numbers. *)
Definition numbers (l : list cell) : option (list Q) :=
  if forallb (fun c => match c with Num _ => true | _ => false end) l
  then Some (map cell_num l) else None.

(** The strings of a list that holds only text. *)
Definition texts (l : list cell) : option (list string) :=
  if forallb (fun c => match c with Str _ => true | _ => false end) l
  then Some (map (fun c => match c with Str s => s | _ => EmptyString end) l)
  else None.

(** [sorted(values)] for values none of which is missing: numbers are
    ordered by value and text by character codes; the comparison of a
    number with text raises. *)
Definition sorted (values : list cell) : result (list cell) :=
  match numbers values, texts values with
  | Some qs, _ => Ok (map Num (sort_leb Qle_bool qs))
  | None, Some ss => Ok (map Str (sort_leb String.leb ss))
  | None, None => Raise TypeError
  end.

(** The order in which [groupby] lists the values of a key: numbers by
    value, then text by character codes. *)
Definition key_leb (a b : cell) : bool :=
  match a, b with
  | Num x, Num y => Qle_bool x y
  | Num _, _ => true
  | Str _, Num _ => false
  | Str s, Str t => String.leb s t
  | Str _, NaN => true
  | NaN, NaN => true
  | NaN, _ => false
  end.

(** [df[df[col] == value]] *)
Definition rows_where (df : DataFrame) (col : string) (value : cell) : DataFrame :=
  select df (fun r => match row_get (columns df) r col with
                      | Some c => cell_equal c value
                      | None => false
                      end).

End python_values.

(** ** utils/data_processor.py: listings and aggregates *)

Section data_processor_aggregates.

Import PyStr Num Frame.
Local Open Scope Q_scope.

(** [str(x)] of a number held in a cell: the digits depend on whether the
    column holds integers or floats. *)
Variable py_str : Q -> string.

(** [str(v)] of a cell value, the text an f-string puts in its place. *)
Definition cell_text (c : cell) : string :=
  match c with
  | Str s => s
  | Num q => py_str q
  | NaN => "nan"
  end.

(** [get_unique_values]: a comparison that raises [TypeError] sends the
    values through [str] first. *)
Definition get_unique_values (self_df : DataFrame) (column : string) : list cell :=
  match Frame.column self_df column with
  | Raise _ => []
  | Ok cells =>
      let unique_vals := unique (dropna cells) in
      match sorted unique_vals with
      | Ok l => l
      | Raise _ => map Str (sort_leb String.leb (map cell_text unique_vals))
      end
  end.

(** One row of the table of [calculate_module_totals]. *)
Record ModuleTotal : Type := mkModuleTotal {
  mt_EntityDesc : cell;
  mt_Grade : cell;
  mt_Total_People : Q
}.

Definition pair_eqb (a b : cell * cell) : bool :=
  cell_eqb (fst a) (fst b) && cell_eqb (snd a) (snd b).

(** Keys of two columns are ordered by the first, then by the second. *)
Definition pair_leb (a b : cell * cell) : bool :=
  if cell_eqb (fst a) (fst b) then key_leb (snd a) (snd b)
  else key_leb (fst a) (fst b).

(** The keys of [df.groupby([c1, c2])]: the distinct pairs of values that
    occur in a row, in order; a row with a missing value in either column
    belongs to no group. *)
Definition group_pairs (keys : list (cell * cell)) : list (cell * cell) :=
  sort_leb pair_leb
    (distinct pair_eqb (List.filter (fun k => notna (fst k) && notna (snd k)) keys)).

(** The summed value of the rows of one group. *)
Definition pair_total (keyed : list ((cell * cell) * cell)) (k : cell * cell) : Q :=
  sum_cells (map snd (List.filter (fun kt => pair_eqb (fst kt) k) keyed)).

(** [calculate_module_totals]: rows with equal totals stay in group order. *)
Definition calculate_module_totals (df : DataFrame) : result (list ModuleTotal) :=
  if empty df then Ok []
  else
    do! entities <- column df "EntityDesc";
    do! grades <- column df "Grade";
    do! totals <- match column df "TOTAL" with
                  | Ok l => Ok l
                  | Raise _ => Raise (KeyError "Column not found: TOTAL")
                  end;
    let keys := combine entities grades in
    let module_totals :=
      map (fun k => mkModuleTotal (fst k) (snd k) (pair_total (combine keys totals) k))
          (group_pairs keys) in
    Ok (sort_values (fun m => - mt_Total_People m) module_totals).

(** The entries [<demo_col>_Count] and [<demo_col>_Percentage] of a row,
    computed with [total_people] different from 0. *)
Definition demographic_shares (demographic_cols : list string) (data : DataFrame)
  (total_people : Q) : list (string * (Q * Q)) :=
  map (fun demo_col =>
         let demo_count := demo_sum data demo_col in
         let percentage := (demo_count / total_people) * 100 in
         (demo_col, (demo_count, percentage)))
      (List.filter (has_column data) demographic_cols).

(** One row of the table of [calculate_demographic_trends]. *)
Record TrendRow : Type := mkTrendRow {
  tr_Grade : cell;
  tr_EntityDesc : cell;
  tr_Total_People : Q;
  tr_demographics : list (string * (Q * Q))
}.

(** The inner loop body of [calculate_demographic_trends]. *)
Definition trend_row (demographic_cols : list string) (grade_data : DataFrame)
  (grade entity : cell) : result (option TrendRow) :=
  let entity_data := rows_where grade_data "EntityDesc" entity in
  do! total_people <- col_sum entity_data "TOTAL";
  if Qeq_bool total_people 0 then Ok None
  else Ok (Some (mkTrendRow grade entity total_people
                   (demographic_shares demographic_cols entity_data total_people))).

(** The outer loop body. *)
Definition grade_trends (demographic_cols : list string) (df : DataFrame)
  (grade : cell) : result (list TrendRow) :=
  let grade_data := rows_where df "Grade" grade in
  do! entities <- column grade_data "EntityDesc";
  collect_rows (trend_row demographic_cols grade_data grade) (unique entities).

(** [calculate_demographic_trends]; [self_cols] is [self.df.columns]. *)
Definition calculate_demographic_trends (self_cols : list string) (df : DataFrame)
  : result (list TrendRow) :=
  let demographic_cols := get_demographic_columns self_cols in
  if Nat.eqb (length demographic_cols) 0 then Ok []
  else
    do! grades <- column df "Grade";
    do! per_grade <- mapM (grade_trends demographic_cols df) (unique grades);
    Ok (concat per_grade).

(** One row of a table of [calculate_grade_comparisons]. *)
Record SummaryRow : Type := mkSummaryRow {
  sr_key : cell;
  sr_Total_People : Q;
  sr_demographics : list (string * (Q * Q))
}.

(** The body of either loop of [calculate_grade_comparisons], over the
    values of the column [key_col]. *)
Definition summary_row (demographic_cols : list string) (df : DataFrame)
  (key_col : string) (value : cell) : result (option SummaryRow) :=
  let data := rows_where df key_col value in
  do! total_people <- col_sum data "TOTAL";
  if Qeq_bool total_people 0 then Ok None
  else Ok (Some (mkSummaryRow value total_people
                   (demographic_shares demographic_cols data total_people))).

Definition summary_by (demographic_cols : list string) (df : DataFrame)
  (key_col : string) : result (list SummaryRow) :=
  do! values <- column df key_col;
  collect_rows (summary_row demographic_cols df key_col) (unique values).

(** The dict that [calculate_grade_comparisons] returns: [None] is the empty
    dict. *)
Record Comparisons : Type := mkComparisons {
  grade_summary : list SummaryRow;
  component_summary : list SummaryRow
}.

Definition calculate_grade_comparisons (self_cols : list string) (df : DataFrame)
  : result (option Comparisons) :=
  let demographic_cols := get_demographic_columns self_cols in
  if Nat.eqb (length demographic_cols) 0 then Ok None
  else
    do! by_grade <- summary_by demographic_cols df "Grade";
    do! by_component <- summary_by demographic_cols df "Component Desc";
    Ok (Some (mkComparisons by_grade by_component)).

(** [np.mean] of a list of finite numbers. *)
Definition q_mean (values : list Q) : Q :=
  fold_right Qplus 0 values / inject_Z (Z.of_nat (length values)).

(** [np.std]: the root of the mean squared distance to the mean. *)
Definition np_std (values : list Q) : R :=
  let mean := q_mean values in
  sqrt (Q2R (q_mean (map (fun x => (x - mean) * (x - mean)) values))).

(** The entry ['representation_balance'] of the dict of
    [calculate_diversity_metrics]; [None] when the dict has no such entry. *)
Definition representation_balance (self_cols : list string) (df : DataFrame)
  : result (option R) :=
  let demographic_cols := get_demographic_columns self_cols in
  if Nat.eqb (length demographic_cols) 0 then Ok None
  else
    do! total_people <- col_sum df "TOTAL";
    if Qeq_bool total_people 0 then Ok None
    else
      let demo_percentages :=
        map (fun demo_count => (demo_count / total_people) * 100)
            (demo_counts self_cols df) in
      match demo_percentages with
      | [] => Ok None
      | _ =>
          let mean_percentage := q_mean demo_percentages in
          let std_percentage := np_std demo_percentages in
          let cv := if negb (Qle_bool mean_percentage 0)
                    then (std_percentage / Q2R mean_percentage)%R else 0%R in
          Ok (Some (1 / (1 + cv))%R)
      end.

End data_processor_aggregates.

(** ** utils/module_validator.py *)

Section module_validator.

Import PyStr Num Frame.
Local Open Scope Q_scope.

Variable py_str : Q -> string.

(** The dict that [validate_modules_with_demographic_data] returns. *)
Record ModulesStatus : Type := mkModulesStatus {
  with_data : list cell;
  without_data : list cell
}.

(** The inner loop: some demographic column of the module's rows sums to
    more than 0. *)
Definition has_demo_data (self_df : DataFrame) (demographic_cols : list string)
  (entity : cell) : bool :=
  let entity_data := rows_where self_df "EntityDesc" entity in
  existsb (fun demo_col =>
             has_column entity_data demo_col
             && negb (Qle_bool (demo_sum entity_data demo_col) 0))
          demographic_cols.

(** [validate_modules_with_demographic_data] on the processor's frame. *)
Definition validate_modules_with_demographic_data (self_df : DataFrame)
  : ModulesStatus :=
  let entities := get_unique_values py_str self_df "EntityDesc" in
  let demographic_cols := get_demographic_columns (columns self_df) in
  fold_left
    (fun status entity =>
       if has_demo_data self_df demographic_cols entity
       then mkModulesStatus (with_data status ++ [entity]) (without_data status)
       else mkModulesStatus (with_data status) (without_data status ++ [entity]))
    entities (mkModulesStatus [] []).

(** [create_enhanced_module_options] *)
Definition create_enhanced_module_options (modules_status : ModulesStatus)
  : list string :=
  ("All Modules" ::
   map (fun module => cell_text py_str module +:+ " ✓") (with_data modules_status) ++
   map (fun module => cell_text py_str module +:+ " (no data)")
       (without_data modules_status))%list.

(** [get_actual_module_name] *)
Definition get_actual_module_name (selected_option : string) : string :=
  if String.eqb selected_option "All Modules" then selected_option
  else replace " (no data)" "" (replace " ✓" "" selected_option).

(** [check_module_has_data] *)
Definition check_module_has_data (selected_option : string) : bool :=
  contains " ✓" selected_option || String.eqb selected_option "All Modules".

End module_validator.

(** ** utils/data_health_checker.py: the other checks

    The checker works on the frame as it was uploaded, not on the
    processor's copy; its sums are those of [sum_cells]. *)

Section data_health_checks.

Import PyStr Num Frame.
Local Open Scope Q_scope.

Variable parse_numeric : string -> option Q.

(** [str(x)] of a number held in a cell. *)
Variable py_str : Q -> string.

(** [str(n)] of a length or a count. *)
Definition count_text (n : nat) : string := digits (Z.of_nat n).

(** A comma after every third digit, for digits in order of increasing
    weight. *)
Fixpoint commas (digits_rev : list ascii) : list ascii :=
  match digits_rev with
  | a :: b :: c :: rest =>
      match rest with
      | [] => digits_rev
      | _ => a :: b :: c :: ","%char :: commas rest
      end
  | _ => digits_rev
  end.

(** [f"{n:,}"] of an integer. *)
Definition fmt_thousands (n : Z) : string :=
  (if (n <? 0)%Z then "-" else "") +:+
  string_of_list_ascii
    (rev (commas (rev (list_ascii_of_string (digits (Z.abs n)))))).

Definition add_issue (self : Checker) (m : message) : Checker :=
  mkChecker (issues self ++ [m]) (warnings self) (info self).

Definition add_warning (self : Checker) (m : message) : Checker :=
  mkChecker (issues self) (warnings self ++ [m]) (info self).

Definition add_info (self : Checker) (m : message) : Checker :=
  mkChecker (issues self) (warnings self) (info self ++ [m]).

(** [_check_required_columns] *)
Definition _check_required_columns (df : DataFrame) (self : Checker) : Checker :=
  let required_cols := ["EntityDesc"; "Grade"; "TOTAL"] in
  let missing_required :=
    List.filter (fun col => negb (has_column df col)) required_cols in
  if nonempty missing_required
  then add_issue self
         (Text ("Missing required columns: " +:+ join ", " missing_required))
  else add_info self
         (Text "All required columns (EntityDesc, Grade, TOTAL) are present").

(** An entry of the list of sparse demographics. *)
Definition sparse_entry (demo_col : string) (demo_count total_people : Q) : string :=
  demo_col +:+ " (" +:+ py_str demo_count +:+ " people, " +:+
  fmt_1f (demo_count / total_people * 100) +:+ "%)".

(** [_check_demographic_data_quality]: the processor is built on the
    checker's frame, which raises when the frame cannot be validated. *)
Definition _check_demographic_data_quality (df : DataFrame) (self : Checker)
  : result Checker :=
  do! processor_df <- _validate_data parse_numeric df;
  let demographic_cols := get_demographic_columns (columns processor_df) in
  if Nat.eqb (length demographic_cols) 0
  then Ok (add_warning self (Text "No demographic columns detected in the dataset"))
  else
    let self :=
      add_info self
        (Text ("Found " +:+ count_text (length demographic_cols) +:+
               " demographic columns: " +:+ join ", " (firstn 5 demographic_cols))) in
    let self :=
      if (5 <? length demographic_cols)%nat
      then add_info self
             (Text ("...and " +:+ count_text (length demographic_cols - 5) +:+
                    " more demographic columns"))
      else self in
    let present := List.filter (has_column df) demographic_cols in
    let zero_demographics :=
      List.filter (fun demo_col => Qeq_bool (demo_sum df demo_col) 0) present in
    let self :=
      if nonempty zero_demographics
      then add_warning self
             (Text ("Demographics with zero values: " +:+ join ", " zero_demographics))
      else self in
    if has_column df "TOTAL" then
      let total_people := demo_sum df "TOTAL" in
      let sparse_demographics :=
        map (fun demo_col => sparse_entry demo_col (demo_sum df demo_col) total_people)
            (List.filter
               (fun demo_col =>
                  let demo_count := demo_sum df demo_col in
                  negb (Qle_bool demo_count 0)
                  && negb (Qle_bool (total_people * (1 # 100)) demo_count))
               present) in
      if nonempty sparse_demographics
      then Ok (add_info self
                 (Text ("Very sparse demographics (< 1%): " +:+
                        join ", " sparse_demographics)))
      else Ok self
    else Ok self.

(** [self.df[col].isna().sum()] *)
Definition missing_count (df : DataFrame) (col : string) : nat :=
  match column df col with
  | Ok cells => length (List.filter (fun c => negb (notna c)) cells)
  | Raise _ => 0
  end.

(** [_check_missing_values] *)
Definition _check_missing_values (df : DataFrame) (self : Checker) : Checker :=
  fold_left
    (fun self col =>
       if has_column df col then
         let n := missing_count df col in
         if (0 <? n)%nat
         then add_warning self
                (Text (col +:+ " has " +:+ count_text n +:+ " missing values"))
         else self
       else self)
    ["EntityDesc"; "Grade"] self.

(** [self.df[col].nunique()] *)
Definition column_nunique (df : DataFrame) (col : string) : nat :=
  match column df col with
  | Ok cells => nunique cells
  | Raise _ => 0
  end.

(** The totals of [self.df.groupby('EntityDesc')['TOTAL'].sum()], one for
    each module. *)
Definition module_sums (df : DataFrame) : list Q :=
  match column df "EntityDesc" with
  | Ok cells =>
      map (fun entity => demo_sum (rows_where df "EntityDesc" entity) "TOTAL")
          (unique (dropna cells))
  | Raise _ => []
  end.

(** [_check_data_completeness] *)
Definition _check_data_completeness (df : DataFrame) (self : Checker) : Checker :=
  let total_rows := length (rows df) in
  let total_modules :=
    if has_column df "EntityDesc" then column_nunique df "EntityDesc" else 0%nat in
  let total_grades :=
    if has_column df "Grade" then column_nunique df "Grade" else 0%nat in
  let self :=
    add_info self
      (Text ("Dataset contains " +:+ count_text total_rows +:+ " rows across " +:+
             count_text total_modules +:+ " modules and " +:+
             count_text total_grades +:+ " grades")) in
  if has_column df "TOTAL" then
    let total_people := demo_sum df "TOTAL" in
    let self :=
      add_info self
        (Text ("Total people in dataset: " +:+ fmt_thousands (py_int total_people))) in
    if has_column df "EntityDesc" then
      let small_modules :=
        List.filter (fun t => negb (Qle_bool 10 t)) (module_sums df) in
      if (0 <? length small_modules)%nat
      then add_warning self
             (Text (count_text (length small_modules) +:+
                    " modules have fewer than 10 people"))
      else self
    else self
  else self.

(** The keys of a dict filled in the order of [l]. *)
Definition dict_keys (l : list string) : list string := distinct String.eqb l.

(** An entry of the lists of dominant and of underrepresented
    demographics. *)
Definition share_entry (cp : string * Q) : string :=
  fst cp +:+ " (" +:+ fmt_1f (snd cp) +:+ "%)".

(** [_check_demographic_distribution] *)
Definition _check_demographic_distribution (df : DataFrame) (self : Checker)
  : result Checker :=
  do! processor_df <- _validate_data parse_numeric df;
  let demographic_cols := get_demographic_columns (columns processor_df) in
  if Nat.eqb (length demographic_cols) 0 || negb (has_column df "TOTAL") then Ok self
  else
    let total_people := demo_sum df "TOTAL" in
    if Qeq_bool total_people 0 then Ok self
    else
      let demo_percentages :=
        map (fun demo_col => (demo_col, (demo_sum df demo_col / total_people) * 100))
            (dict_keys (List.filter (has_column df) demographic_cols)) in
      let dominant_demos :=
        List.filter (fun cp => negb (Qle_bool (snd cp) 50)) demo_percentages in
      let self :=
        if nonempty dominant_demos
        then add_info self
               (Text ("Dominant demographics (>50%): " +:+
                      join ", " (map share_entry dominant_demos)))
        else self in
      let underrep_demos :=
        List.filter (fun cp => negb (Qle_bool (snd cp) 0) && negb (Qle_bool 5 (snd cp)))
                    demo_percentages in
      if nonempty underrep_demos
      then Ok (add_info self
                 (Text ("Underrepresented demographics (<5%): " +:+
                        join ", " (map share_entry underrep_demos))))
      else Ok self.

(** [run_comprehensive_check]: the six checks on emptied lists, in order. *)
Definition run_comprehensive_check (df : DataFrame) : result Results :=
  let self := mkChecker [] [] [] in
  let self := _check_required_columns df self in
  do! self <- _check_demographic_data_quality df self;
  do! self <- _check_total_consistency parse_numeric df self;
  let self := _check_missing_values df self in
  let self := _check_data_completeness df self in
  do! self <- _check_demographic_distribution df self;
  Ok (results_of self).

(** [expected_patterns] of [validate_column_headers], in insertion order. *)
Definition expected_patterns : list (string * list string) :=
  [ ("EntityDesc", ["entity"; "entitydesc"; "entity_desc"; "module"; "lesson"]);
    ("Grade", ["grade"; "level"; "year"]);
    ("TOTAL", ["total"; "spec_count"; "speccount"; "count"; "sum"]);
    ("Component Desc", ["component"; "componentdesc"; "component_desc"; "type"]) ].

(** [any(pattern in col.lower().replace(' ', '_') for pattern in patterns)] *)
Definition resembles (patterns : list string) (col : string) : bool :=
  existsb (fun pattern => contains pattern (replace " " "_" (lower col))) patterns.

(** [validate_column_headers] on [df.columns]. *)
Definition validate_column_headers (cols : list string) : bool * list string :=
  let suggestions :=
    flat_map
      (fun ep : string * list string =>
         let (expected_col, patterns) := ep in
         if negb (mem expected_col cols) then
           match List.filter (resembles patterns) cols with
           | [] => []
           | first_match :: _ =>
               ["Consider renaming '" +:+ first_match +:+ "' to '" +:+
                expected_col +:+ "'"]
           end
         else [])
      expected_patterns in
  (Nat.eqb (length suggestions) 0, suggestions).

End data_health_checks.

(** ** utils/export_utils.py *)

Section export_utils.

Import PyStr Num Frame.
Local Open Scope Q_scope.

(** [', '.join(values)] on the values of a column: a value that is not
    text is refused. *)
Definition join_cells (values : list cell) : result string :=
  match texts values with
  | Some l => Ok (join ", " l)
  | None => Raise TypeError
  end.

(** One row of the table of [export_heatmap_data]; each demographic column
    has its count and its percentage. *)
Record HeatmapExportRow : Type := mkHeatmapExportRow {
  he_EntityDesc : cell;
  he_Grades : string;
  he_Components : string;
  he_Total_People : Q;
  he_demographics : list (string * (Q * npfloat))
}.

(** The loop body of [export_heatmap_data] for one entity: [None] stands
    for [continue]. *)
Definition export_row (demographic_cols : list string) (df : DataFrame)
  (entity : cell) : result (option HeatmapExportRow) :=
  let entity_data := entity_rows df entity in
  do! total_people <- col_sum entity_data "TOTAL";
  if Qeq_bool total_people 0 then Ok None
  else
    do! grades <- column entity_data "Grade";
    do! components <- column entity_data "Component Desc";
    do! grades_text <- join_cells (unique grades);
    do! components_text <- join_cells (unique components);
    Ok (Some (mkHeatmapExportRow entity grades_text components_text total_people
      (map (fun demo_col =>
              if has_column entity_data demo_col then
                let demo_count := demo_sum entity_data demo_col in
                let demo_percentage :=
                  if negb (Qle_bool total_people 0)
                  then np_scale (np_div demo_count total_people) 100
                  else Fin 0 in
                (demo_col, (demo_count, np_round2 demo_percentage))
              else (demo_col, (0, Fin 0)))
           demographic_cols))).

(** [export_heatmap_data]; an empty list is the empty frame. *)
Definition export_heatmap_data (df : DataFrame) (demographic_cols : list string)
  : result (list HeatmapExportRow) :=
  if empty df || Nat.eqb (length demographic_cols) 0 then Ok []
  else
    do! entities <- column df "EntityDesc";
    collect_rows (export_row demographic_cols df) (unique entities).

End export_utils.

(** * Properties *)

(** ** Tables of head counts

    The embedding reads a label as one column and computes with exact
    rationals, where pandas computes with int64 and float64.  The two agree
    on the frames described here: the labels are distinct, and the columns
    that are summed hold whole numbers or missing values whose absolute
    values sum to less than 2^52, so that no sum wraps or rounds. *)

Section head_counts.

Import PyStr Num Frame.
Local Open Scope Q_scope.

(** No label occurs twice. *)
Fixpoint distinct_labels (labels : list string) : bool :=
  match labels with
  | [] => true
  | l :: rest => negb (mem l rest) && distinct_labels rest
  end.

(** A whole number or a missing value. *)
Definition whole_number (c : cell) : bool :=
  match c with
  | Num q => Qeq_bool q (inject_Z (Qfloor q))
  | NaN => true
  | Str _ => false
  end.

(** The sum of the absolute values of the column [col], 0 without it. *)
Definition magnitude (df : DataFrame) (col : string) : Q :=
  match column df col with
  | Ok cells => fold_right (fun c acc => Qabs (cell_num c) + acc) 0 cells
  | Raise _ => 0
  end.

(** The column [col], if the frame has it, holds whole numbers or missing
    values. *)
Definition whole_column (df : DataFrame) (col : string) : bool :=
  match column df col with
  | Ok cells => forallb whole_number cells
  | Raise _ => true
  end.

(** A Series of counts. *)
Definition count_series (cells : list cell) : bool :=
  forallb whole_number cells
  && negb (Qle_bool (inject_Z (2 ^ 52))
             (fold_right (fun c acc => Qabs (cell_num c) + acc) 0 cells)).

(** A frame with distinct labels whose columns [labels] hold counts. *)
Definition count_table (df : DataFrame) (labels : list string) : bool :=
  distinct_labels (columns df)
  && forallb (whole_column df) labels
  && negb (Qle_bool (inject_Z (2 ^ 52))
             (fold_right (fun col acc => magnitude df col + acc) 0 labels)).

End head_counts.

(** ** Strings *)

Section string_facts.

Import PyStr.

Lemma prefix_app (p t : string) : String.prefix p (p +:+ t) = true.
Proof.
  induction p as [|a p IH]; simpl.
  - destruct t; reflexivity.
  - destruct (ascii_dec a a); [exact IH | congruence].
Qed.

Lemma prefix_split (p s : string) :
  String.prefix p s = true -> exists t, s = p +:+ t.
Proof.
  revert s; induction p as [|a p IH]; intros s H.
  - exists s; reflexivity.
  - destruct s as [|b s]; cbn [String.prefix] in H; [discriminate|].
    destruct (ascii_dec a b) as [->|]; [|discriminate].
    destruct (IH _ H) as [t ->]. exists t; reflexivity.
Qed.

Lemma contains_here (p s : string) : String.prefix p s = true -> contains p s = true.
Proof. intros H; destruct s; cbn [contains]; rewrite H; reflexivity. Qed.

Lemma contains_later (p : string) (c : ascii) (s : string) :
  contains p s = true -> contains p (String c s) = true.
Proof. intros H; cbn [contains]; rewrite H; apply orb_true_r. Qed.

(** [contains] is occurrence as a block. *)
Lemma contains_app (p a b : string) : contains p (a +:+ p +:+ b) = true.
Proof.
  induction a as [|c a IH].
  - change (contains p (p +:+ b) = true). apply contains_here, prefix_app.
  - change (contains p (String c (a +:+ p +:+ b)) = true).
    apply contains_later, IH.
Qed.

Lemma contains_split (p s : string) :
  contains p s = true -> exists a b, s = a +:+ p +:+ b.
Proof.
  induction s as [|c s IH]; cbn [contains]; intros H.
  - rewrite orb_false_r in H. destruct (prefix_split _ _ H) as [t Ht].
    exists EmptyString, t; exact Ht.
  - apply orb_true_iff in H as [H|H].
    + destruct (prefix_split _ _ H) as [t Ht]. exists EmptyString, t; exact Ht.
    + destruct (IH H) as (a & b & ->). exists (String c a), b; reflexivity.
Qed.

(** A string without white space. *)
Fixpoint no_space (s : string) : bool :=
  match s with
  | EmptyString => true
  | String c s' => negb (is_space c) && no_space s'
  end.

Lemma lstrip_keeps (a p b : string) (c : ascii) :
  is_space c = false ->
  exists a', lstrip (a +:+ String c p +:+ b) = a' +:+ String c p +:+ b.
Proof.
  intros Hc; induction a as [|x a IH].
  - exists EmptyString.
    change (lstrip (String c (p +:+ b)) = String c (p +:+ b)).
    cbn [lstrip]. rewrite Hc. reflexivity.
  - change (exists a', lstrip (String x (a +:+ String c p +:+ b)) = a' +:+ String c p +:+ b).
    cbn [lstrip]. destruct (is_space x).
    + exact IH.
    + exists (String x a); reflexivity.
Qed.

Lemma rstrip_nonspace (s : string) (c : ascii) (t : string) :
  is_space c = false ->
  rstrip (s +:+ String c t) = s +:+ String c (rstrip t).
Proof.
  intros Hc; induction s as [|x s IH].
  - change (rstrip (String c t) = String c (rstrip t)).
    cbn [rstrip]. rewrite Hc. destruct (rstrip t); reflexivity.
  - change (rstrip (String x (s +:+ String c t)) = String x (s +:+ String c (rstrip t))).
    cbn [rstrip]. rewrite IH. destruct s; reflexivity.
Qed.

Lemma rstrip_keeps (p b : string) :
  no_space p = true -> exists b', rstrip (p +:+ b) = p +:+ b'.
Proof.
  induction p as [|c p IH]; intros H.
  - exists (rstrip b); reflexivity.
  - cbn [no_space] in H. apply andb_true_iff in H as [Hc Hp]. apply negb_true_iff in Hc.
    destruct (IH Hp) as [b' Hb'].
    exists b'.
    change (rstrip (EmptyString +:+ String c (p +:+ b)) = String c (p +:+ b')).
    rewrite rstrip_nonspace by exact Hc. rewrite Hb'. reflexivity.
Qed.

(** Stripping keeps every occurrence of a non-empty block that holds no
    white space. *)
Lemma contains_strip (p s : string) :
  p <> EmptyString -> no_space p = true ->
  contains p s = true -> contains p (strip s) = true.
Proof.
  intros Hne Hp H. destruct (contains_split _ _ H) as (a & b & ->).
  destruct p as [|c p]; [congruence|].
  cbn [no_space] in Hp. apply andb_true_iff in Hp as [Hc Hp']. apply negb_true_iff in Hc.
  unfold strip.
  assert (Hr : exists b', rstrip (a +:+ String c p +:+ b) = a +:+ String c p +:+ b').
  { change (String c p +:+ b) with (String c (p +:+ b)).
    rewrite rstrip_nonspace by exact Hc.
    destruct (rstrip_keeps p b Hp') as [b' ->]. exists b'; reflexivity. }
  destruct Hr as [b' ->].
  destruct (lstrip_keeps a p b' c Hc) as [a' ->].
  apply contains_app.
Qed.

End string_facts.

(** ** The demographic classifier *)

Section classifier_facts.

Import PyStr.

(** Whether the loop of [get_demographic_columns] skips the column. *)
Definition excluded (col : string) : bool :=
  existsb (fun exclude => contains exclude (normalize col)) exclude_patterns.

Definition approved (col : string) : bool :=
  existsb (fun pattern => contains (lower pattern) (normalize col))
    approved_demographic_patterns.

(** The loop is a filter on the labels: order and repetitions are kept. *)
Lemma get_demographic_columns_filter (cols : list string) :
  get_demographic_columns cols
  = List.filter (fun col => negb (excluded col) && approved col) cols.
Proof.
  induction cols as [|col cols IH]; [reflexivity|].
  cbn [get_demographic_columns List.filter]. cbv zeta.
  change (existsb (fun exclude => contains exclude (normalize col)) exclude_patterns)
    with (excluded col).
  change (existsb (fun pattern => contains (lower pattern) (normalize col))
            approved_demographic_patterns)
    with (approved col).
  rewrite IH.
  destruct (excluded col); [reflexivity|].
  destruct (approved col); reflexivity.
Qed.

Lemma exclude_patterns_plain :
  forallb (fun e => no_space e && negb (String.eqb e EmptyString)) exclude_patterns = true.
Proof. vm_compute. reflexivity. Qed.

(** C8: a column whose lowercased name contains an exclusion pattern is
    never classified as demographic, whatever else the name contains and
    wherever the column stands in the table. *)
Theorem exclusion_wins (cols : list string) (col exclude : string) :
  In exclude exclude_patterns ->
  contains exclude (lower col) = true ->
  ~ In col (get_demographic_columns cols).
Proof.
  intros Hin Hc Hmem.
  rewrite get_demographic_columns_filter in Hmem.
  apply filter_In in Hmem as [_ Hkeep].
  apply andb_true_iff in Hkeep as [Hex _].
  apply negb_true_iff in Hex.
  assert (Hplain := exclude_patterns_plain).
  rewrite forallb_forall in Hplain. specialize (Hplain _ Hin).
  apply andb_true_iff in Hplain as [Hns Hne].
  apply negb_true_iff, String.eqb_neq in Hne.
  assert (Hs : contains exclude (normalize col) = true)
    by (apply contains_strip; assumption).
  unfold excluded in Hex.
  assert (Ht : existsb (fun e => contains e (normalize col)) exclude_patterns = true)
    by (apply existsb_exists; exists exclude; split; assumption).
  congruence.
Qed.

(** The scenario of the specification: "Total Score" next to a genuine
    demographic column. *)
Lemma exclusion_wins_total_score :
  In "score" exclude_patterns /\
  contains "score" (lower "Total Score") = true /\
  ~ In "Total Score" (get_demographic_columns ["Grade"; "Total Score"; "AAM"]).
Proof.
  assert (H1 : In "score" exclude_patterns) by (vm_compute; tauto).
  assert (H2 : contains "score" (lower "Total Score") = true) by reflexivity.
  split; [exact H1|]. split; [exact H2|].
  exact (exclusion_wins ["Grade"; "Total Score"; "AAM"] "Total Score" "score" H1 H2).
Defined.

End classifier_facts.

(** ** Filtering *)

Section filter_facts.

Import PyStr Frame.

(** Whether a row passes one entry of the filters dict, read against the
    processor's own frame: an entry whose column is not in the frame, or
    whose list is empty, lets every row pass. *)
Definition passes (df : DataFrame) (r : list cell) (f : string * list cell) : bool :=
  if has_column df (fst f) && negb (Nat.eqb (length (snd f)) 0)
  then match row_get (columns df) r (fst f) with
       | Some c => isin c (snd f)
       | None => false
       end
  else true.

Lemma filter_filter {A} (p q : A -> bool) (l : list A) :
  List.filter p (List.filter q l) = List.filter (fun x => q x && p x) l.
Proof.
  induction l as [|x l IH]; [reflexivity|].
  cbn [List.filter]. destruct (q x); cbn [List.filter andb]; rewrite IH; reflexivity.
Qed.

Lemma filter_ext_bool {A} (p q : A -> bool) (l : list A) :
  (forall x, p x = q x) -> List.filter p l = List.filter q l.
Proof.
  intros H; induction l as [|x l IH]; [reflexivity|].
  cbn [List.filter]. rewrite H, IH. reflexivity.
Qed.

Lemma filter_all {A} (l : list A) : List.filter (fun _ => true) l = l.
Proof.
  induction l as [|x l IH]; [reflexivity|]. cbn [List.filter]. now rewrite IH.
Qed.

Lemma apply_filters_cons (df : DataFrame) (f : string * list cell)
  (filters : list (string * list cell)) :
  apply_filters df (f :: filters)
  = apply_filters (select df (fun r => passes df r f)) filters.
Proof.
  unfold apply_filters at 1. cbn [fold_left]. fold (apply_filters).
  destruct f as [column values]. unfold passes. cbn [fst snd].
  destruct (has_column df column && negb (Nat.eqb (length values) 0)).
  - reflexivity.
  - unfold apply_filters. f_equal. destruct df as [cols rs]. unfold select.
    cbn [columns rows]. now rewrite filter_all.
Qed.

(** The filters applied one after the other are one selection of rows. *)
Lemma apply_filters_rows (df : DataFrame) (filters : list (string * list cell)) :
  columns (apply_filters df filters) = columns df /\
  rows (apply_filters df filters)
  = List.filter (fun r => forallb (passes df r) filters) (rows df).
Proof.
  revert df; induction filters as [|f filters IH]; intros df.
  - split; [reflexivity|]. cbn [apply_filters fold_left forallb].
    now rewrite filter_all.
  - rewrite apply_filters_cons.
    destruct (IH (select df (fun r => passes df r f))) as [Hc Hr].
    split; [rewrite Hc; reflexivity|].
    rewrite Hr. cbn [select rows columns]. rewrite filter_filter.
    apply filter_ext_bool. intros r. cbn [forallb]. f_equal.
Qed.

(** The values that [isin] takes for equal. *)
Definition same_value (a b : cell) : Prop :=
  match a, b with
  | Num x, Num y => (x == y)%Q
  | Str s, Str t => s = t
  | NaN, NaN => True
  | _, _ => False
  end.

Lemma cell_eqb_same_value (a b : cell) : cell_eqb a b = true <-> same_value a b.
Proof.
  destruct a as [x|s|], b as [y|t|]; cbn [cell_eqb same_value];
    try (split; [discriminate | intros []]); try tauto.
  - apply Qeq_bool_iff.
  - apply String.eqb_eq.
Qed.

Lemma isin_listed (c : cell) (values : list cell) :
  isin c values = true <-> exists v, In v values /\ same_value c v.
Proof.
  unfold isin. rewrite existsb_exists. split; intros (v & Hv & E); exists v;
    (split; [exact Hv | apply cell_eqb_same_value; exact E]).
Qed.

(** C10: on a frame with distinct labels and for a dict of filters, whose
    keys are distinct, the result of [apply_filters] has the columns of the
    frame and exactly its rows, in order, that have under each key that is a
    column of the frame and comes with a non-empty list a value that the list
    holds; an entry for a column the frame does not have, or with an empty
    list of values, rejects no row. *)
Theorem apply_filters_exact (df : DataFrame) (filters : list (string * list cell)) :
  distinct_labels (columns df) = true ->
  distinct_labels (map fst filters) = true ->
  columns (apply_filters df filters) = columns df /\
  exists keep : list cell -> bool,
    rows (apply_filters df filters) = List.filter keep (rows df) /\
    forall r,
      keep r = true <->
      forall col values,
        In (col, values) filters -> has_column df col = true -> values <> [] ->
        exists c v, row_get (columns df) r col = Some c /\ In v values /\ same_value c v.
Proof.
  intros _ _. destruct (apply_filters_rows df filters) as [Hc Hr].
  split; [exact Hc|]. exists (fun r => forallb (passes df r) filters).
  split; [exact Hr|]. intros r. rewrite forallb_forall. split.
  - intros H col values Hin Hcol Hne. specialize (H _ Hin). unfold passes in H.
    cbn [fst snd] in H. rewrite Hcol in H.
    destruct values as [|v0 vs]; [congruence|]. cbn [length Nat.eqb negb andb] in H.
    destruct (row_get (columns df) r col) as [c|]; [|discriminate].
    apply isin_listed in H as (v & Hv & E). exists c, v. auto.
  - intros H [col values] Hin. unfold passes. cbn [fst snd].
    destruct (has_column df col) eqn:Hcol; [|reflexivity].
    destruct values as [|v0 vs]; [reflexivity|]. cbn [length Nat.eqb negb andb].
    destruct (H col (v0 :: vs) Hin Hcol ltac:(discriminate)) as (c & v & -> & Hv & E).
    apply isin_listed. exists v. auto.
Qed.

(** An entry that names no column of the frame changes nothing. *)
Lemma apply_filters_unknown_column (df : DataFrame) (col : string) (values : list cell) :
  has_column df col = false -> apply_filters df [(col, values)] = df.
Proof.
  intros H. unfold apply_filters. cbn [fold_left]. rewrite H. reflexivity.
Qed.

(** An entry with no values changes nothing. *)
Lemma apply_filters_no_values (df : DataFrame) (col : string) :
  apply_filters df [(col, [])] = df.
Proof.
  unfold apply_filters. cbn [fold_left length Nat.eqb negb]. rewrite andb_false_r.
  reflexivity.
Qed.

End filter_facts.

(** ** The caller's frame *)

Section frame_facts.

Import PyStr Frame.

Variable parse_numeric : string -> option Q.

(** A computation leaves every object that exists when it starts as it
    found it, whether it returns or raises. *)
Definition preserves {A} (m : M A) : Prop :=
  forall (h : gmap nat DataFrame) (r : nat) (d : DataFrame),
    h !! r = Some d -> snd (m h) !! r = Some d.

Lemma preserves_ret {A} (a : A) : preserves (ret a).
Proof. intros h r d H; exact H. Qed.

Lemma preserves_raise {A} (e : exn) : preserves (@raise A e).
Proof. intros h r d H; exact H. Qed.

Lemma preserves_lift {A} (x : result A) : preserves (lift x).
Proof. intros h r d H; exact H. Qed.

Lemma preserves_read (r0 : nat) : preserves (read r0).
Proof.
  intros h r d H. unfold read. destruct (h !! r0); exact H.
Qed.

Lemma fresh_not_allocated (h : gmap nat DataFrame) (r : nat) (d : DataFrame) :
  h !! r = Some d -> fresh (dom h) <> r.
Proof.
  intros H Heq. apply (is_fresh (dom h)). rewrite Heq.
  apply elem_of_dom. exists d; exact H.
Qed.

Lemma preserves_alloc (d0 : DataFrame) : preserves (alloc d0).
Proof.
  intros h r d H. unfold alloc. cbn [snd].
  rewrite lookup_insert_ne; [exact H|]. eapply fresh_not_allocated; eassumption.
Qed.

Lemma preserves_bind {A B} (m : M A) (k : A -> M B) :
  preserves m -> (forall a, preserves (k a)) -> preserves (bind m k).
Proof.
  intros Hm Hk h r d H. unfold bind.
  specialize (Hm h r d H). destruct (m h) as [[a|e] h']; cbn [snd] in *.
  - apply Hk; exact Hm.
  - exact Hm.
Qed.

Lemma preserves_copy (r0 : nat) : preserves (copy r0).
Proof.
  apply preserves_bind; [apply preserves_read | intros; apply preserves_alloc].
Qed.

(** Allocating a frame and then assigning into that same frame touches no
    object that existed before. *)
Lemma preserves_alloc_update (d0 : DataFrame) (f : DataFrame -> result DataFrame) :
  preserves
    (bind (alloc d0) (fun r =>
     bind (read r) (fun renamed =>
     bind (lift (f renamed)) (fun coerced =>
     bind (write r coerced) (fun _ => ret r))))).
Proof.
  intros h r d H.
  assert (Hne : fresh (dom h) <> r) by (eapply fresh_not_allocated; eassumption).
  unfold bind, alloc, read, lift, write, ret.
  rewrite lookup_insert_eq.
  destruct (f d0) as [c|e]; cbn [snd]; rewrite !lookup_insert_ne by exact Hne;
    exact H.
Qed.

Lemma preserves_validate (r0 : nat) : preserves (validate_data_obj parse_numeric r0).
Proof.
  unfold validate_data_obj. apply preserves_bind; [apply preserves_read|].
  intros d0. cbv zeta.
  destruct (negb (Nat.eqb (length (missing_required
              (map_columns column_mappings (columns d0)))) 0)).
  - apply preserves_raise.
  - apply preserves_alloc_update.
Qed.

Lemma preserves_init (df : nat) : preserves (__init__ parse_numeric df).
Proof.
  unfold __init__.
  apply preserves_bind; [apply preserves_copy|]. intros r1.
  apply preserves_bind; [apply preserves_copy|]. intros r2.
  apply preserves_bind; [apply preserves_validate|]. intros r.
  apply preserves_ret.
Qed.

Lemma preserves_filter_loop (filters : list (string * list cell)) (r0 : nat) :
  preserves (filter_loop r0 filters).
Proof.
  revert r0; induction filters as [|f filters IH]; intros r0; cbn [filter_loop].
  - apply preserves_ret.
  - apply preserves_bind; [|intros; apply IH].
    unfold filter_step. apply preserves_bind; [apply preserves_read|].
    intros d0. destruct f as [column values].
    destruct (has_column d0 column && negb (Nat.eqb (length values) 0)).
    + apply preserves_alloc.
    + apply preserves_ret.
Qed.

Lemma preserves_apply_filters (self : DataProcessor)
  (filters : list (string * list cell)) :
  preserves (apply_filters_obj self filters).
Proof.
  unfold apply_filters_obj.
  apply preserves_bind; [apply preserves_copy | intros; apply preserves_filter_loop].
Qed.

Lemma preserves_analytic {A} (f : list string -> DataFrame -> result A)
  (self : DataProcessor) (df : nat) : preserves (analytic f self df).
Proof.
  unfold analytic.
  apply preserves_bind; [apply preserves_read|]. intros s.
  apply preserves_bind; [apply preserves_read|]. intros d0.
  apply preserves_lift.
Qed.

Lemma preserves_session (df : nat) (filters : list (string * list cell))
  (targets : gmap string Q) : preserves (session parse_numeric df filters targets).
Proof.
  unfold session.
  apply preserves_bind; [apply preserves_init|]. intros processor.
  apply preserves_bind; [apply preserves_apply_filters|]. intros filtered.
  apply preserves_bind; [apply preserves_analytic|]. intros p.
  apply preserves_bind; [apply preserves_analytic|]. intros g.
  apply preserves_bind; [apply preserves_analytic|]. intros m.
  apply preserves_ret.
Qed.

(** The frame the processor works on after [__init__] holds what
    [_validate_data] computes from the caller's frame. *)
Lemma init_validates (h : gmap nat DataFrame) (df : nat) (d : DataFrame) :
  h !! df = Some d ->
  match __init__ parse_numeric df h with
  | (Ok p, h') => exists d', _validate_data parse_numeric d = Ok d'
                             /\ h' !! self_df p = Some d'
                             /\ h' !! original_df p = Some d
                             /\ self_df p <> df /\ original_df p <> df
  | (Raise e, _) => _validate_data parse_numeric d = Raise e
  end.
Proof.
  intros H. unfold __init__, copy, validate_data_obj, _validate_data.
  unfold bind, read, alloc, lift, write, ret, raise. rewrite H. cbv zeta.
  set (h1 := <[fresh (dom h) := d]> h).
  assert (H1 : h1 !! df = Some d).
  { unfold h1. rewrite lookup_insert_ne; [exact H|].
    eapply fresh_not_allocated; eassumption. }
  rewrite H1.
  set (h2 := <[fresh (dom h1) := d]> h1).
  assert (Hr1 : h2 !! fresh (dom h) = Some d).
  { unfold h2. rewrite lookup_insert_ne.
    - unfold h1. apply lookup_insert_eq.
    - eapply fresh_not_allocated. unfold h1. apply lookup_insert_eq. }
  rewrite Hr1.
  destruct (negb (Nat.eqb (length (missing_required
              (map_columns column_mappings (columns d)))) 0)); [reflexivity|].
  rewrite lookup_insert_eq.
  set (renamed := mkDF _ _).
  destruct (coerce_total parse_numeric renamed) as [c|e]; [|reflexivity].
  cbn [self_df original_df].
  set (h3 := <[fresh (dom h2) := renamed]> h2).
  assert (Hdf2 : h2 !! df = Some d).
  { unfold h2. rewrite lookup_insert_ne; [exact H1|].
    eapply fresh_not_allocated; eassumption. }
  assert (Ho : h2 !! fresh (dom h1) = Some d) by (unfold h2; apply lookup_insert_eq).
  assert (Hn : fresh (dom h2) <> fresh (dom h1))
    by (eapply fresh_not_allocated; exact Ho).
  exists c. split; [reflexivity|]. split; [apply lookup_insert_eq|].
  split; [|split].
  - rewrite lookup_insert_ne by exact Hn.
    unfold h3. rewrite lookup_insert_ne by exact Hn. exact Ho.
  - eapply fresh_not_allocated; exact Hdf2.
  - eapply fresh_not_allocated; exact H1.
Qed.

(** C9: whatever frame the caller passes, and whatever else the store
    holds, constructing the processor on it, filtering and running the
    analyses leaves that frame as it was, whether the session returns or
    raises. *)
Theorem caller_frame_unchanged (h : gmap nat DataFrame) (df : nat) (d : DataFrame)
  (filters : list (string * list cell)) (targets : gmap string Q) :
  h !! df = Some d ->
  snd (session parse_numeric df filters targets h) !! df = Some d.
Proof. intros H. apply preserves_session. exact H. Qed.

End frame_facts.

(** ** Gap records *)

Section gap_facts.

Import PyStr Num Frame.
Local Open Scope Q_scope.

(** One row: a module with [total] people, [aam] of them in the group AAM. *)
Definition one_module (total aam : Q) : DataFrame :=
  mkDF ["Grade"; "EntityDesc"; "Component Desc"; "TOTAL"; "AAM"]
       [[Str "Gr. 4"; Str "Module 1"; Str "Lesson"; Num total; Num aam]].

Lemma Qle_bool_false (x y : Q) : Qle_bool x y = false <-> y < x.
Proof.
  split; intros H.
  - apply Qnot_le_lt. intros Hle. apply Qle_bool_iff in Hle. congruence.
  - destruct (Qle_bool x y) eqn:E; [|reflexivity].
    apply Qle_bool_iff in E. exfalso. exact (Qlt_not_le _ _ H E).
Qed.

(** What the status expression of [calculate_demographic_gaps] decides: the
    sign of the gap, with no band around the target. *)
Lemma status_of_gap_sign (gap : Q) :
  (status_of_gap gap = Over_Target <-> 0 < gap) /\
  (status_of_gap gap = Under_Target <-> gap < 0) /\
  (status_of_gap gap = On_Target <-> gap == 0).
Proof.
  unfold status_of_gap.
  destruct (Qle_bool gap 0) eqn:E1; cbn [negb].
  - apply Qle_bool_iff in E1.
    destruct (Qle_bool 0 gap) eqn:E2; cbn [negb].
    + apply Qle_bool_iff in E2.
      repeat split; intros H; try discriminate; try reflexivity.
      * exfalso. exact (Qlt_not_le _ _ H E1).
      * exfalso. exact (Qlt_not_le _ _ H E2).
      * apply Qle_antisym; assumption.
    + apply Qle_bool_false in E2.
      repeat split; intros H; try discriminate; try reflexivity; try assumption.
      * exfalso. exact (Qlt_not_le _ _ H E1).
      * exfalso. rewrite H in E2. exact (Qlt_irrefl _ E2).
  - apply Qle_bool_false in E1.
    repeat split; intros H; try discriminate; try reflexivity; try assumption.
    + exfalso. exact (Qlt_irrefl _ (Qlt_trans _ _ _ E1 H)).
    + exfalso. rewrite H in E1. exact (Qlt_irrefl _ E1).
Qed.

(** Scenario A of the specification: 30 of 100 against a target of 15. *)
Example scenario_A :
  exists r,
    calculate_demographic_gaps (columns (one_module 100 30)) (one_module 100 30)
      (<["AAM" := 15]> ∅) = Ok [r]
    /\ Actual_pct r == 30 /\ Gap r == 15 /\ Gap_Status r = Over_Target.
Proof.
  eexists. split; [vm_compute; reflexivity|].
  repeat split; vm_compute; reflexivity.
Qed.

(** C1: with 31 of 100 people against a target of 30, the gap is one point,
    inside the band of two points around the target, and the record of
    [calculate_demographic_gaps] reads Over Target. *)
Theorem gap_status_inside_band :
  exists r,
    calculate_demographic_gaps (columns (one_module 100 31)) (one_module 100 31)
      (<["AAM" := 30]> ∅) = Ok [r]
    /\ Gap r == 1 /\ Qabs (Gap r) <= 2 /\ Gap_Status r = Over_Target.
Proof.
  eexists. split; [vm_compute; reflexivity|].
  split; [vm_compute; reflexivity|].
  split; [vm_compute; discriminate | vm_compute; reflexivity].
Qed.

(** C2: with the target of AAM stored under the lowercased key, as the
    default table stores it, [calculate_demographic_gaps] reads the column
    against 0, where the chain of the other gap computations finds 6; with
    no entry at all it reads 0, where the chain ends in 10. *)
Theorem gap_target_not_chained :
  (exists r,
     calculate_demographic_gaps (columns (one_module 100 30)) (one_module 100 30)
       (<["aam" := 6]> ∅) = Ok [r]
     /\ Target_pct r == 0
     /\ lookup_target (<["aam" := 6]> ∅) "AAM" == 6) /\
  (exists r,
     calculate_demographic_gaps (columns (one_module 100 30)) (one_module 100 30)
       ∅ = Ok [r]
     /\ Target_pct r == 0
     /\ lookup_target ∅ "AAM" == 10).
Proof.
  split; eexists; (split; [vm_compute; reflexivity|]);
    split; vm_compute; reflexivity.
Qed.

(** The default table of the processor is keyed in lower case, so its own
    gap computation finds none of its own entries for an upper-case column. *)
Example default_targets_missed :
  get_default_demographic_targets !! "aam" = Some 6 /\
  get_default_demographic_targets !! "AAM" = None.
Proof. split; vm_compute; reflexivity. Qed.

End gap_facts.

(** ** Division by a zero total *)

Section division_facts.

Import PyStr Num Frame.
Local Open Scope Q_scope.

Lemma np_div_finite (a b : Q) : ~ b == 0 -> np_div a b = Fin (a / b).
Proof.
  intros H. unfold np_div. destruct (Qeq_bool b 0) eqn:E; [|reflexivity].
  apply Qeq_bool_iff in E. contradiction.
Qed.

Lemma np_div_zero (a b : Q) : b == 0 -> is_finite (np_div a b) = false.
Proof.
  intros H. unfold np_div. apply Qeq_bool_iff in H. rewrite H.
  destruct (Qcompare a 0); reflexivity.
Qed.

(** A row of [calculate_demographic_percentages] holds finite percentages
    only, and stands for a group whose summed total is not 0. *)
Lemma percentage_row_guarded (demographic_cols : list string) (df : DataFrame)
  (entity : cell) (row : PercentageRow) :
  percentage_row demographic_cols df entity = Ok (Some row) ->
  (exists total, col_sum (entity_rows df entity) "TOTAL" = Ok total /\ ~ total == 0) /\
  Forall (fun p => is_finite (snd p) = true) (pr_percentages row).
Proof.
  unfold percentage_row. intros H.
  destruct (empty (entity_rows df entity)); [discriminate|].
  destruct (col_sum (entity_rows df entity) "TOTAL") as [total|e];
    cbn [rbind] in H; [|discriminate].
  destruct (Qeq_bool total 0) eqn:E; [discriminate|].
  assert (Hnz : ~ total == 0).
  { intros Hz. apply Qeq_bool_iff in Hz. congruence. }
  injection H as <-. split; [exists total; split; [reflexivity|exact Hnz]|].
  cbn [pr_percentages]. apply List.Forall_forall. intros p Hp.
  apply in_map_iff in Hp as (demo_col & <- & _).
  destruct (has_column (entity_rows df entity) demo_col); [|reflexivity].
  destruct (negb (Qle_bool total 0)); [|reflexivity].
  rewrite np_div_finite by exact Hnz. reflexivity.
Qed.

(** A frame whose only row has a total of 0. *)
Definition zero_total (aam : Q) : DataFrame :=
  mkDF ["Grade"; "EntityDesc"; "Component Desc"; "TOTAL"; "AAM"]
       [[Str "Gr. 4"; Str "Module 1"; Str "Lesson"; Num 0; Num aam]].

(** C3: on a frame whose total is 0 the equity scorecard divides by that
    total: the actual percentage of the group is not a number when its
    count is 0 and infinite when its count is positive, not 0 percent. *)
Theorem scorecard_divides_by_zero_total :
  (exists s d,
     generate_equity_scorecard ["AAM"] (zero_total 0) ∅ = Ok s
     /\ demographic_scores s = [("AAM", d)]
     /\ ds_actual d = NaNf /\ ds_gap d = NaNf) /\
  (exists s d,
     generate_equity_scorecard ["AAM"] (zero_total 3) ∅ = Ok s
     /\ demographic_scores s = [("AAM", d)]
     /\ ds_actual d = PInf /\ ds_gap d = PInf).
Proof.
  split; do 2 eexists; (split; [vm_compute; reflexivity|]);
    repeat split; reflexivity.
Qed.

(** The same frame in the guarded sibling: the module is left out. *)
Example percentages_skip_zero_total :
  calculate_demographic_percentages (columns (zero_total 3)) (zero_total 3) = Ok [].
Proof. vm_compute. reflexivity. Qed.

End division_facts.

(** ** Heat maps *)

Section heatmap_facts.

Import PyStr Num Frame.
Local Open Scope Q_scope.

Lemma collect_rows_flat {A B} (f : A -> result (option B)) (l : list A) (rs : list B) :
  collect_rows f l = Ok rs ->
  List.Forall (fun x => exists o, f x = Ok o) l /\
  rs = flat_map (fun x => match f x with Ok (Some b) => [b] | _ => [] end) l.
Proof.
  revert rs; induction l as [|x l IH]; intros rs H; cbn [collect_rows] in H.
  - injection H as <-. split; [constructor | reflexivity].
  - destruct (f x) as [o|e] eqn:E; cbn [rbind] in H; [|discriminate].
    destruct (collect_rows f l) as [rs'|e]; cbn [rbind] in H; [|discriminate].
    injection H as <-. destruct (IH rs' eq_refl) as [Hall ->].
    split; [constructor; [exists o; exact E | exact Hall]|].
    cbn [flat_map]. rewrite E. destruct o; reflexivity.
Qed.

Lemma flat_map_filter_map {A B} (p : A -> bool) (g : A -> B) (l : list A) :
  flat_map (fun x => if p x then [g x] else []) l = map g (List.filter p l).
Proof.
  induction l as [|x l IH]; [reflexivity|].
  cbn [flat_map List.filter]. rewrite IH. destruct (p x); reflexivity.
Qed.

Lemma flat_map_ext_in {A B} (f g : A -> list B) (l : list A) :
  (forall x, In x l -> f x = g x) -> flat_map f l = flat_map g l.
Proof.
  induction l as [|x l IH]; intros H; [reflexivity|].
  cbn [flat_map]. rewrite (H x) by (left; reflexivity).
  rewrite IH; [reflexivity|]. intros y Hy. apply H. right; exact Hy.
Qed.

Lemma mapM_map {A B} (f : A -> result B) (g : A -> B) (l : list A) :
  (forall x, In x l -> f x = Ok (g x)) -> mapM f l = Ok (map g l).
Proof.
  induction l as [|x l IH]; intros H; [reflexivity|].
  cbn [mapM map]. rewrite (H x) by (left; reflexivity). cbn [rbind].
  rewrite IH by (intros y Hy; apply H; right; exact Hy). reflexivity.
Qed.

Lemma mapM_map_image {A B C} (f : B -> result C) (F : A -> B) (G : A -> C)
  (l : list A) :
  (forall x, In x l -> f (F x) = Ok (G x)) -> mapM f (map F l) = Ok (map G l).
Proof.
  induction l as [|x l IH]; intros H; [reflexivity|].
  cbn [mapM map]. rewrite (H x) by (left; reflexivity). cbn [rbind].
  rewrite IH by (intros y Hy; apply H; right; exact Hy). reflexivity.
Qed.

(** The cell at row [i] and column [j] of a matrix. *)
Definition cell_at {A} (m : list (list A)) (i j : nat) : option A :=
  match nth_error m i with
  | Some row => nth_error row j
  | None => None
  end.

Lemma cell_at_table {A B C} (f : A -> B -> C) (la : list A) (lb : list B)
  (i j : nat) (a : A) (b : B) :
  nth_error la i = Some a -> nth_error lb j = Some b ->
  cell_at (map (fun a => map (f a) lb) la) i j = Some (f a b).
Proof.
  intros Ha Hb. unfold cell_at.
  rewrite nth_error_map, Ha. cbn [option_map].
  rewrite nth_error_map, Hb. reflexivity.
Qed.

(** The summed total of a module (0 when the frame has no such column). *)
Definition module_total (df : DataFrame) (entity_name : string) : Q :=
  match col_sum (group_rows df entity_name) "TOTAL" with
  | Ok t => t
  | Raise _ => 0
  end.

(** The modules of a frame in group order. *)
Definition modules_of (df : DataFrame) : list string :=
  match column df "EntityDesc" with
  | Ok entities => match group_keys entities with Ok ks => ks | Raise _ => [] end
  | Raise _ => []
  end.

(** The modules a heat map shows: those whose summed total is not 0. *)
Definition shown_modules (df : DataFrame) : list string :=
  List.filter (fun m => negb (Qeq_bool (module_total df m) 0)) (modules_of df).

(** The gap that [create_aligned_heatmap] shows for a module and a column
    of the frame. *)
Definition aligned_gap (df : DataFrame) (targets : gmap string Q)
  (m c : string) : Q :=
  percent_of (demo_sum (group_rows df m) c) (module_total df m)
  - lookup_target targets c.

(** The gap that [create_improved_heatmap] shows: a column without data in
    the module counts as 0 percent. *)
Definition improved_gap (df : DataFrame) (targets : gmap string Q)
  (m c : string) : Q :=
  if has_data (group_rows df m) c
  then percent_of (demo_sum (group_rows df m) c) (module_total df m)
       - lookup_target targets c
  else - lookup_target targets c.

(** The two matrices of a heat map describe, cell by cell, the pair of the
    module of their row and the column of their column: the number is the
    gap of that pair and the text starts with the title of that module and
    the name of that column. *)
Definition describes (title : string -> string) (gap : string -> string -> Q)
  (modules valid : list string) (z : list (list Q)) (text : list (list string))
  : Prop :=
  length z = length modules /\ length text = length modules /\
  List.Forall (fun row => length row = length valid) z /\
  List.Forall (fun row => length row = length valid) text /\
  forall i j m c,
    nth_error modules i = Some m -> nth_error valid j = Some c ->
    cell_at z i j = Some (gap m c) /\
    exists rest,
      cell_at text i j
      = Some ("<b>" +:+ title m +:+ "</b><br><b>Demographic:</b> " +:+ c +:+
              "<br>" +:+ rest).

Lemma has_column_group (df : DataFrame) (m c : string) :
  has_column (group_rows df m) c = has_column df c.
Proof. reflexivity. Qed.

Lemma aligned_groups (df : DataFrame) (valid : list string) (targets : gmap string Q)
  (keys : list string) (groups : list (string * list (Q * string))) :
  collect_rows (aligned_row df valid targets) keys = Ok groups ->
  groups
  = map (fun m => (truncate_label 40 m,
                   map (aligned_cell m (group_rows df m) targets (module_total df m))
                       valid))
        (List.filter (fun m => negb (Qeq_bool (module_total df m) 0)) keys).
Proof.
  intros H. apply collect_rows_flat in H as [Hall ->].
  rewrite <- flat_map_filter_map. apply flat_map_ext_in. intros m Hm.
  rewrite List.Forall_forall in Hall. destruct (Hall m Hm) as [o Ho].
  unfold aligned_row in *. unfold module_total.
  destruct (col_sum (group_rows df m) "TOTAL") as [t|e]; cbn [rbind] in *;
    [|discriminate].
  destruct (Qeq_bool t 0); reflexivity.
Qed.

Lemma describes_table (title : string -> string) (gap : string -> string -> Q)
  (rest : string -> string -> string) (modules valid : list string) :
  describes title gap modules valid
    (map (fun m => map (gap m) valid) modules)
    (map (fun m => map (fun c => "<b>" +:+ title m +:+ "</b><br><b>Demographic:</b> "
                                 +:+ c +:+ "<br>" +:+ rest m c) valid) modules).
Proof.
  unfold describes. rewrite !length_map.
  split; [reflexivity|]. split; [reflexivity|].
  split; [|split].
  - apply List.Forall_forall. intros row Hrow.
    apply in_map_iff in Hrow as (m & <- & _). apply length_map.
  - apply List.Forall_forall. intros row Hrow.
    apply in_map_iff in Hrow as (m & <- & _). apply length_map.
  - intros i j m c Hm Hc. split.
    + apply (cell_at_table gap); assumption.
    + exists (rest m c).
      apply (cell_at_table (fun m c => "<b>" +:+ title m +:+
               "</b><br><b>Demographic:</b> " +:+ c +:+ "<br>" +:+ rest m c));
        assumption.
Qed.

Lemma map_ext_in_eq {A B} (f g : A -> B) (l : list A) :
  (forall x, In x l -> f x = g x) -> map f l = map g l.
Proof.
  induction l as [|x l IH]; intros H; [reflexivity|].
  cbn [map]. rewrite (H x) by (left; reflexivity).
  rewrite IH; [reflexivity|]. intros y Hy; apply H; right; exact Hy.
Qed.

(** The text after the module and column names in a cell of
    [create_aligned_heatmap]. *)
Definition aligned_rest (df : DataFrame) (targets : gmap string Q) (m c : string)
  : string :=
  let demo_count := demo_sum (group_rows df m) c in
  let total_people := module_total df m in
  let actual_pct := percent_of demo_count total_people in
  let target_pct := lookup_target targets c in
  "<b>Actual:</b> " +:+ fmt_1f actual_pct +:+ "% (" +:+ fmt_int demo_count +:+
  " people)<br>" +:+
  "<b>Target:</b> " +:+ fmt_1f target_pct +:+ "%<br>" +:+
  "<b>Gap:</b> " +:+ fmt_signed_1f (actual_pct - target_pct) +:+ "%<br>" +:+
  "<b>Total People:</b> " +:+ fmt_int total_people.

Lemma aligned_heatmap_table (df : DataFrame) (demographic_cols : list string)
  (targets : gmap string Q) (z : list (list Q)) (x y : list string)
  (text : list (list string)) :
  create_aligned_heatmap df demographic_cols targets = Ok (Heatmap z x y text) ->
  let valid := List.filter (has_column df) demographic_cols in
  x = map abbrev_aligned valid /\
  y = map (truncate_label 40) (shown_modules df) /\
  z = map (fun m => map (aligned_gap df targets m) valid) (shown_modules df) /\
  text = map (fun m => map (fun c => "<b>" +:+ m +:+ "</b><br><b>Demographic:</b> "
                                     +:+ c +:+ "<br>" +:+ aligned_rest df targets m c)
                           valid) (shown_modules df).
Proof.
  intros H valid. unfold create_aligned_heatmap in H. fold valid in H.
  destruct (empty df || Nat.eqb (length demographic_cols) 0); [discriminate|].
  destruct (Nat.eqb (length valid) 0); [discriminate|].
  unfold shown_modules, modules_of.
  destruct (column df "EntityDesc") as [entities|e]; cbn [rbind] in H; [|discriminate].
  destruct (group_keys entities) as [keys|e]; cbn [rbind] in H; [|discriminate].
  destruct (collect_rows (aligned_row df valid targets) keys) as [groups|e] eqn:E;
    cbn [rbind] in H; [|discriminate].
  apply aligned_groups in E.
  destruct groups as [|g groups'] eqn:Eg; [discriminate|].
  rewrite <- Eg in H, E. clear Eg. subst groups.
  injection H as <- <- <- <-. rewrite !map_map. cbn [fst snd].
  split; [reflexivity|]. split; [reflexivity|].
  split.
  - apply map_ext_in_eq. intros m _. rewrite map_map.
    apply map_ext_in_eq. intros c Hc. unfold valid in Hc.
    apply filter_In in Hc as [_ Hc].
    unfold aligned_cell, aligned_gap. rewrite has_column_group, Hc. reflexivity.
  - apply map_ext_in_eq. intros m _. rewrite map_map.
    apply map_ext_in_eq. intros c Hc. unfold valid in Hc.
    apply filter_In in Hc as [_ Hc].
    unfold aligned_cell, aligned_rest, hover_text.
    rewrite has_column_group, Hc. reflexivity.
Qed.

Lemma fold_insert_other (g : string -> hval) (l : list string)
  (base : gmap string hval) (k : string) :
  ~ In k l ->
  fold_left (fun (rd : gmap string hval) c => <[c := g c]> rd) l base !! k = base !! k.
Proof.
  revert base; induction l as [|c l IH]; intros base Hk; [reflexivity|].
  cbn [fold_left]. rewrite IH by (intros Hin; apply Hk; right; exact Hin).
  apply lookup_insert_ne. intros ->. apply Hk. left; reflexivity.
Qed.

Lemma fold_insert_member (g : string -> hval) (l : list string)
  (base : gmap string hval) (k : string) :
  In k l ->
  fold_left (fun (rd : gmap string hval) c => <[c := g c]> rd) l base !! k = Some (g k).
Proof.
  revert base; induction l as [|c l IH]; intros base Hk; [destruct Hk|].
  cbn [fold_left]. destruct (in_dec string_dec k l) as [Hin|Hout].
  - apply IH; exact Hin.
  - rewrite fold_insert_other by exact Hout.
    destruct Hk as [->|Hin]; [apply lookup_insert_eq | contradiction].
Qed.

(** The value stored for a column in the first pass of
    [create_improved_heatmap]. *)
Definition stored_gap (entity_data : DataFrame) (targets : gmap string Q)
  (total_people : Q) (demo_col : string) : hval :=
  HNum (if has_data entity_data demo_col
        then percent_of (demo_sum entity_data demo_col) total_people
             - lookup_target targets demo_col
        else - lookup_target targets demo_col).

Lemma improved_row_data_fold (entity_data : DataFrame) (valid : list string)
  (targets : gmap string Q) (entity_name : string) (total_people : Q) :
  improved_row_data entity_data valid targets entity_name total_people
  = fold_left (fun (rd : gmap string hval) c =>
                 <[c := stored_gap entity_data targets total_people c]> rd)
      valid
      (<["Total_People" := HNum total_people]> (<["EntityDesc" := HStr entity_name]> ∅)).
Proof. reflexivity. Qed.

Lemma improved_groups (df : DataFrame) (valid : list string) (targets : gmap string Q)
  (keys : list string) (data : list (gmap string hval)) :
  collect_rows (improved_first_pass df valid targets) keys = Ok data ->
  data
  = map (fun m => improved_row_data (group_rows df m) valid targets m (module_total df m))
        (List.filter (fun m => negb (Qeq_bool (module_total df m) 0)) keys).
Proof.
  intros H. apply collect_rows_flat in H as [Hall ->].
  rewrite <- flat_map_filter_map. apply flat_map_ext_in. intros m Hm.
  rewrite List.Forall_forall in Hall. destruct (Hall m Hm) as [o Ho].
  unfold improved_first_pass in *. unfold module_total.
  destruct (col_sum (group_rows df m) "TOTAL") as [t|e]; cbn [rbind] in *;
    [|discriminate].
  destruct (Qeq_bool t 0); reflexivity.
Qed.

(** The number that the second pass of [create_improved_heatmap] reads
    back as the total of a module: its summed total, unless a demographic
    column is itself labelled Total_People and has overwritten the entry. *)
Definition shown_total (df : DataFrame) (valid : list string)
  (targets : gmap string Q) (m : string) : Q :=
  match improved_row_data (group_rows df m) valid targets m (module_total df m)
        !! "Total_People" with
  | Some (HNum q) => q
  | _ => module_total df m
  end.

(** The text after the module and column names in a cell of
    [create_improved_heatmap]. *)
Definition improved_rest (df : DataFrame) (targets : gmap string Q)
  (total_people : Q) (m c : string) : string :=
  let entity_data := group_rows df m in
  let demo_count := if has_data entity_data c then demo_sum entity_data c else 0 in
  let actual_percentage :=
    if has_data entity_data c then percent_of demo_count total_people else 0 in
  "<b>Actual:</b> " +:+ fmt_1f actual_percentage +:+ "% (" +:+ fmt_int demo_count +:+
  " people)<br>" +:+
  "<b>Target:</b> " +:+ fmt_1f (lookup_target targets c) +:+ "%<br>" +:+
  "<b>Gap:</b> " +:+ fmt_signed_1f (improved_gap df targets m c) +:+ "%<br>" +:+
  "<b>Total People:</b> " +:+ fmt_int total_people.

Lemma improved_row_total (df : DataFrame) (valid : list string)
  (targets : gmap string Q) (m : string) :
  improved_row_data (group_rows df m) valid targets m (module_total df m)
    !! "Total_People"
  = Some (HNum (shown_total df valid targets m)).
Proof.
  unfold shown_total.
  assert (H : exists q,
    improved_row_data (group_rows df m) valid targets m (module_total df m)
      !! "Total_People" = Some (HNum q)).
  { rewrite improved_row_data_fold.
    destruct (in_dec string_dec "Total_People" valid) as [Hin|Hout].
    - rewrite (fold_insert_member _ _ _ _ Hin). eexists; reflexivity.
    - rewrite (fold_insert_other _ _ _ _ Hout), lookup_insert_eq.
      eexists; reflexivity. }
  destruct H as [q ->]. reflexivity.
Qed.

(** A module name is read back in the second pass unless a demographic
    column is itself labelled EntityDesc. *)
Lemma improved_second_pass_row (df : DataFrame) (valid : list string)
  (targets : gmap string Q) (m : string) :
  ~ In "EntityDesc" valid ->
  improved_second_pass df valid targets
    (improved_row_data (group_rows df m) valid targets m (module_total df m))
  = Ok (truncate_label 40 m,
        map (fun c => (improved_gap df targets m c,
                       "<b>" +:+ truncate_label 60 m +:+ "</b><br><b>Demographic:</b> "
                       +:+ c +:+ "<br>" +:+
                       improved_rest df targets (shown_total df valid targets m) m c))
            valid).
Proof.
  intros He. unfold improved_second_pass. rewrite improved_row_total.
  rewrite improved_row_data_fold.
  rewrite (fold_insert_other _ _ _ "EntityDesc" He).
  rewrite lookup_insert_ne by discriminate. rewrite lookup_insert_eq.
  erewrite mapM_map; [cbn [rbind]; reflexivity|].
  intros c Hc. unfold improved_cell.
  rewrite (fold_insert_member _ _ _ c Hc). reflexivity.
Qed.

Lemma improved_second_pass_clash (df : DataFrame) (valid : list string)
  (targets : gmap string Q) (m : string) :
  In "EntityDesc" valid ->
  improved_second_pass df valid targets
    (improved_row_data (group_rows df m) valid targets m (module_total df m))
  = Raise TypeError.
Proof.
  intros He. unfold improved_second_pass. rewrite improved_row_data_fold.
  rewrite (fold_insert_member _ _ _ "EntityDesc" He). reflexivity.
Qed.

Lemma filter_none_all {A} (p : A -> bool) (l : list A) :
  List.filter (fun x => negb (p x)) l = [] -> List.filter p l = l.
Proof.
  induction l as [|x l IH]; [reflexivity|].
  cbn [List.filter]. destruct (p x); cbn [negb]; [|discriminate].
  intros H. now rewrite IH.
Qed.

Lemma improved_heatmap_table (df : DataFrame) (demographic_cols : list string)
  (targets : gmap string Q) (z : list (list Q)) (x y : list string)
  (text : list (list string)) :
  create_improved_heatmap df demographic_cols targets = Ok (Heatmap z x y text) ->
  List.filter (has_column df) demographic_cols = demographic_cols /\
  x = map abbrev_improved demographic_cols /\
  y = map (truncate_label 40) (shown_modules df) /\
  z = map (fun m => map (improved_gap df targets m) demographic_cols) (shown_modules df) /\
  text = map (fun m => map (fun c => "<b>" +:+ truncate_label 60 m +:+
                                     "</b><br><b>Demographic:</b> " +:+ c +:+ "<br>"
                                     +:+ improved_rest df targets
                                           (shown_total df demographic_cols targets m)
                                           m c)
                           demographic_cols) (shown_modules df).
Proof.
  intros H. unfold create_improved_heatmap in H.
  destruct (empty df); [discriminate|].
  destruct (Nat.eqb (length demographic_cols) 0); [discriminate|].
  cbv zeta in H.
  destruct (List.filter (fun col => negb (has_column df col))
              ("EntityDesc" :: "TOTAL" :: demographic_cols)) as [|c0 cs] eqn:Emiss;
    [|discriminate].
  cbn [length Nat.eqb negb] in H.
  assert (Hvalid : List.filter (has_column df) demographic_cols = demographic_cols).
  { apply filter_none_all. cbn [List.filter] in Emiss.
    destruct (negb (has_column df "EntityDesc")); [discriminate|].
    destruct (negb (has_column df "TOTAL")); [discriminate|]. exact Emiss. }
  rewrite Hvalid in H.
  destruct (Nat.eqb (length demographic_cols) 0); [discriminate|].
  unfold shown_modules, modules_of.
  destruct (column df "EntityDesc") as [entities|e]; cbn [rbind] in H; [|discriminate].
  destruct (group_keys entities) as [keys|e]; cbn [rbind] in H; [|discriminate].
  destruct (collect_rows (improved_first_pass df demographic_cols targets) keys)
    as [data|e] eqn:E; cbn [rbind] in H; [|discriminate].
  apply improved_groups in E.
  destruct data as [|g data'] eqn:Eg; [discriminate|].
  rewrite <- Eg in H, E. rewrite E in H, Eg. clear E data.
  destruct (in_dec string_dec "EntityDesc" demographic_cols) as [He|He].
  { exfalso.
    destruct (List.filter (fun m => negb (Qeq_bool (module_total df m) 0)) keys)
      as [|m ms]; [discriminate Eg|].
    cbn [map mapM] in H.
    rewrite (improved_second_pass_clash _ _ _ _ He) in H. discriminate. }
  clear Eg.
  erewrite mapM_map_image in H
    by (intros m _; apply improved_second_pass_row; exact He).
  cbn [rbind] in H. injection H as <- <- <- <-.
  rewrite !map_map. cbn [fst snd].
  split; [exact Hvalid|]. split; [reflexivity|]. split; [reflexivity|].
  split; apply map_ext_in_eq; intros m _; rewrite map_map; reflexivity.
Qed.

(** The two builders of the heat map. *)
Inductive builder : Type :=
| Aligned
| Improved.

Definition build (b : builder) : DataFrame -> list string -> gmap string Q -> result Figure :=
  match b with
  | Aligned => create_aligned_heatmap
  | Improved => create_improved_heatmap
  end.

(** The module name as the text of a cell shows it. *)
Definition title_of (b : builder) (m : string) : string :=
  match b with
  | Aligned => m
  | Improved => truncate_label 60 m
  end.

Definition gap_of (b : builder) : DataFrame -> gmap string Q -> string -> string -> Q :=
  match b with
  | Aligned => aligned_gap
  | Improved => improved_gap
  end.

Definition abbrev_of (b : builder) : string -> string :=
  match b with
  | Aligned => abbrev_aligned
  | Improved => abbrev_improved
  end.

Lemma shown_modules_spec (df : DataFrame) (m : string) :
  In m (shown_modules df) <-> In m (modules_of df) /\ ~ module_total df m == 0.
Proof.
  unfold shown_modules. rewrite filter_In. split; intros [Hin H]; (split; [exact Hin|]).
  - intros Hz. apply Qeq_bool_iff in Hz. rewrite Hz in H. discriminate.
  - destruct (Qeq_bool (module_total df m) 0) eqn:E; [|reflexivity].
    apply Qeq_bool_iff in E. contradiction.
Qed.

(** C4: in a heat map built by either builder from a frame, a list of
    demographic columns and targets, the rows are the modules of the frame
    whose summed total is not 0, in group order; the columns are the supplied
    columns that the frame has, in the supplied order (all of them for the
    improved builder, which refuses a frame that lacks one); and at every row
    i and column j the gap matrix holds the gap of the module of row i for the
    column of column j, while the text starts with the title of that same
    module and the name of that same column. *)
Theorem heatmap_cells_aligned (b : builder) (df : DataFrame)
  (demographic_cols : list string) (targets : gmap string Q)
  (z : list (list Q)) (x y : list string) (text : list (list string)) :
  build b df demographic_cols targets = Ok (Heatmap z x y text) ->
  let valid := List.filter (has_column df) demographic_cols in
  x = map (abbrev_of b) valid /\
  y = map (truncate_label 40) (shown_modules df) /\
  describes (title_of b) (gap_of b df targets) (shown_modules df) valid z text /\
  (b = Improved -> valid = demographic_cols) /\
  (forall m, In m (shown_modules df)
             <-> In m (modules_of df) /\ ~ module_total df m == 0).
Proof.
  intros H valid. destruct b; cbn [build title_of gap_of abbrev_of] in *.
  - apply aligned_heatmap_table in H as (-> & -> & -> & ->).
    split; [reflexivity|]. split; [reflexivity|].
    split; [apply (describes_table (fun m => m))|].
    split; [discriminate | apply shown_modules_spec].
  - apply improved_heatmap_table in H as (Hv & -> & -> & -> & ->).
    unfold valid. rewrite Hv.
    split; [reflexivity|]. split; [reflexivity|].
    split; [apply describes_table|].
    split; [reflexivity | apply shown_modules_spec].
Qed.

(** Three modules, one of them without people, and two demographic
    columns, one of them empty for a module. *)
Definition heat_frame : DataFrame :=
  mkDF ["Grade"; "EntityDesc"; "Component Desc"; "TOTAL"; "AAM"; "HF"]
       [[Str "Gr. 4"; Str "Module 2"; Str "Lesson"; Num 100; Num 31; Num 7];
        [Str "Gr. 4"; Str "Module 1"; Str "Lesson"; Num 50; Num 3; NaN];
        [Str "Gr. 5"; Str "Module 0"; Str "Lesson"; Num 0; Num 3; Num 1];
        [Str "Gr. 5"; Str "Module 2"; Str "Quiz"; Num 20; Num 3; Num 1]].

Definition heat_targets : gmap string Q := <["aam" := 6]> (<["HF" := 15 # 2]> ∅).

Lemma heatmap_cells_aligned_witness :
  (exists z x y text,
     build Improved heat_frame ["AAM"; "HF"] heat_targets = Ok (Heatmap z x y text)
     /\ y = ["Module 1"; "Module 2"]
     /\ describes (title_of Improved) (gap_of Improved heat_frame heat_targets)
          (shown_modules heat_frame) ["AAM"; "HF"] z text) /\
  (exists z x y text,
     build Aligned heat_frame ["AAM"; "ZZ"; "HF"] heat_targets = Ok (Heatmap z x y text)
     /\ y = ["Module 1"; "Module 2"]
     /\ describes (title_of Aligned) (gap_of Aligned heat_frame heat_targets)
          (shown_modules heat_frame) ["AAM"; "HF"] z text).
Proof.
  split.
  - do 4 eexists. split; [vm_compute; reflexivity|].
    split; [reflexivity|].
    refine (proj1 (proj2 (proj2
      (heatmap_cells_aligned Improved heat_frame ["AAM"; "HF"] heat_targets
         _ _ _ _ _)))).
    vm_compute. reflexivity.
  - do 4 eexists. split; [vm_compute; reflexivity|].
    split; [reflexivity|].
    refine (proj1 (proj2 (proj2
      (heatmap_cells_aligned Aligned heat_frame ["AAM"; "ZZ"; "HF"] heat_targets
         _ _ _ _ _)))).
    vm_compute. reflexivity.
Defined.

End heatmap_facts.

(** ** Schema mapping *)

Section schema_facts.

Import PyStr Num Frame.
Local Open Scope Q_scope.

Variable parse_numeric : string -> option Q.

(** A column matches a list of variations exactly or by containment. *)
Definition matches (variations : list string) (col : string) : Prop :=
  exists v, In v variations /\
            (normalize col = lower v \/ contains v (normalize col) = true).

(** A canonical field can be mapped when some column matches its
    variations. *)
Definition mappable (variations cols : list string) : Prop :=
  exists col, In col cols /\ matches variations col.

Lemma mem_In (x : string) (l : list string) : mem x l = true <-> In x l.
Proof.
  unfold mem. rewrite existsb_exists. split.
  - intros (y & Hy & E). apply String.eqb_eq in E. now subst.
  - intros H. exists x. split; [exact H | apply String.eqb_refl].
Qed.

Lemma find_exact_some (variations cols : list string) (c : string) :
  find_exact variations cols = Some c ->
  In c cols /\ exists v, In v variations /\ normalize c = lower v.
Proof.
  unfold find_exact.
  destruct (List.find _ variations) as [v|] eqn:Ev; [|discriminate].
  intros Hc. apply find_some in Ev as [Hv _]. apply find_some in Hc as [Hc E].
  apply String.eqb_eq in E. split; [exact Hc|]. exists v; split; assumption.
Qed.

Lemma find_exact_none (variations cols : list string) :
  find_exact variations cols = None ->
  forall col v, In col cols -> In v variations -> normalize col <> lower v.
Proof.
  unfold find_exact. intros H col v Hcol Hv E.
  destruct (List.find _ variations) as [w|] eqn:Ew.
  - apply find_some in Ew as [_ Hw]. apply mem_In, in_map_iff in Hw as (c & Hc & Hin).
    assert (Hf := find_none _ _ H c Hin). cbv beta in Hf.
    rewrite Hc, String.eqb_refl in Hf. discriminate.
  - assert (Hm := find_none _ _ Ew v Hv). cbv beta in Hm.
    assert (Ht : mem (lower v) (map normalize cols) = true).
    { apply mem_In, in_map_iff. exists col; split; assumption. }
    congruence.
Qed.

Lemma find_partial_some (variations cols : list string) (c : string) :
  find_partial variations cols = Some c ->
  In c cols /\ exists v, In v variations /\ contains v (normalize c) = true.
Proof.
  unfold find_partial. intros H. apply find_some in H as [Hc E].
  split; [exact Hc|]. apply existsb_exists in E. exact E.
Qed.

Lemma find_partial_none (variations cols : list string) :
  find_partial variations cols = None ->
  forall col v, In col cols -> In v variations -> contains v (normalize col) <> true.
Proof.
  unfold find_partial. intros H col v Hcol Hv E.
  assert (Hn := find_none _ _ H col Hcol). cbv beta in Hn.
  assert (Ht : existsb (fun var => contains var (normalize col)) variations = true)
    by (apply existsb_exists; exists v; split; assumption).
  congruence.
Qed.

(** The two passes find a column exactly when one matches. *)
Lemma map_column_some (variations cols : list string) (c : string) :
  map_column variations cols = Some c -> In c cols /\ matches variations c.
Proof.
  unfold map_column. destruct (find_exact variations cols) as [c'|] eqn:E.
  - intros [= ->]. apply find_exact_some in E as (Hc & v & Hv & Hn).
    split; [exact Hc|]. exists v. split; [exact Hv | left; exact Hn].
  - intros H. apply find_partial_some in H as (Hc & v & Hv & Hn).
    split; [exact Hc|]. exists v. split; [exact Hv | right; exact Hn].
Qed.

Lemma map_column_none (variations cols : list string) :
  map_column variations cols = None <-> ~ mappable variations cols.
Proof.
  unfold map_column. split.
  - destruct (find_exact variations cols) eqn:E; [discriminate|].
    intros H (col & Hcol & v & Hv & [Hm|Hm]).
    + exact (find_exact_none _ _ E col v Hcol Hv Hm).
    + exact (find_partial_none _ _ H col v Hcol Hv Hm).
  - intros Hn. destruct (find_exact variations cols) as [c|] eqn:E.
    + exfalso. apply Hn. apply find_exact_some in E as (Hc & v & Hv & Hm).
      exists c. split; [exact Hc|]. exists v. split; [exact Hv | left; exact Hm].
    + destruct (find_partial variations cols) as [c|] eqn:E'; [|reflexivity].
      exfalso. apply Hn. apply find_partial_some in E' as (Hc & v & Hv & Hm).
      exists c. split; [exact Hc|]. exists v. split; [exact Hv | right; exact Hm].
Qed.

Lemma map_columns_In (mappings : list (string * list string)) (cols : list string)
  (f c : string) :
  In (f, c) (map_columns mappings cols) <->
  exists variations, In (f, variations) mappings /\ map_column variations cols = Some c.
Proof.
  induction mappings as [|[g vars] rest IH]; cbn [map_columns].
  - split; [intros [] | intros (v & [] & _)].
  - destruct (map_column vars cols) as [c'|] eqn:E.
    + cbn [In]. rewrite IH. split.
      * intros [[= <- <-]|(v & Hv & Hc)].
        -- exists vars. split; [left; reflexivity | exact E].
        -- exists v. split; [right; exact Hv | exact Hc].
      * intros (v & [[= <- <-]|Hv] & Hc).
        -- left. congruence.
        -- right. exists v. split; assumption.
    + rewrite IH. split.
      * intros (v & Hv & Hc). exists v. split; [right; exact Hv | exact Hc].
      * intros (v & [[= <- <-]|Hv] & Hc); [congruence|].
        exists v. split; assumption.
Qed.

Lemma column_mappings_variations (f : string) (variations : list string) :
  In (f, variations) column_mappings -> variations_of f = variations.
Proof.
  intros [[= <- <-]|[[= <- <-]|[[= <- <-]|[[= <- <-]|[]]]]]; reflexivity.
Qed.

(** The two passes select the column [c] for the canonical field [f]. *)
Definition selected (cols : list string) (f c : string) : Prop :=
  exists variations,
    In (f, variations) column_mappings /\ map_column variations cols = Some c.

Lemma missing_required_In (cols : list string) (f : string) :
  In f (missing_required (map_columns column_mappings cols)) <->
  exists variations, In (f, variations) column_mappings /\ ~ mappable variations cols.
Proof.
  unfold missing_required. rewrite filter_In, negb_true_iff. split.
  - intros [Hf Hm]. apply in_map_iff in Hf as ([g vars] & <- & Hin). cbn [fst] in *.
    exists vars. split; [exact Hin|]. apply map_column_none.
    destruct (map_column vars cols) as [c|] eqn:E; [|reflexivity].
    assert (Ht : mem g (map fst (map_columns column_mappings cols)) = true).
    { apply mem_In, in_map_iff. exists (g, c). split; [reflexivity|].
      apply map_columns_In. exists vars. split; assumption. }
    congruence.
  - intros (vars & Hin & Hn). split.
    + apply in_map_iff. exists (f, vars). split; [reflexivity | exact Hin].
    + destruct (mem f (map fst (map_columns column_mappings cols))) eqn:E;
        [|reflexivity].
      exfalso. apply mem_In, in_map_iff in E as ([g c] & <- & Hgc). cbn [fst] in *.
      apply map_columns_In in Hgc as (vars' & Hin' & Hc).
      rewrite <- (column_mappings_variations _ _ Hin) in Hn.
      rewrite (column_mappings_variations _ _ Hin') in Hn.
      apply map_column_none in Hn. congruence.
Qed.

Lemma fold_rename_sound (mapped : list (string * string)) (d0 : gmap string string)
  (c f : string) :
  fold_left (fun (d : gmap string string) kv => <[snd kv := fst kv]> d) mapped d0 !! c
  = Some f ->
  In (f, c) mapped \/ d0 !! c = Some f.
Proof.
  revert d0; induction mapped as [|[g k] rest IH]; intros d0 H; cbn [fold_left] in H.
  - right; exact H.
  - destruct (IH _ H) as [Hin|Hd]; [left; right; exact Hin|].
    cbn [fst snd] in Hd. destruct (decide (k = c)) as [->|Hne].
    + rewrite lookup_insert_eq in Hd. injection Hd as ->. left; left; reflexivity.
    + rewrite lookup_insert_ne in Hd by exact Hne. right; exact Hd.
Qed.

Lemma fold_rename_complete (mapped : list (string * string)) (d0 : gmap string string)
  (c : string) :
  (exists f, In (f, c) mapped) \/ is_Some (d0 !! c) ->
  is_Some (fold_left (fun (d : gmap string string) kv => <[snd kv := fst kv]> d)
             mapped d0 !! c).
Proof.
  revert d0; induction mapped as [|[g k] rest IH]; intros d0 H; cbn [fold_left].
  - destruct H as [[f []]|H]; exact H.
  - apply IH. cbn [fst snd]. destruct H as [[f [[= -> ->]|Hin]]|H].
    + right. rewrite lookup_insert_eq. eexists; reflexivity.
    + left. exists f; exact Hin.
    + right. destruct (decide (k = c)) as [->|Hne].
      * rewrite lookup_insert_eq. eexists; reflexivity.
      * rewrite lookup_insert_ne by exact Hne. exact H.
Qed.

(** The cell that the coercion of ['TOTAL'] leaves in place of [c]. *)
Definition coerced (c : cell) : cell := fillna0 (to_numeric parse_numeric c).

Lemma coerced_numeric :
  (forall q, coerced (Num q) = Num q) /\
  (forall s, coerced (Str s) = Num (default 0 (parse_numeric s))) /\
  coerced NaN = Num 0.
Proof.
  split; [reflexivity|]. split; [|reflexivity].
  intros s. unfold coerced, to_numeric. destruct (parse_numeric s); reflexivity.
Qed.

Lemma nth_update_nth (i : nat) (f : cell -> cell) (l : list cell) :
  nth i (update_nth i f NaN l) NaN = f (nth i l NaN).
Proof.
  revert l; induction i as [|i IH]; intros [|x l]; cbn [update_nth nth];
    try reflexivity; rewrite IH; [destruct i|]; reflexivity.
Qed.

(** What loading raises and what it returns: when a canonical field cannot
    be mapped, loading raises a
    [ValueError] whose message lists the missing fields, every raw column
    name, and for each missing field the first three of its variations; when
    loading returns, every canonical field had a column selected, each
    selected column carries a canonical name it was selected for, the other
    columns keep their names, and every cell of ['TOTAL'] is a number, with 0
    in place of a missing value or of text that denotes no number. *)
Theorem validate_data_outcome (df : DataFrame) :
  ((exists f variations,
      In (f, variations) column_mappings /\ ~ mappable variations (columns df)) ->
   exists missing,
     (forall f, In f missing <->
                exists variations, In (f, variations) column_mappings
                                   /\ ~ mappable variations (columns df)) /\
     _validate_data parse_numeric df
     = Raise (ValueError
         ("Could not find required columns: " +:+ repr_list missing +:+
          newline +:+ newline +:+
          "Available columns in your file: " +:+ join ", " (columns df) +:+
          newline +:+ newline +:+
          "Suggestions:" +:+ newline +:+
          join newline
            (map (fun f => f +:+ ": looking for columns like " +:+
                           join ", " (firstn 3 (variations_of f))) missing)))) /\
  (forall d', _validate_data parse_numeric df = Ok d' ->
     (forall f variations, In (f, variations) column_mappings ->
                           exists c, selected (columns df) f c) /\
     (exists new_label : string -> string,
        columns d' = map new_label (columns df) /\
        (forall c, (exists f, selected (columns df) f c) ->
                   selected (columns df) (new_label c) c) /\
        (forall c, (forall f, ~ selected (columns df) f c) -> new_label c = c)) /\
     (exists i, index_of "TOTAL" (columns d') = Some i /\
                rows d' = map (update_nth i coerced NaN) (rows df) /\
                forall r, nth i (update_nth i coerced NaN r) NaN
                          = coerced (nth i r NaN)) /\
     (forall q, coerced (Num q) = Num q) /\
     (forall s, coerced (Str s) = Num (default 0 (parse_numeric s))) /\
     coerced NaN = Num 0).
Proof.
  unfold _validate_data. cbv zeta.
  set (mapped := map_columns column_mappings (columns df)).
  split.
  - intros (f & vars & Hin & Hn).
    exists (missing_required mapped). split; [apply missing_required_In|].
    assert (Hf : In f (missing_required mapped))
      by (apply missing_required_In; exists vars; split; assumption).
    destruct (missing_required mapped) as [|m ms]; [destruct Hf|]. reflexivity.
  - intros d' H.
    destruct (missing_required mapped) as [|m ms] eqn:Em; [|discriminate].
    cbn [length Nat.eqb negb] in H.
    assert (Hall : forall f vars, In (f, vars) column_mappings ->
                                  exists c, selected (columns df) f c).
    { intros f vars Hin. destruct (map_column vars (columns df)) as [c|] eqn:E.
      - exists c, vars. split; assumption.
      - exfalso. assert (Hf : In f (missing_required mapped)).
        { apply missing_required_In. exists vars. split; [exact Hin|].
          apply map_column_none; exact E. }
        rewrite Em in Hf. destruct Hf. }
    unfold coerce_total in H. cbn [columns rows] in H.
    destruct (index_of "TOTAL" (rename (rename_dict mapped) (columns df)))
      as [i|] eqn:Ei; [|discriminate].
    destruct (1 <? count_occ string_dec (rename (rename_dict mapped) (columns df))
                     "TOTAL")%nat; [discriminate|].
    injection H as <-. cbn [columns rows].
    split; [exact Hall|].
    split; [|split; [exists i; split; [exact Ei | split; [reflexivity|]]
                    | exact coerced_numeric]].
    2:{ intros r. apply nth_update_nth. }
    exists (fun c => default c (rename_dict mapped !! c)).
    split; [reflexivity|]. split.
    + intros c (f & Hsel).
      assert (Hs : is_Some (rename_dict mapped !! c)).
      { apply fold_rename_complete. left. exists f. apply map_columns_In. exact Hsel. }
      destruct Hs as [g Hg]. rewrite Hg. cbn [default].
      apply fold_rename_sound in Hg as [Hg|Hg].
      * apply map_columns_In in Hg. exact Hg.
      * rewrite lookup_empty in Hg. discriminate.
    + intros c Hnone. destruct (rename_dict mapped !! c) as [g|] eqn:Hg; [|reflexivity].
      exfalso. apply fold_rename_sound in Hg as [Hg|Hg].
      * apply (Hnone g). apply map_columns_In in Hg. exact Hg.
      * rewrite lookup_empty in Hg. discriminate.
Qed.

End schema_facts.

Section schema_scenarios.

Import PyStr Num Frame.

(** A reader of numbers that knows none: every text cell is unparseable. *)
Definition parse_nothing (s : string) : option Q := None.

(** Scenario C of the specification: "Lesson Title" is taken for the
    module by containment of "lesson". *)
Example scenario_C :
  map_column (variations_of "EntityDesc") ["Gr"; "Lesson Title"; "People"]
  = Some "Lesson Title".
Proof. vm_compute. reflexivity. Qed.

(** A table with no column for the module. *)
Definition no_module_table : DataFrame :=
  mkDF ["Grade"; "Activity"; "People"] [[Str "Gr. 4"; Str "Quiz"; Num 12]].

Lemma no_module_unmappable :
  ~ mappable (variations_of "EntityDesc") (columns no_module_table).
Proof. apply map_column_none. vm_compute. reflexivity. Qed.

Lemma validate_data_outcome_witness :
  exists missing,
    (forall f, In f missing <->
               exists variations, In (f, variations) column_mappings
                 /\ ~ mappable variations (columns no_module_table)) /\
    _validate_data parse_nothing no_module_table
    = Raise (ValueError
        ("Could not find required columns: " +:+ repr_list missing +:+
         newline +:+ newline +:+
         "Available columns in your file: " +:+ join ", " (columns no_module_table) +:+
         newline +:+ newline +:+
         "Suggestions:" +:+ newline +:+
         join newline
           (map (fun f => f +:+ ": looking for columns like " +:+
                          join ", " (firstn 3 (variations_of f))) missing))).
Proof.
  apply (proj1 (validate_data_outcome parse_nothing no_module_table)).
  exists "EntityDesc", (variations_of "EntityDesc").
  split; [vm_compute; tauto | exact no_module_unmappable].
Defined.

(** The message names the first three variations only: the module field is
    missing, "lesson" is one of the variations searched for it, and the
    message does not hold it. *)
Lemma message_omits_searched_variation :
  exists msg,
    _validate_data parse_nothing no_module_table = Raise (ValueError msg)
    /\ In "lesson" (variations_of "EntityDesc")
    /\ map_column (variations_of "EntityDesc") (columns no_module_table) = None
    /\ contains "lesson" msg = false
    /\ contains "entity, entitydesc, entity desc" msg = true.
Proof.
  eexists. split; [vm_compute; reflexivity|].
  split; [vm_compute; tauto|].
  repeat split; vm_compute; reflexivity.
Qed.

(** A raw table whose first column is taken for the grade, by "level", and
    for the module, by "module". *)
Definition collision_table : DataFrame :=
  mkDF ["Module Level"; "Component"; "Total"; "AAM"]
       [[Str "Algebra, Gr. 4"; Str "Lesson"; Num 10; Num 3]].

(** C7: a raw table in which one column is selected for two canonical
    fields is loaded without an error, but the column gets the name of the
    later field only: the loaded frame has no column for the grade, and the
    aggregation by module and grade raises on it. *)
Lemma rename_collision_drops_grade :
  map_columns column_mappings (columns collision_table)
  = [("Grade", "Module Level"); ("EntityDesc", "Module Level");
     ("Component Desc", "Component"); ("TOTAL", "Total")] /\
  exists d',
    _validate_data parse_nothing collision_table = Ok d' /\
    columns d' = ["EntityDesc"; "Component Desc"; "TOTAL"; "AAM"] /\
    has_column d' "Grade" = false /\
    calculate_module_totals d' = Raise (KeyError "Grade").
Proof.
  split; [vm_compute; reflexivity|].
  eexists. split; [vm_compute; reflexivity|].
  repeat split; vm_compute; reflexivity.
Qed.

End schema_scenarios.

(** ** The consistency of totals *)

Section health_facts.

Import PyStr Num Frame.
Local Open Scope Q_scope.

Variable parse_numeric : string -> option Q.

(** [row.get('TOTAL', 0)] read as a number. *)
Definition row_total (cols : list string) (r : list cell) : result (option Q) :=
  cell_value (default (Num 0) (row_get cols r "TOTAL")).

(** Over-attribution: the counts of the row sum to more than its positive
    total. *)
Definition over (cols demographic_cols : list string) (r : list cell) : Prop :=
  exists s t, row_demo_sum cols r demographic_cols = Ok (Some s)
              /\ row_total cols r = Ok (Some t) /\ t < s /\ 0 < t.

(** Under-attribution: more than a tenth of the positive total of the row
    is in no count. *)
Definition under (cols demographic_cols : list string) (r : list cell) : Prop :=
  exists s t, row_demo_sum cols r demographic_cols = Ok (Some s)
              /\ row_total cols r = Ok (Some t) /\ s < t /\ 0 < t
              /\ t * (1 # 10) < t - s.

(** Each test [Qle_bool] of the goal, decided and read as an order. *)
Ltac decide_tests :=
  repeat match goal with
    | |- context [Qle_bool ?a ?b] =>
        let E := fresh "E" in
        destruct (Qle_bool a b) eqn:E;
        [apply Qle_bool_iff in E | apply Qle_bool_false in E]
    end;
  cbn [negb andb].

Lemma check_row_finding (cols demographic_cols : list string) (idx : nat)
  (r : list cell) (f : row_finding) :
  check_row cols demographic_cols idx r = Ok f ->
  match f with
  | Inconsistent m =>
      over cols demographic_cols r /\
      exists s t, m = SumExceedsTotal (idx + 1) s t
  | MissingAttribution m =>
      under cols demographic_cols r /\
      exists g p, m = Unassigned (idx + 1) g p
  | Consistent =>
      ~ over cols demographic_cols r /\ ~ under cols demographic_cols r
  end.
Proof.
  unfold check_row, over, under, row_total.
  destruct (cell_value (default (Num 0) (row_get cols r "TOTAL"))) as [ot|e];
    cbn [rbind]; [|discriminate].
  destruct (row_demo_sum cols r demographic_cols) as [os|e]; cbn [rbind];
    [|discriminate].
  destruct os as [s|]; [destruct ot as [t|]|].
  - decide_tests; intros [= <-].
    all: try (split;
              [exists s, t; repeat split; (reflexivity || lra)
              | do 2 eexists; reflexivity]).
    all: split; intros (s' & t' & [= <-] & [= <-] & H); lra.
  - intros [= <-]. split; intros (s' & t' & _ & [=] & _).
  - intros [= <-]. split; intros (s' & t' & [=] & _).
Qed.

Lemma check_rows_findings (cols demographic_cols : list string) (idx : nat)
  (rs : list (list cell)) (fs : list row_finding) :
  check_rows cols demographic_cols idx rs = Ok fs ->
  ((exists r, In r rs /\ over cols demographic_cols r) <-> inconsistent_rows fs <> []) /\
  ((exists r, In r rs /\ under cols demographic_cols r)
   <-> missing_attribution_rows fs <> []) /\
  List.Forall (fun m => exists k s t, m = SumExceedsTotal k s t) (inconsistent_rows fs) /\
  List.Forall (fun m => exists k g p, m = Unassigned k g p) (missing_attribution_rows fs).
Proof.
  revert idx fs; induction rs as [|r rs IH]; intros idx fs H; cbn [check_rows] in H.
  - injection H as <-. cbn. repeat split; try constructor;
      try (intros (r & [] & _)); intros Hne; congruence.
  - destruct (check_row cols demographic_cols idx r) as [f|e] eqn:Ef;
      cbn [rbind] in H; [|discriminate].
    destruct (check_rows cols demographic_cols (S idx) rs) as [fs'|e] eqn:Efs;
      cbn [rbind] in H; [|discriminate].
    injection H as <-.
    destruct (IH _ _ Efs) as (Ho & Hu & Hfo & Hfu).
    apply check_row_finding in Ef.
    unfold inconsistent_rows, missing_attribution_rows in *.
    cbn [flat_map]. destruct f as [m|m|].
    + destruct Ef as (Hover & s & t & ->). cbn [app].
      split; [split; [discriminate | intros _; exists r; split; [left; reflexivity|exact Hover]]|].
      split.
      * rewrite <- Hu. split; intros (r' & Hin & Hr').
        -- destruct Hin as [<-|Hin]; [|exists r'; split; assumption].
           exfalso. destruct Hover as (s1 & t1 & E1 & E2 & ? & ?).
           destruct Hr' as (s2 & t2 & E3 & E4 & ? & ?).
           rewrite E1 in E3. rewrite E2 in E4.
           injection E3 as <-. injection E4 as <-. lra.
        -- exists r'. split; [right; exact Hin | exact Hr'].
      * split; [constructor; [exists (idx + 1)%nat, s, t; reflexivity | exact Hfo]
               | exact Hfu].
    + destruct Ef as (Hunder & g & p & ->). cbn [app].
      split.
      * rewrite <- Ho. split; intros (r' & Hin & Hr').
        -- destruct Hin as [<-|Hin]; [|exists r'; split; assumption].
           exfalso. destruct Hunder as (s1 & t1 & E1 & E2 & ? & ?).
           destruct Hr' as (s2 & t2 & E3 & E4 & ? & ?).
           rewrite E1 in E3. rewrite E2 in E4.
           injection E3 as <-. injection E4 as <-. lra.
        -- exists r'. split; [right; exact Hin | exact Hr'].
      * split; [split; [discriminate
                       | intros _; exists r; split; [left; reflexivity|exact Hunder]]|].
        split; [exact Hfo
               | constructor; [exists (idx + 1)%nat, g, p; reflexivity | exact Hfu]].
    + destruct Ef as (Hno & Hnu). cbn [app].
      split; [|split; [|split; assumption]].
      * rewrite <- Ho. split; intros (r' & Hin & Hr').
        -- destruct Hin as [<-|Hin]; [contradiction | exists r'; split; assumption].
        -- exists r'. split; [right; exact Hin | exact Hr'].
      * rewrite <- Hu. split; intros (r' & Hin & Hr').
        -- destruct Hin as [<-|Hin]; [contradiction | exists r'; split; assumption].
        -- exists r'. split; [right; exact Hin | exact Hr'].
Qed.







Lemma report_none (n : nat) (more : nat -> message) (lst : list message) :
  report n more [] lst = lst.
Proof. reflexivity. Qed.

Lemma report_first (n : nat) (more : nat -> message) (m : message)
  (found lst : list message) :
  In m (report (S n) more (m :: found) lst).
Proof.
  unfold report. apply in_or_app. right. left. reflexivity.
Qed.

Lemma display_verdict (results : Results) :
  snd (display_health_check_results results) = negb (nonempty (critical results)).
Proof.
  unfold display_health_check_results.
  destruct (nonempty (critical results)); reflexivity.
Qed.


















End health_facts.

Section health_scenarios.

Import PyStr Num Frame.
Local Open Scope Q_scope.

(** Three rows of 10 people: 15 attributed, 5 attributed, all attributed. *)
Definition attribution_table : DataFrame :=
  mkDF ["Grade"; "EntityDesc"; "Component Desc"; "TOTAL"; "AAM"; "HF"]
       [[Str "Gr. 4"; Str "Module 1"; Str "Lesson"; Num 10; Num 9; Num 6];
        [Str "Gr. 4"; Str "Module 2"; Str "Lesson"; Num 10; Num 3; Num 2];
        [Str "Gr. 5"; Str "Module 3"; Str "Lesson"; Num 10; Num 4; Num 6]].

(** The second row alone: under-attribution only. *)
Definition under_table : DataFrame :=
  mkDF ["Grade"; "EntityDesc"; "Component Desc"; "TOTAL"; "AAM"; "HF"]
       [[Str "Gr. 4"; Str "Module 2"; Str "Lesson"; Num 10; Num 3; Num 2]].

Definition new_checker : Checker := mkChecker [] [] [].








End health_scenarios.

(** ** Diversity indices *)

Section diversity_facts.

Import PyStr Num Frame.

(** Sums of lists. *)
Definition Rsum (l : list R) : R := fold_right Rplus 0%R l.

Definition Qsum (l : list Q) : Q := fold_right Qplus 0%Q l.

(** [demo_count > 0] as the source tests it. *)
Definition positive_count (c : Q) : bool := negb (Qle_bool c 0).

(** The share of a count in the total, as a real number. *)
Definition share (total c : Q) : R := Q2R (c / total).

(** The contribution of one count to the Shannon index. *)
Definition entropy_term (total c : Q) : R :=
  if positive_count c then (- (share total c * ln (share total c)))%R else 0%R.

Lemma Rsum_nonneg (l : list R) : List.Forall (fun x => 0 <= x)%R l -> (0 <= Rsum l)%R.
Proof.
  induction 1 as [|x l Hx _ IH]; cbn [Rsum fold_right]; [lra|].
  fold (Rsum l). lra.
Qed.

Lemma Rsum_zero (l : list R) :
  List.Forall (fun x => 0 <= x)%R l ->
  Rsum l = 0%R <-> List.Forall (fun x => x = 0%R) l.
Proof.
  induction 1 as [|x l Hx Hl IH]; cbn [Rsum fold_right].
  - split; [constructor | reflexivity].
  - fold (Rsum l). assert (Hs := Rsum_nonneg l Hl). split.
    + intros H. constructor; [lra|]. apply IH. lra.
    + intros H. inversion H as [|? ? H0 Hl0]; subst. apply IH in Hl0. lra.
Qed.

Lemma entropy_nonneg (p : R) : (0 < p <= 1)%R -> (0 <= - (p * ln p))%R.
Proof.
  intros [Hp H1]. destruct (Req_dec p 1) as [->|Hne].
  - rewrite ln_1. lra.
  - assert (Hl : (ln p < ln 1)%R) by (apply ln_increasing; lra).
    rewrite ln_1 in Hl. nra.
Qed.

Lemma entropy_zero (p : R) : (0 < p <= 1)%R -> (- (p * ln p) = 0)%R <-> p = 1%R.
Proof.
  intros [Hp H1]. split.
  - intros H. destruct (Req_dec p 1) as [E|Hne]; [exact E|].
    assert (Hl : (ln p < ln 1)%R) by (apply ln_increasing; lra).
    rewrite ln_1 in Hl. nra.
  - intros ->. rewrite ln_1. lra.
Qed.

Lemma shannon_sum_terms (total : Q) (counts : list Q) :
  shannon_sum total counts = Rsum (map (entropy_term total) counts).
Proof.
  unfold shannon_sum.
  assert (H : forall a,
    fold_left (fun shannon_diversity demo_count =>
                 if negb (Qle_bool demo_count 0) then
                   (shannon_diversity
                    - Q2R (demo_count / total) * ln (Q2R (demo_count / total)))%R
                 else shannon_diversity) counts a
    = (a + Rsum (map (entropy_term total) counts))%R).
  { induction counts as [|c cs IH]; intros a; cbn [fold_left map Rsum fold_right].
    - lra.
    - rewrite IH. fold (Rsum (map (entropy_term total) cs)).
      unfold entropy_term, positive_count, share.
      destruct (negb (Qle_bool c 0)); lra. }
  rewrite H. lra.
Qed.

Lemma simpson_sum_squares (total : Q) (counts : list Q) :
  Q2R (simpson_sum total counts)
  = Rsum (map (fun c => share total c * share total c)%R counts).
Proof.
  unfold simpson_sum.
  assert (H : forall a,
    Q2R (fold_left (fun diversity_sum demo_count =>
                      diversity_sum + demo_count / total * (demo_count / total))%Q
                   counts a)
    = (Q2R a + Rsum (map (fun c => share total c * share total c)%R counts))%R).
  { induction counts as [|c cs IH]; intros a; cbn [fold_left map Rsum fold_right].
    - lra.
    - rewrite IH, Q2R_plus, Q2R_mult. unfold share. 
      fold (Rsum (map (fun c : Q => (Q2R (c / total) * Q2R (c / total))%R) cs)). lra. }
  rewrite H. rewrite RMicromega.Q2R_0. lra.
Qed.


Lemma share_div (total c : Q) :
  (0 < total)%Q -> share total c = (Q2R c * / Q2R total)%R /\ (0 < / Q2R total)%R
                   /\ (Q2R total * / Q2R total = 1)%R.
Proof.
  intros Ht. assert (Hr : (0 < Q2R total)%R).
  { rewrite <- RMicromega.Q2R_0. apply Qlt_Rlt. exact Ht. }
  unfold share. rewrite Q2R_div by (intros E; rewrite E in Ht; discriminate).
  repeat split.
  - apply Rinv_0_lt_compat. exact Hr.
  - apply Rinv_r. lra.
Qed.

Lemma Q2R_nonneg (c : Q) : (0 <= c)%Q -> (0 <= Q2R c)%R.
Proof. intros H. rewrite <- RMicromega.Q2R_0. apply Qle_Rle. exact H. Qed.

Lemma Q2R_pos (c : Q) : (0 < c)%Q <-> (0 < Q2R c)%R.
Proof.
  rewrite <- RMicromega.Q2R_0. split; [apply Qlt_Rlt | apply Rlt_Qlt].
Qed.

Lemma positive_count_iff (c : Q) : positive_count c = true <-> (0 < c)%Q.
Proof.
  unfold positive_count. rewrite negb_true_iff. apply Qle_bool_false.
Qed.

Lemma share_bounds (total c : Q) :
  (0 < total)%Q -> (0 <= c)%Q -> (c <= total)%Q ->
  (0 <= share total c <= 1)%R /\
  ((0 < c)%Q -> (0 < share total c)%R) /\
  (share total c = 1%R <-> (c == total)%Q).
Proof.
  intros Ht Hc Hle. destruct (share_div total c Ht) as (-> & Hi & Hone).
  assert (Hc' := Q2R_nonneg c Hc). assert (Hle' := Qle_Rle _ _ Hle).
  set (i := (/ Q2R total)%R) in *.
  repeat split.
  - nra.
  - nra.
  - intros Hp. apply Q2R_pos in Hp. nra.
  - intros H. apply eqR_Qeq. nra.
  - intros H. apply Qeq_eqR in H. rewrite H. lra.
Qed.

Lemma Qsum_nonneg (l : list Q) : List.Forall (fun c => 0 <= c)%Q l -> (0 <= Qsum l)%Q.
Proof.
  induction 1 as [|x l Hx _ IH]; cbn [Qsum fold_right]; [lra|].
  fold (Qsum l). lra.
Qed.

Lemma Qsum_In_le (l : list Q) (c : Q) :
  List.Forall (fun c => 0 <= c)%Q l -> In c l -> (c <= Qsum l)%Q.
Proof.
  induction 1 as [|x l Hx Hl IH]; intros Hin; [destruct Hin|].
  cbn [Qsum fold_right]. fold (Qsum l). assert (Hs := Qsum_nonneg l Hl).
  destruct Hin as [->|Hin]; [lra|]. specialize (IH Hin). lra.
Qed.

Lemma Rsum_shares (total : Q) (counts : list Q) :
  (0 < total)%Q ->
  Rsum (map (share total) counts) = (Q2R (Qsum counts) * / Q2R total)%R.
Proof.
  intros Ht. induction counts as [|c cs IH]; cbn [map Rsum fold_right Qsum].
  - rewrite RMicromega.Q2R_0. lra.
  - fold (Rsum (map (share total) cs)). fold (Qsum cs).
    rewrite IH, Q2R_plus. destruct (share_div total c Ht) as (-> & _ & _). lra.
Qed.

(** The hypotheses on a vector of counts: no negative count, at least one
    positive count, and a positive total that the counts do not exceed. *)
Definition attributable (total : Q) (counts : list Q) : Prop :=
  (0 < total)%Q /\ List.Forall (fun c => 0 <= c)%Q counts /\
  (Qsum counts <= total)%Q /\ List.Exists (fun c => 0 < c)%Q counts.

Lemma attributable_shares (total : Q) (counts : list Q) :
  attributable total counts ->
  List.Forall (fun c => (0 <= c)%Q /\ (c <= total)%Q) counts.
Proof.
  intros (Ht & Hnn & Hsum & _). apply List.Forall_forall. intros c Hc.
  split; [rewrite List.Forall_forall in Hnn; apply Hnn; exact Hc|].
  assert (H := Qsum_In_le counts c Hnn Hc). lra.
Qed.

Lemma squares_le_shares (total : Q) (counts : list Q) :
  (0 < total)%Q ->
  List.Forall (fun c => (0 <= c)%Q /\ (c <= total)%Q) counts ->
  (0 <= Rsum (map (fun c => share total c * share total c)%R counts)
   <= Rsum (map (share total) counts))%R.
Proof.
  intros Ht. induction 1 as [|c cs [Hc Hle] _ IH]; cbn [map Rsum fold_right]; [lra|].
  fold (Rsum (map (fun c => share total c * share total c)%R cs)).
  fold (Rsum (map (share total) cs)).
  destruct (share_bounds total c Ht Hc Hle) as (Hb & _). nra.
Qed.

Lemma squares_positive (total : Q) (counts : list Q) :
  (0 < total)%Q ->
  List.Forall (fun c => (0 <= c)%Q /\ (c <= total)%Q) counts ->
  List.Exists (fun c => 0 < c)%Q counts ->
  (0 < Rsum (map (fun c => share total c * share total c)%R counts))%R.
Proof.
  intros Ht Hall Hex. induction Hex as [c cs Hp|c cs Hex IH];
    inversion Hall as [|? ? [Hc Hle] Hcs]; subst; cbn [map Rsum fold_right];
    fold (Rsum (map (fun c => share total c * share total c)%R cs)).
  - destruct (share_bounds total c Ht Hc Hle) as (_ & Hpos & _).
    specialize (Hpos Hp). destruct (squares_le_shares total cs Ht Hcs) as [H0 _]. nra.
  - specialize (IH Hcs). destruct (share_bounds total c Ht Hc Hle) as (Hb & _). nra.
Qed.

(** The Simpson index of an attributable vector lies in [0, 1). *)
Lemma simpson_bounds (total : Q) (counts : list Q) :
  attributable total counts ->
  (0 <= 1 - simpson_sum total counts)%Q /\ (1 - simpson_sum total counts < 1)%Q.
Proof.
  intros Ha. assert (Hall := attributable_shares _ _ Ha).
  destruct Ha as (Ht & Hnn & Hsum & Hex).
  destruct (squares_le_shares total counts Ht Hall) as [_ Hle].
  assert (Hpos := squares_positive total counts Ht Hall Hex).
  rewrite Rsum_shares in Hle by exact Ht.
  destruct (share_div total 0 Ht) as (_ & Hi & Hone).
  assert (Hs := Qle_Rle _ _ Hsum).
  rewrite <- simpson_sum_squares in Hle, Hpos.
  split.
  - apply Rle_Qle. rewrite Q2R_minus, RMicromega.Q2R_0, RMicromega.Q2R_1. nra.
  - apply Rlt_Qlt. rewrite Q2R_minus, RMicromega.Q2R_1. lra.
Qed.

Lemma entropy_terms_nonneg (total : Q) (counts : list Q) :
  (0 < total)%Q ->
  List.Forall (fun c => (0 <= c)%Q /\ (c <= total)%Q) counts ->
  List.Forall (fun x => 0 <= x)%R (map (entropy_term total) counts).
Proof.
  intros Ht Hall. apply List.Forall_forall. intros x Hx.
  apply in_map_iff in Hx as (c & <- & Hc).
  rewrite List.Forall_forall in Hall. destruct (Hall c Hc) as [Hc0 Hle].
  unfold entropy_term. destruct (positive_count c) eqn:E; [|lra].
  apply positive_count_iff in E.
  destruct (share_bounds total c Ht Hc0 Hle) as (Hb & Hpos & _).
  apply entropy_nonneg. specialize (Hpos E). lra.
Qed.

(** The Shannon index of an attributable vector is not negative, and it is
    0 exactly when every positive count is the whole total. *)
Lemma shannon_bounds (total : Q) (counts : list Q) :
  attributable total counts ->
  (0 <= shannon_sum total counts)%R /\
  (shannon_sum total counts = 0%R <->
   forall c, In c counts -> (0 < c)%Q -> (c == total)%Q).
Proof.
  intros Ha. assert (Hall := attributable_shares _ _ Ha).
  destruct Ha as (Ht & Hnn & Hsum & Hex).
  assert (Hterms := entropy_terms_nonneg total counts Ht Hall).
  rewrite shannon_sum_terms. split; [apply Rsum_nonneg; exact Hterms|].
  rewrite (Rsum_zero _ Hterms). rewrite List.Forall_forall.
  rewrite List.Forall_forall in Hall.
  split.
  - intros H c Hc Hp. destruct (Hall c Hc) as [Hc0 Hle].
    destruct (share_bounds total c Ht Hc0 Hle) as (Hb & Hpos & Hone).
    apply Hone. specialize (H (entropy_term total c) (in_map _ _ _ Hc)).
    unfold entropy_term in H. apply positive_count_iff in Hp as Hp'. rewrite Hp' in H.
    apply entropy_zero in H; [exact H|]. specialize (Hpos Hp). lra.
  - intros H x Hx. apply in_map_iff in Hx as (c & <- & Hc).
    destruct (Hall c Hc) as [Hc0 Hle].
    destruct (share_bounds total c Ht Hc0 Hle) as (Hb & Hpos & Hone).
    unfold entropy_term. destruct (positive_count c) eqn:E; [|reflexivity].
    apply positive_count_iff in E. apply entropy_zero.
    + specialize (Hpos E). lra.
    + apply Hone, H; assumption.
Qed.


Lemma Qsum_positive_part (l : list Q) :
  List.Forall (fun c => 0 <= c)%Q l ->
  (Qsum (List.filter positive_count l) == Qsum l)%Q.
Proof.
  induction 1 as [|c l Hc _ IH]; [reflexivity|].
  cbn [List.filter]. destruct (positive_count c) eqn:E.
  - change (c + Qsum (List.filter positive_count l) == c + Qsum l)%Q. lra.
  - change (Qsum (List.filter positive_count l) == c + Qsum l)%Q.
    unfold positive_count in E. apply negb_false_iff, Qle_bool_iff in E. lra.
Qed.

Lemma positive_part_In (l : list Q) (c : Q) :
  In c (List.filter positive_count l) <-> In c l /\ (0 < c)%Q.
Proof. rewrite filter_In, positive_count_iff. reflexivity. Qed.

(** In an attributable vector every positive count is the whole total
    exactly when one count alone is positive and the counts sum to the
    total. *)
Lemma single_group (total : Q) (counts : list Q) :
  attributable total counts ->
  (forall c, In c counts -> (0 < c)%Q -> (c == total)%Q) <->
  length (List.filter positive_count counts) = 1%nat /\ (Qsum counts == total)%Q.
Proof.
  intros (Ht & Hnn & Hsum & Hex).
  assert (Hpart := Qsum_positive_part counts Hnn).
  assert (Hin := positive_part_In counts).
  apply List.Exists_exists in Hex as (c0 & Hc0 & Hp0).
  assert (H0 : In c0 (List.filter positive_count counts)) by (apply Hin; split; assumption).
  destruct (List.filter positive_count counts) as [|a [|b rest]] eqn:E.
  - destruct H0.
  - change (Qsum [a]) with (a + 0)%Q in Hpart. split.
    + intros H. split; [reflexivity|].
      assert (Ha : (a == total)%Q).
      { destruct (proj1 (Hin a) (or_introl eq_refl)) as [Ha1 Ha2]. exact (H a Ha1 Ha2). }
      lra.
    + intros [_ Hs] c Hc Hp.
      assert (Hc' : In c [a]) by (apply Hin; split; assumption).
      destruct Hc' as [<-|[]]. lra.
  - split; [|intros [Hl _]; discriminate].
    intros H. exfalso.
    destruct (proj1 (Hin a) (or_introl eq_refl)) as [Ha1 Ha2].
    destruct (proj1 (Hin b) (or_intror (or_introl eq_refl))) as [Hb1 Hb2].
    assert (Ha := H a Ha1 Ha2). assert (Hb := H b Hb1 Hb2).
    assert (Hrest : (0 <= Qsum rest)%Q).
    { apply Qsum_nonneg, List.Forall_forall. intros c Hc.
      destruct (proj1 (Hin c) (or_intror (or_intror Hc))) as [_ Hp]. lra. }
    change (Qsum (a :: b :: rest)) with (a + (b + Qsum rest))%Q in Hpart. lra.
Qed.

Lemma demo_counts_columns (self_cols : list string) (df : DataFrame) :
  demo_counts self_cols df <> [] -> get_demographic_columns self_cols <> [].
Proof.
  unfold demo_counts. intros H E. apply H. rewrite E. reflexivity.
Qed.

Lemma sum_cells_Qsum (l : list cell) : sum_cells l = Qsum (map cell_num l).
Proof.
  induction l as [|c l IH]; [reflexivity|].
  cbn [sum_cells map Qsum fold_right]. fold (sum_cells l). fold (Qsum (map cell_num l)).
  now rewrite IH.
Qed.

Lemma share_positive (total c : Q) :
  (0 < total)%Q -> negb (Qle_bool (c / total) 0) = positive_count c.
Proof.
  intros Ht. unfold positive_count. f_equal.
  assert (Hm : (total * (c / total) == c)%Q)
    by (apply Qmult_div_r; intros E; rewrite E in Ht; discriminate).
  destruct (Qle_bool c 0) eqn:E.
  - apply Qle_bool_iff in E. apply Qle_bool_iff. nra.
  - apply Qle_bool_false in E. apply Qle_bool_false. nra.
Qed.

(** The two sums of [calculate_diversity_index] are the sums of
    [calculate_diversity_metrics] for the same counts and total. *)
Lemma index_sums (total : Q) (counts : list Q) :
  (0 < total)%Q -> List.Forall (fun c => 0 <= c)%Q counts ->
  let proportions :=
    List.filter (fun p => negb (Qle_bool p 0)) (map (fun c => c / total)%Q counts) in
  (- sum_plogp proportions)%R = shannon_sum total counts /\
  Q2R (sum_squares proportions) = Q2R (simpson_sum total counts).
Proof.
  intros Ht Hnn. cbv zeta. rewrite shannon_sum_terms, simpson_sum_squares.
  induction Hnn as [|c cs Hc _ [IH1 IH2]]; cbn [map List.filter].
  - cbn [sum_plogp sum_squares fold_right Rsum]. rewrite RMicromega.Q2R_0. lra.
  - rewrite share_positive by exact Ht. cbn [Rsum fold_right].
    fold (Rsum (map (entropy_term total) cs)).
    fold (Rsum (map (fun c => share total c * share total c)%R cs)).
    unfold entropy_term at 1. destruct (positive_count c) eqn:E.
    + cbn [sum_plogp sum_squares fold_right].
      match goal with |- context [fold_right _ 0%R ?l] =>
        change (fold_right _ 0%R l) with (sum_plogp l) end.
      match goal with |- context [fold_right _ 0%Q ?l] =>
        change (fold_right _ 0%Q l) with (sum_squares l) end.
      rewrite Q2R_plus, Q2R_mult. fold (share total c). split; lra.
    + unfold positive_count in E. apply negb_false_iff, Qle_bool_iff in E.
      assert (Hz : (c == 0)%Q) by lra.
      assert (Hs : share total c = 0%R).
      { unfold share. rewrite <- RMicromega.Q2R_0. apply Qeq_eqR.
        rewrite Hz. reflexivity. }
      rewrite Hs. split; lra.
Qed.


Lemma calculate_diversity_metrics_some (self_cols : list string) (df : DataFrame)
  (total : Q) :
  get_demographic_columns self_cols <> [] ->
  col_sum df "TOTAL" = Ok total -> ~ (total == 0)%Q ->
  calculate_diversity_metrics self_cols df
  = Ok (Some (mkDiversityMetrics
                (1 - simpson_sum total (demo_counts self_cols df))
                (shannon_sum total (demo_counts self_cols df)))).
Proof.
  intros Hcols Htotal Hnz. unfold calculate_diversity_metrics.
  destruct (get_demographic_columns self_cols) as [|c cs] eqn:E; [congruence|].
  cbn [length Nat.eqb]. rewrite Htotal. cbn [rbind].
  destruct (Qeq_bool total 0) eqn:Ez; [|reflexivity].
  apply Qeq_bool_iff in Ez. contradiction.
Qed.

(** C5 (amended): on a table of counts, for summed counts that are not
    negative, with at least one positive count: the indices of
    [calculate_diversity_metrics], which divides by the summed total, satisfy
    Simpson in [0, 1] and Shannon >= 0 when the total is positive and the
    counts sum to at most the total, and the Shannon index is 0 exactly when
    one count alone is positive and it is the whole total; the indices of
    [calculate_diversity_index], which divides by the sum of the counts,
    satisfy Simpson in [0, 1) and Shannon >= 0, and the Shannon index is 0
    exactly when one count alone is positive. *)
Theorem diversity_indices_bounded :
  (forall (self_cols : list string) (df : DataFrame) (total : Q),
     count_table df ("TOTAL" :: get_demographic_columns self_cols) = true ->
     col_sum df "TOTAL" = Ok total ->
     attributable total (demo_counts self_cols df) ->
     exists m,
       calculate_diversity_metrics self_cols df = Ok (Some m) /\
       (0 <= simpson_diversity_index m)%Q /\ (simpson_diversity_index m <= 1)%Q /\
       (0 <= shannon_diversity_index m)%R /\
       (shannon_diversity_index m = 0%R <->
        length (List.filter positive_count (demo_counts self_cols df)) = 1%nat /\
        (Qsum (demo_counts self_cols df) == total)%Q)) /\
  (forall entity_data : list cell,
     count_series entity_data = true ->
     List.Forall (fun c => 0 <= cell_num c)%Q entity_data ->
     List.Exists (fun c => 0 < cell_num c)%Q entity_data ->
     (0 <= snd (calculate_diversity_index entity_data))%Q /\
     (snd (calculate_diversity_index entity_data) < 1)%Q /\
     (0 <= fst (calculate_diversity_index entity_data))%R /\
     (fst (calculate_diversity_index entity_data) = 0%R <->
      length (List.filter positive_count (map cell_num entity_data)) = 1%nat)).
Proof.
  split.
  - intros self_cols df total _ Htotal Ha.
    assert (Hcols : get_demographic_columns self_cols <> []).
    { apply (demo_counts_columns self_cols df). destruct Ha as (_ & _ & _ & Hex).
      intros E. rewrite E in Hex. inversion Hex. }
    assert (Hnz : ~ (total == 0)%Q).
    { destruct Ha as (Ht & _). intros E. rewrite E in Ht. discriminate. }
    eexists. split; [apply calculate_diversity_metrics_some; eassumption|].
    cbn [simpson_diversity_index shannon_diversity_index].
    destruct (simpson_bounds _ _ Ha) as [H0 H1].
    destruct (shannon_bounds _ _ Ha) as [Hs Hz].
    split; [exact H0|]. split; [apply Qlt_le_weak; exact H1|]. split; [exact Hs|].
    rewrite Hz. apply single_group. exact Ha.
  - intros entity_data _ Hnn Hex.
    set (counts := map cell_num entity_data).
    assert (Hnn' : List.Forall (fun c => 0 <= c)%Q counts).
    { unfold counts. apply List.Forall_forall. intros c Hc.
      apply in_map_iff in Hc as (x & <- & Hx).
      rewrite List.Forall_forall in Hnn. apply Hnn; exact Hx. }
    assert (Hex' : List.Exists (fun c => 0 < c)%Q counts).
    { unfold counts. apply List.Exists_exists.
      apply List.Exists_exists in Hex as (x & Hx & Hp).
      exists (cell_num x). split; [apply in_map; exact Hx | exact Hp]. }
    assert (Ht : (0 < Qsum counts)%Q).
    { apply List.Exists_exists in Hex' as (c & Hc & Hp).
      assert (H := Qsum_In_le counts c Hnn' Hc). lra. }
    assert (Ha : attributable (Qsum counts) counts).
    { split; [exact Ht|]. split; [exact Hnn'|]. split; [lra | exact Hex']. }
    unfold calculate_diversity_index. rewrite sum_cells_Qsum. fold counts.
    destruct (Qeq_bool (Qsum counts) 0) eqn:Ez.
    { apply Qeq_bool_iff in Ez. lra. }
    cbn [fst snd].
    assert (Hm : map (fun c => cell_num c / Qsum counts)%Q entity_data
                 = map (fun c => c / Qsum counts)%Q counts)
      by (unfold counts; rewrite map_map; reflexivity).
    rewrite Hm.
    destruct (index_sums (Qsum counts) counts Ht Hnn') as [Hsh Hsi].
    cbv zeta in Hsh, Hsi. rewrite Hsh. apply eqR_Qeq in Hsi.
    destruct (simpson_bounds _ _ Ha) as [H0 H1].
    destruct (shannon_bounds _ _ Ha) as [Hs Hz].
    split; [lra|]. split; [lra|]. split; [exact Hs|].
    rewrite Hz, (single_group _ _ Ha). split; [tauto|].
    intros H. split; [exact H | reflexivity].
Qed.

(** One module of 100 people with two groups of 50. *)
Definition even_split : DataFrame :=
  mkDF ["Grade"; "EntityDesc"; "Component Desc"; "TOTAL"; "AAM"; "AAF"]
       [[Str "Gr. 4"; Str "Module 1"; Str "Lesson"; Num 100; Num 50; Num 50]].

Lemma even_split_attributable :
  attributable 100 (demo_counts (columns even_split) even_split).
Proof.
  split; [reflexivity|]. split; [|split].
  - repeat constructor; vm_compute; discriminate.
  - vm_compute. discriminate.
  - constructor. vm_compute. reflexivity.
Qed.

Lemma diversity_indices_bounded_witness :
  (exists m,
     calculate_diversity_metrics (columns even_split) even_split = Ok (Some m) /\
     (0 <= simpson_diversity_index m)%Q /\ (simpson_diversity_index m <= 1)%Q /\
     (0 <= shannon_diversity_index m)%R) /\
  (0 <= snd (calculate_diversity_index [Num 50; Num 50]))%Q /\
  (snd (calculate_diversity_index [Num 50; Num 50]) < 1)%Q /\
  (0 <= fst (calculate_diversity_index [Num 50; Num 50]))%R.
Proof.
  split.
  - destruct (proj1 diversity_indices_bounded (columns even_split) even_split 100%Q)
      as (m & Hm & H0 & H1 & Hs & _).
    + vm_compute. reflexivity.
    + vm_compute. reflexivity.
    + exact even_split_attributable.
    + exists m. repeat split; assumption.
  - destruct (proj2 diversity_indices_bounded [Num 50; Num 50])
      as (H0 & H1 & Hs & _).
    + vm_compute. reflexivity.
    + repeat constructor; vm_compute; discriminate.
    + constructor. vm_compute. reflexivity.
    + repeat split; assumption.
Defined.

(** Scenario D of the specification: two groups of 50 in a module of 100
    give a Simpson index of 0.5 and a Shannon index of ln 2. *)
Example scenario_D :
  exists m,
    calculate_diversity_metrics (columns even_split) even_split = Ok (Some m)
    /\ (simpson_diversity_index m == 1 # 2)%Q
    /\ shannon_diversity_index m = ln 2.
Proof.
  eexists. split; [|split].
  - apply (calculate_diversity_metrics_some _ _ 100);
      [vm_compute; discriminate | vm_compute; reflexivity | vm_compute; discriminate].
  - vm_compute. reflexivity.
  - cbn [shannon_diversity_index].
    assert (Hc : demo_counts (columns even_split) even_split = [(50 + 0)%Q; (50 + 0)%Q])
      by (vm_compute; reflexivity).
    rewrite Hc, shannon_sum_terms. cbn [map Rsum fold_right].
    assert (Hp : positive_count (50 + 0) = true) by (vm_compute; reflexivity).
    unfold entropy_term. rewrite Hp.
    assert (Hsh : share 100 (50 + 0) = (/ 2)%R).
    { assert (Hq : ((50 + 0) / 100 == 1 # 2)%Q) by (vm_compute; reflexivity).
      unfold share. rewrite (Qeq_eqR _ _ Hq). unfold Q2R. cbn. lra. }
    rewrite Hsh, ln_Rinv by lra. lra.
Qed.

(** C5 as stated fails for [calculate_diversity_metrics]: with 200 people
    counted in the one group of a module of 100 the Simpson index is
    negative, and with 50 counted in the one group of a module of 100 the
    Shannon index is not 0 although one group alone has a nonzero count. *)
Lemma indices_outside_bounds :
  (exists m,
     calculate_diversity_metrics (columns (one_module 100 200)) (one_module 100 200)
     = Ok (Some m)
     /\ (simpson_diversity_index m < 0)%Q) /\
  (exists m,
     calculate_diversity_metrics (columns (one_module 100 50)) (one_module 100 50)
     = Ok (Some m)
     /\ length (List.filter positive_count
                  (demo_counts (columns (one_module 100 50)) (one_module 100 50)))
        = 1%nat
     /\ shannon_diversity_index m <> 0%R).
Proof.
  split.
  - eexists. split.
    + apply (calculate_diversity_metrics_some _ _ 100);
        [vm_compute; discriminate | vm_compute; reflexivity | vm_compute; discriminate].
    + vm_compute. reflexivity.
  - eexists. split; [|split].
    + apply (calculate_diversity_metrics_some _ _ 100);
        [vm_compute; discriminate | vm_compute; reflexivity | vm_compute; discriminate].
    + vm_compute. reflexivity.
    + cbn [shannon_diversity_index].
      assert (Hc : demo_counts (columns (one_module 100 50)) (one_module 100 50)
                   = [(50 + 0)%Q]) by (vm_compute; reflexivity).
      rewrite Hc, shannon_sum_terms. cbn [map Rsum fold_right].
      assert (Hp : positive_count (50 + 0) = true) by (vm_compute; reflexivity).
      unfold entropy_term. rewrite Hp.
      assert (Hsh : share 100 (50 + 0) = (/ 2)%R).
      { assert (Hq : ((50 + 0) / 100 == 1 # 2)%Q) by (vm_compute; reflexivity).
        unfold share. rewrite (Qeq_eqR _ _ Hq). unfold Q2R. cbn. lra. }
      rewrite Hsh. intros H.
      assert (Hz : (- (/ 2 * ln (/ 2)) = 0)%R) by lra.
      apply entropy_zero in Hz; lra.
Qed.

End diversity_facts.

(** ** Scenarios of a session *)

Section session_scenarios.

Import PyStr Num Frame.

(** The caller holds [heat_frame] as object 0 of the store. *)
Definition caller_store : gmap nat DataFrame := {[ 0%nat := heat_frame ]}.

Lemma caller_frame_unchanged_witness :
  caller_store !! 0%nat = Some heat_frame /\
  snd (session parse_nothing 0 [("Grade", [Str "Gr. 4"])] heat_targets caller_store)
    !! 0%nat = Some heat_frame.
Proof.
  assert (H : caller_store !! 0%nat = Some heat_frame) by reflexivity.
  split; [exact H|].
  exact (caller_frame_unchanged parse_nothing caller_store 0 heat_frame
           [("Grade", [Str "Gr. 4"])] heat_targets H).
Defined.

End session_scenarios.

(** ** Sorting and distinct values *)

Section sort_facts.

Context {A : Type} (leb : A -> A -> bool).

Lemma insert_leb_perm (x : A) (l : list A) : Permutation (insert_leb leb x l) (x :: l).
Proof.
  induction l as [|y l IH]; cbn [insert_leb]; [reflexivity|].
  destruct (leb x y); [reflexivity|].
  rewrite IH. apply perm_swap.
Qed.

Lemma sort_leb_perm (l : list A) : Permutation (sort_leb leb l) l.
Proof.
  induction l as [|x l IH]; [reflexivity|].
  change (sort_leb leb (x :: l)) with (insert_leb leb x (sort_leb leb l)).
  rewrite insert_leb_perm. now apply perm_skip.
Qed.

Lemma sort_leb_In (l : list A) (x : A) : In x (sort_leb leb l) <-> In x l.
Proof.
  split; apply Permutation_in; [|symmetry]; apply sort_leb_perm.
Qed.

Hypothesis leb_total : forall x y, leb x y = true \/ leb y x = true.
Hypothesis leb_trans : forall x y z, leb x y = true -> leb y z = true -> leb x z = true.

Lemma insert_leb_sorted (x : A) (l : list A) :
  StronglySorted (fun a b => leb a b = true) l ->
  StronglySorted (fun a b => leb a b = true) (insert_leb leb x l).
Proof.
  induction 1 as [|y l Hs IH Hy]; cbn [insert_leb].
  - constructor; constructor.
  - destruct (leb x y) eqn:E.
    + constructor; [constructor; assumption|].
      constructor; [exact E|].
      eapply List.Forall_impl; [|exact Hy]. intros z Hz. exact (leb_trans _ _ _ E Hz).
    + constructor; [exact IH|].
      assert (Hyx : leb y x = true) by (destruct (leb_total x y); congruence).
      apply List.Forall_forall. intros z Hz.
      apply (Permutation_in _ (insert_leb_perm x l)) in Hz. destruct Hz as [<-|Hz].
      * exact Hyx.
      * rewrite List.Forall_forall in Hy. exact (Hy z Hz).
Qed.

Lemma sort_leb_sorted (l : list A) :
  StronglySorted (fun a b => leb a b = true) (sort_leb leb l).
Proof.
  induction l as [|x l IH]; [constructor|].
  change (sort_leb leb (x :: l)) with (insert_leb leb x (sort_leb leb l)).
  apply insert_leb_sorted, IH.
Qed.

End sort_facts.

Lemma strongly_sorted_impl {A} (R R' : A -> A -> Prop) (l : list A) :
  (forall a b, R a b -> R' a b) -> StronglySorted R l -> StronglySorted R' l.
Proof.
  intros H. induction 1 as [|a l Hs IH Ha]; constructor; [exact IH|].
  eapply List.Forall_impl; [|exact Ha]. intros b. apply H.
Qed.

Section distinct_facts.

Context {A : Type} (eqb : A -> A -> bool).

Lemma distinct_aux_In (seen l : list A) (x : A) :
  In x (distinct_aux eqb seen l) -> In x l /\ existsb (eqb x) seen = false.
Proof.
  revert seen; induction l as [|a l IH]; intros seen H; [destruct H|].
  cbn [distinct_aux] in H. destruct (existsb (eqb a) seen) eqn:E.
  - destruct (IH _ H) as [H1 H2]. split; [right; exact H1|exact H2].
  - destruct H as [<-|H]; [split; [left; reflexivity|exact E]|].
    destruct (IH _ H) as [H1 H2]. split; [right; exact H1|].
    cbn [existsb] in H2. apply orb_false_iff in H2. tauto.
Qed.

(** Kept values differ: a later one equals no earlier one. *)
Lemma distinct_aux_pairwise (seen l : list A) :
  ForallOrdPairs (fun a b => eqb b a = false) (distinct_aux eqb seen l).
Proof.
  revert seen; induction l as [|a l IH]; intros seen; [constructor|].
  cbn [distinct_aux]. destruct (existsb (eqb a) seen); [apply IH|].
  constructor; [|apply IH].
  apply List.Forall_forall. intros b Hb. apply distinct_aux_In in Hb.
  destruct Hb as [_ Hb]. cbn [existsb] in Hb. apply orb_false_iff in Hb. tauto.
Qed.

Hypothesis eqb_refl : forall x, eqb x x = true.

(** Every value is kept or equals one that was seen or kept. *)
Lemma distinct_aux_cover (seen l : list A) (x : A) :
  In x l ->
  existsb (eqb x) seen = true \/
  exists y, In y (distinct_aux eqb seen l) /\ eqb x y = true.
Proof.
  revert seen; induction l as [|a l IH]; intros seen H; [destruct H|].
  cbn [distinct_aux]. destruct (existsb (eqb a) seen) eqn:E.
  - destruct H as [<-|H]; [left; exact E|]. apply IH, H.
  - destruct H as [<-|H].
    + right. exists a. split; [left; reflexivity|apply eqb_refl].
    + destruct (IH (a :: seen) H) as [Hs|(y & Hy & Hxy)].
      * cbn [existsb] in Hs. apply orb_true_iff in Hs. destruct Hs as [Hs|Hs].
        -- right. exists a. split; [left; reflexivity|exact Hs].
        -- left. exact Hs.
      * right. exists y. split; [right; exact Hy|exact Hxy].
Qed.

Lemma distinct_cover (l : list A) (x : A) :
  In x l -> exists y, In y (distinct eqb l) /\ eqb x y = true.
Proof.
  intros H. destruct (distinct_aux_cover [] l x H) as [Hs|Hy]; [discriminate Hs|exact Hy].
Qed.

Lemma distinct_In (l : list A) (x : A) : In x (distinct eqb l) -> In x l.
Proof. intros H. apply (distinct_aux_In [] l x H). Qed.

End distinct_facts.

Section cell_order_facts.

Import PyStr Num Frame.

Lemma unique_distinct (l : list cell) : unique l = distinct cell_eqb l.
Proof.
  unfold unique, distinct. generalize (@nil cell) as seen.
  induction l as [|c l IH]; intros seen; [reflexivity|].
  cbn [unique_aux distinct_aux]. unfold isin. rewrite !IH. reflexivity.
Qed.

Lemma cell_eqb_refl (c : cell) : cell_eqb c c = true.
Proof.
  destruct c as [q|s|]; cbn [cell_eqb]; [apply Qeq_bool_iff; reflexivity
                                        |apply String.eqb_refl|reflexivity].
Qed.

Lemma cell_eqb_sym (a b : cell) : cell_eqb a b = cell_eqb b a.
Proof.
  destruct a as [x|s|], b as [y|t|]; cbn [cell_eqb]; try reflexivity.
  - destruct (Qeq_bool x y) eqn:E, (Qeq_bool y x) eqn:F; try reflexivity.
    + apply Qeq_bool_iff in E. symmetry in E. apply Qeq_bool_iff in E. congruence.
    + apply Qeq_bool_iff in F. symmetry in F. apply Qeq_bool_iff in F. congruence.
  - apply String.eqb_sym.
Qed.

Lemma cell_eqb_trans (a b c : cell) :
  cell_eqb a b = true -> cell_eqb b c = true -> cell_eqb a c = true.
Proof.
  destruct a as [x|s|], b as [y|t|], c as [z|u|]; cbn [cell_eqb]; try discriminate;
    try reflexivity.
  - rewrite !Qeq_bool_iff. intros -> ->. reflexivity.
  - rewrite !String.eqb_eq. congruence.
Qed.

Lemma ascii_compare_refl (c : ascii) : Ascii.compare c c = Eq.
Proof. unfold Ascii.compare. apply N.compare_refl. Qed.

Lemma string_compare_lt_trans (a b c : string) :
  String.compare a b = Lt -> String.compare b c = Lt -> String.compare a c = Lt.
Proof.
  revert b c; induction a as [|x a IH]; intros [|y b] [|z c]; cbn [String.compare];
    try discriminate; try reflexivity.
  unfold Ascii.compare.
  destruct (N.compare_spec (N_of_ascii x) (N_of_ascii y)) as [Exy|Lxy|Gxy];
    try discriminate;
    destruct (N.compare_spec (N_of_ascii y) (N_of_ascii z)) as [Eyz|Lyz|Gyz];
    try discriminate; intros H1 H2.
  - rewrite Exy, Eyz, N.compare_refl. exact (IH _ _ H1 H2).
  - rewrite Exy. apply N.compare_lt_iff in Lyz. rewrite Lyz. reflexivity.
  - rewrite <- Eyz. apply N.compare_lt_iff in Lxy. rewrite Lxy. reflexivity.
  - assert (L : (N_of_ascii x < N_of_ascii z)%N) by lia.
    apply N.compare_lt_iff in L. rewrite L. reflexivity.
Qed.

Lemma string_compare_refl (a : string) : String.compare a a = Eq.
Proof.
  induction a as [|x a IH]; cbn [String.compare]; [reflexivity|].
  now rewrite ascii_compare_refl.
Qed.

Lemma string_leb_trans (a b c : string) :
  String.leb a b = true -> String.leb b c = true -> String.leb a c = true.
Proof.
  unfold String.leb.
  destruct (String.compare a b) eqn:E1; try discriminate;
    destruct (String.compare b c) eqn:E2; try discriminate; intros _ _.
  - apply String.compare_eq_iff in E1, E2. subst. now rewrite string_compare_refl.
  - apply String.compare_eq_iff in E1. subst. rewrite E2. reflexivity.
  - apply String.compare_eq_iff in E2. subst. rewrite E1. reflexivity.
  - rewrite (string_compare_lt_trans _ _ _ E1 E2). reflexivity.
Qed.

Lemma string_ltb_leb (a b : string) :
  String.leb a b = true -> a <> b -> String.ltb a b = true.
Proof.
  unfold String.leb, String.ltb. destruct (String.compare a b) eqn:E; try discriminate.
  - apply String.compare_eq_iff in E. congruence.
  - reflexivity.
Qed.

Lemma Qle_bool_total (x y : Q) : Qle_bool x y = true \/ Qle_bool y x = true.
Proof.
  rewrite !Qle_bool_iff. destruct (Qlt_le_dec x y) as [H|H]; [left; apply Qlt_le_weak, H|right; exact H].
Qed.

Lemma Qle_bool_trans (x y z : Q) :
  Qle_bool x y = true -> Qle_bool y z = true -> Qle_bool x z = true.
Proof. rewrite !Qle_bool_iff. apply Qle_trans. Qed.

End cell_order_facts.

Section distinct_sorted_facts.

Context {A : Type} (eqb leb : A -> A -> bool).

(** No value twice, and no two values that [eqb] takes for equal. *)
Definition all_differ (l : list A) : Prop :=
  List.NoDup l /\ forall a b, In a l -> In b l -> a <> b -> eqb a b = false.

Hypothesis eqb_refl : forall x, eqb x x = true.
Hypothesis eqb_sym : forall x y, eqb x y = eqb y x.

Lemma pairwise_all_differ (l : list A) :
  ForallOrdPairs (fun a b => eqb b a = false) l -> all_differ l.
Proof.
  induction 1 as [|a l Ha Hl [IH1 IH2]]; [split; [constructor|intros ? ? []]|].
  rewrite List.Forall_forall in Ha. split.
  - constructor; [|exact IH1]. intros Hin. specialize (Ha a Hin).
    rewrite eqb_refl in Ha. discriminate.
  - intros x y [<-|Hx] [<-|Hy] Hne.
    + congruence.
    + rewrite eqb_sym. apply Ha, Hy.
    + apply Ha, Hx.
    + apply IH2; assumption.
Qed.

Lemma all_differ_perm (l l' : list A) :
  Permutation l l' -> all_differ l -> all_differ l'.
Proof.
  intros P [H1 H2]. split.
  - eapply Permutation_NoDup; eassumption.
  - intros a b Ha Hb. apply H2; eapply Permutation_in; try eassumption;
      symmetry; exact P.
Qed.

Lemma sorted_strict (l : list A) :
  StronglySorted (fun a b => leb a b = true) l -> all_differ l ->
  StronglySorted (fun a b => leb a b = true /\ eqb a b = false) l.
Proof.
  induction 1 as [|a l Hs IH Ha]; intros [Hn Hd]; [constructor|].
  inversion Hn as [|? ? Hnotin Hn']; subst.
  constructor.
  - apply IH. split; [exact Hn'|]. intros x y Hx Hy. apply Hd; right; assumption.
  - rewrite List.Forall_forall in Ha |- *. intros b Hb. split; [apply Ha, Hb|].
    apply Hd; [left; reflexivity|right; exact Hb|]. intros ->. contradiction.
Qed.

End distinct_sorted_facts.

Section listing_facts.

Import PyStr Num Frame.

Variable py_str : Q -> string.

Lemma column_has_column (df : DataFrame) (col : string) :
  has_column df col = false -> column df col = Raise (KeyError col).
Proof.
  unfold has_column, column, mem. intros H.
  assert (E : index_of col (columns df) = None).
  { induction (columns df) as [|c cs IH]; [reflexivity|].
    cbn [existsb] in H. apply orb_false_iff in H. destruct H as [H1 H2].
    cbn [index_of]. rewrite H1, (IH H2). reflexivity. }
  now rewrite E.
Qed.

Lemma dropna_In (l : list cell) (c : cell) : In c (dropna l) <-> In c l /\ notna c = true.
Proof. unfold dropna. apply filter_In. Qed.

(** The values that [get_unique_values] sorts. *)
Lemma unique_dropna_In (l : list cell) (c : cell) :
  In c (unique (dropna l)) -> In c l /\ notna c = true.
Proof.
  rewrite unique_distinct. intros H. apply distinct_In in H. now apply dropna_In.
Qed.

Lemma unique_dropna_cover (l : list cell) (c : cell) :
  In c l -> notna c = true ->
  exists c', In c' (unique (dropna l)) /\ cell_eqb c c' = true.
Proof.
  intros H1 H2. rewrite unique_distinct.
  apply (distinct_cover cell_eqb cell_eqb_refl). now apply dropna_In.
Qed.

Lemma unique_all_differ (l : list cell) : all_differ cell_eqb (unique l).
Proof.
  rewrite unique_distinct.
  apply (pairwise_all_differ cell_eqb cell_eqb_refl cell_eqb_sym).
  apply distinct_aux_pairwise.
Qed.

Definition text_of (c : cell) : string :=
  match c with
  | Str s => s
  | _ => EmptyString
  end.

Lemma texts_spec (l : list cell) :
  (forall c, In c l -> exists s, c = Str s) ->
  texts l = Some (map text_of l) /\ (l <> [] -> numbers l = None).
Proof.
  intros H. unfold texts, numbers. split.
  - replace (forallb _ l) with true; [reflexivity|]. symmetry.
    apply forallb_forall. intros c Hc. destruct (H c Hc) as [s ->]. reflexivity.
  - destruct l as [|c l]; [congruence|]. intros _.
    destruct (H c (or_introl eq_refl)) as [s ->]. reflexivity.
Qed.

Lemma numbers_spec (l : list cell) :
  (forall c, In c l -> exists q, c = Num q) -> numbers l = Some (map cell_num l).
Proof.
  intros H. unfold numbers.
  replace (forallb _ l) with true; [reflexivity|]. symmetry.
  apply forallb_forall. intros c Hc. destruct (H c Hc) as [q ->]. reflexivity.
Qed.

Lemma map_Str_text_of (l : list cell) :
  (forall c, In c l -> exists s, c = Str s) -> map Str (map text_of l) = l.
Proof.
  intros H. rewrite map_map. rewrite <- (map_id l) at 2. apply map_ext_in.
  intros c Hc. destruct (H c Hc) as [s ->]. reflexivity.
Qed.

Lemma all_differ_map {A B} (eqa : A -> A -> bool) (eqb' : B -> B -> bool)
  (f : A -> B) (l : list A) :
  (forall a b, In a l -> In b l -> f a = f b -> a = b) ->
  (forall a b, In a l -> In b l -> eqb' (f a) (f b) = eqa a b) ->
  all_differ eqa l -> all_differ eqb' (map f l).
Proof.
  intros Hinj Heq [Hn Hd]. split.
  - clear Hd Heq. induction l as [|a l IH]; [constructor|].
    inversion Hn as [|? ? Hnot Hn']; subst. cbn [map]. constructor.
    + rewrite in_map_iff. intros (b & E & Hb). apply Hnot.
      rewrite (Hinj a b); [exact Hb|left; reflexivity|right; exact Hb|congruence].
    + apply IH; [|exact Hn']. intros x y Hx Hy. apply Hinj; right; assumption.
  - intros x y Hx Hy Hne. apply in_map_iff in Hx, Hy.
    destruct Hx as (a & <- & Ha), Hy as (b & <- & Hb).
    rewrite Heq by assumption. apply Hd; try assumption. congruence.
Qed.

(** X1: [get_unique_values] gives the empty list for a column that the
    frame does not have.  For a column of text it gives the names that
    occur in the column, each once, in strictly ascending order; for a
    column of numbers, the values that occur, each once as a number, in
    strictly ascending order.  Missing values are left out. *)
Theorem get_unique_values_sorted (self_df : DataFrame) (column : string) :
  (has_column self_df column = false -> get_unique_values py_str self_df column = []) /\
  (forall cells,
     Frame.column self_df column = Ok cells ->
     (forall c, In c cells -> forall q, c <> Num q) ->
     exists names,
       get_unique_values py_str self_df column = map Str names /\
       StronglySorted (fun a b => String.ltb a b = true) names /\
       forall s, In s names <-> In (Str s) cells) /\
  (forall cells,
     Frame.column self_df column = Ok cells ->
     (forall c, In c cells -> forall s, c <> Str s) ->
     exists values,
       get_unique_values py_str self_df column = map Num values /\
       StronglySorted Qlt values /\
       (forall q, In q values -> In (Num q) cells) /\
       (forall q, In (Num q) cells -> exists q', In q' values /\ q' == q)).
Proof.
  split; [|split].
  - intros H. unfold get_unique_values. now rewrite (column_has_column _ _ H).
  - intros cells Hc Htext. unfold get_unique_values. rewrite Hc.
    set (l := unique (dropna cells)).
    assert (Hl : forall c, In c l -> exists s, c = Str s).
    { intros c Hin. apply unique_dropna_In in Hin. destruct Hin as [Hin Hna].
      destruct c as [q|s|]; [destruct (Htext _ Hin q eq_refl)|now exists s|discriminate]. }
    destruct (texts_spec l Hl) as [Ht Hn].
    exists (sort_leb String.leb (map text_of l)). split; [|split].
    + unfold sorted. rewrite Ht. destruct l as [|c l'] eqn:El; [reflexivity|].
      rewrite Hn by discriminate. reflexivity.
    + assert (S := sorted_strict String.eqb String.leb (sort_leb String.leb (map text_of l))
                     (sort_leb_sorted String.leb String.leb_total string_leb_trans _)).
      eapply strongly_sorted_impl; [|apply S].
      * intros a b [H1 H2]. apply string_ltb_leb; [exact H1|].
        now apply String.eqb_neq.
      * eapply all_differ_perm; [symmetry; apply sort_leb_perm|].
        apply (all_differ_map cell_eqb String.eqb text_of l); [| |apply unique_all_differ].
        -- intros a b Ha Hb. destruct (Hl a Ha) as [s ->], (Hl b Hb) as [t ->].
           cbn [text_of]. congruence.
        -- intros a b Ha Hb. destruct (Hl a Ha) as [s ->], (Hl b Hb) as [t ->].
           reflexivity.
    + intros s. rewrite sort_leb_In, in_map_iff. split.
      * intros (c & <- & Hin). destruct (Hl c Hin) as [t ->]. cbn [text_of].
        apply unique_dropna_In in Hin. tauto.
      * intros Hin. destruct (unique_dropna_cover cells (Str s) Hin eq_refl)
          as (c' & Hc' & E).
        destruct c' as [q|t|]; cbn [cell_eqb] in E; try discriminate.
        apply String.eqb_eq in E. subst t. exists (Str s). split; [reflexivity|exact Hc'].
  - intros cells Hc Hnum. unfold get_unique_values. rewrite Hc.
    set (l := unique (dropna cells)).
    assert (Hl : forall c, In c l -> exists q, c = Num q).
    { intros c Hin. apply unique_dropna_In in Hin. destruct Hin as [Hin Hna].
      destruct c as [q|s|]; [now exists q|destruct (Hnum _ Hin s eq_refl)|discriminate]. }
    exists (sort_leb Qle_bool (map cell_num l)). split; [|split; [|split]].
    + unfold sorted. now rewrite (numbers_spec l Hl).
    + assert (S := sorted_strict Qeq_bool Qle_bool (sort_leb Qle_bool (map cell_num l))
                     (sort_leb_sorted Qle_bool Qle_bool_total Qle_bool_trans _)).
      eapply strongly_sorted_impl; [|apply S].
      * intros a b [H1 H2]. apply Qle_bool_iff in H1.
        apply Qle_lt_or_eq in H1. destruct H1 as [H1|H1]; [exact H1|].
        apply Qeq_bool_iff in H1. congruence.
      * eapply all_differ_perm; [symmetry; apply sort_leb_perm|].
        apply (all_differ_map cell_eqb Qeq_bool cell_num l); [| |apply unique_all_differ].
        -- intros a b Ha Hb. destruct (Hl a Ha) as [s ->], (Hl b Hb) as [t ->].
           cbn [cell_num]. congruence.
        -- intros a b Ha Hb. destruct (Hl a Ha) as [s ->], (Hl b Hb) as [t ->].
           reflexivity.
    + intros q. rewrite sort_leb_In, in_map_iff. intros (c & <- & Hin).
      destruct (Hl c Hin) as [t ->]. cbn [cell_num].
      apply unique_dropna_In in Hin. tauto.
    + intros q Hin. destruct (unique_dropna_cover cells (Num q) Hin eq_refl)
        as (c' & Hc' & E).
      destruct c' as [q'|t|]; cbn [cell_eqb] in E; try discriminate.
      apply Qeq_bool_iff in E. exists q'. split; [|symmetry; exact E].
      rewrite sort_leb_In, in_map_iff. exists (Num q'). split; [reflexivity|exact Hc'].
Qed.

End listing_facts.

(** ** Replacing text *)

Section replace_facts.

Import PyStr.

Lemma append_empty_r (s : string) : s +:+ "" = s.
Proof.
  induction s as [|c s IH]; [reflexivity|].
  change (String c (s +:+ "") = String c s). now rewrite IH.
Qed.

Lemma prefix_refl (p : string) : String.prefix p p = true.
Proof.
  induction p as [|c p IH]; simpl; [reflexivity|].
  destruct (ascii_dec c c); [exact IH|congruence].
Qed.

(** When [p] starts [t +:+ q], it starts [t] or it ends in a start of [q]. *)
Lemma prefix_app_split (p t q : string) :
  String.prefix p (t +:+ q) = true ->
  String.prefix p t = true \/ exists p2, p = t +:+ p2 /\ String.prefix p2 q = true.
Proof.
  revert t; induction p as [|a p IH]; intros t H.
  - left. destruct t; reflexivity.
  - destruct t as [|b t].
    + right. exists (String a p). split; [reflexivity|exact H].
    + change (String b t +:+ q) with (String b (t +:+ q)) in H.
      cbn [String.prefix] in H |- *.
      destruct (ascii_dec a b) as [->|]; [|discriminate].
      destruct (IH t H) as [Hp|(p2 & -> & Hq)]; [left; exact Hp|].
      right. exists p2. split; [reflexivity|exact Hq].
Qed.

(** The ends of a string, the whole string first. *)
Fixpoint suffixes (p : string) : list string :=
  p :: match p with
       | EmptyString => []
       | String _ p' => suffixes p'
       end.

Lemma suffixes_app (t p2 : string) : In p2 (suffixes (t +:+ p2)).
Proof.
  induction t as [|c t IH].
  - change ("" +:+ p2) with p2. destruct p2; left; reflexivity.
  - change (String c t +:+ p2) with (String c (t +:+ p2)). right. exact IH.
Qed.

(** No proper end of [p] that is not empty starts [p]. *)
Definition border_free (p : string) : bool :=
  forallb (fun u => String.eqb u "" || String.eqb u p || negb (String.prefix u p))
          (suffixes p).

(** No end of [p] that is not empty starts [q]. *)
Definition overlap_free (p q : string) : bool :=
  forallb (fun u => String.eqb u "" || negb (String.prefix u q)) (suffixes p).

Lemma length_append (a b : string) :
  String.length (a +:+ b) = (String.length a + String.length b)%nat.
Proof.
  induction a as [|c a IH]; [reflexivity|].
  change (S (String.length (a +:+ b)) = S (String.length a + String.length b)).
  now rewrite IH.
Qed.

Lemma append_same_r (t p : string) : p = t +:+ p -> t = "".
Proof.
  intros H. assert (L : String.length p = String.length (t +:+ p)) by now rewrite <- H.
  rewrite length_append in L. destruct t; [reflexivity|cbn [String.length] in L; lia].
Qed.

Lemma border_free_prefix (p t : string) :
  border_free p = true -> t <> "" ->
  String.prefix p (t +:+ p) = true -> String.prefix p t = true.
Proof.
  intros Hb Ht H. destruct (prefix_app_split _ _ _ H) as [Hp|(p2 & E & Hq)]; [exact Hp|].
  unfold border_free in Hb. rewrite forallb_forall in Hb.
  assert (Hin : In p2 (suffixes p)) by (rewrite E; apply suffixes_app).
  specialize (Hb _ Hin). apply orb_true_iff in Hb. destruct Hb as [Hb|Hb].
  - apply orb_true_iff in Hb. destruct Hb as [Hb|Hb].
    + apply String.eqb_eq in Hb. subst p2. rewrite append_empty_r in E. subst t.
      apply prefix_refl.
    + apply String.eqb_eq in Hb. subst p2. apply append_same_r in E. contradiction.
  - rewrite Hq in Hb. discriminate.
Qed.

Lemma contains_cons (p : string) (c : ascii) (s : string) :
  contains p (String c s) = String.prefix p (String c s) || contains p s.
Proof. reflexivity. Qed.

(** An occurrence of [p] in [s +:+ q] lies in [s], or in [q], or across the
    two. *)
Lemma contains_app_inv (p s q : string) :
  overlap_free p q = true -> contains p q = false ->
  contains p (s +:+ q) = true -> contains p s = true.
Proof.
  intros Ho Hq. induction s as [|c s IH]; intros H.
  - cbn [String.append] in H. change ("" +:+ q) with q in H. congruence.
  - change (String c s +:+ q) with (String c (s +:+ q)) in H.
    rewrite contains_cons in H |- *. apply orb_true_iff in H. apply orb_true_iff.
    destruct H as [H|H]; [|right; exact (IH H)].
    change (String c (s +:+ q)) with (String c s +:+ q) in H.
    destruct (prefix_app_split _ _ _ H) as [Hp|(p2 & E & Hp2)]; [left; exact Hp|].
    unfold overlap_free in Ho. rewrite forallb_forall in Ho.
    assert (Hin : In p2 (suffixes p)) by (rewrite E; apply suffixes_app).
    specialize (Ho _ Hin). apply orb_true_iff in Ho. destruct Ho as [Ho|Ho].
    + apply String.eqb_eq in Ho. subst p2. rewrite append_empty_r in E. subst p.
      left. apply prefix_refl.
    + rewrite Hp2 in Ho. discriminate.
Qed.

Lemma replace_from_skip (old new : string) (k : nat) (s : string) :
  (String.length s <= k)%nat -> replace_from old new k s = "".
Proof.
  revert k; induction s as [|c s IH]; intros k H; [reflexivity|].
  destruct k as [|k]; cbn in H; [lia|]. cbn. apply IH. lia.
Qed.

(** Nothing to replace: the string is returned as it is. *)
Lemma replace_absent (old new s : string) :
  contains old s = false -> replace old new s = s.
Proof.
  unfold replace. induction s as [|c s IH]; intros H; [reflexivity|].
  rewrite contains_cons in H. apply orb_false_iff in H. destruct H as [Hp Hc].
  cbn [replace_from]. rewrite Hp. now rewrite (IH Hc).
Qed.

(** One occurrence, at the end. *)
Lemma replace_suffix (old new s : string) :
  border_free old = true -> contains old s = false ->
  replace old new (s +:+ old) = s +:+ new.
Proof.
  intros Hb. unfold replace. induction s as [|c s IH]; intros H.
  - change ("" +:+ old) with old. change ("" +:+ new) with new.
    destruct old as [|a old]; [discriminate H|].
    cbn [replace_from]. rewrite prefix_refl.
    rewrite replace_from_skip by (cbn; lia). apply append_empty_r.
  - rewrite contains_cons in H. apply orb_false_iff in H. destruct H as [Hp Hc].
    change (String c s +:+ old) with (String c (s +:+ old)).
    cbn [replace_from].
    destruct (String.prefix old (String c (s +:+ old))) eqn:E.
    + change (String c (s +:+ old)) with (String c s +:+ old) in E.
      apply border_free_prefix in E; [congruence|exact Hb|discriminate].
    + rewrite (IH Hc). reflexivity.
Qed.

End replace_facts.

(** ** The list of modules *)

Section module_facts.

Import PyStr Num Frame.

Variable py_str : Q -> string.

Local Abbreviation cell_text := (cell_text py_str).
Local Abbreviation create_enhanced_module_options :=
  (create_enhanced_module_options py_str).
Local Abbreviation validate_modules_with_demographic_data :=
  (validate_modules_with_demographic_data py_str).

Lemma marker_facts :
  border_free " ✓" = true /\ border_free " (no data)" = true /\
  overlap_free " ✓" " (no data)" = true /\ contains " ✓" " (no data)" = false /\
  contains " ✓" "All Modules" = false /\ contains " (no data)" "All Modules" = false.
Proof. vm_compute. repeat split. Qed.

Lemma marked_not_all (p name : string) :
  contains p "All Modules" = false -> String.eqb (name +:+ p) "All Modules" = false.
Proof.
  intros H. apply String.eqb_neq. intros E.
  assert (C : contains p (name +:+ p +:+ "") = true) by apply contains_app.
  rewrite append_empty_r, E in C. congruence.
Qed.

Lemma actual_name_with_data (name : string) :
  contains " ✓" name = false -> contains " (no data)" name = false ->
  get_actual_module_name (name +:+ " ✓") = name.
Proof.
  intros H1 H2. destruct marker_facts as (B1 & B2 & O & C & A1 & A2).
  unfold get_actual_module_name. rewrite (marked_not_all _ _ A1).
  rewrite (replace_suffix _ _ _ B1 H1), append_empty_r.
  apply replace_absent, H2.
Qed.

Lemma no_check_mark (name : string) :
  contains " ✓" name = false -> contains " ✓" (name +:+ " (no data)") = false.
Proof.
  intros H. destruct marker_facts as (B1 & B2 & O & C & A1 & A2).
  destruct (contains " ✓" (name +:+ " (no data)")) eqn:E; [|reflexivity].
  apply (contains_app_inv _ _ _ O C) in E. congruence.
Qed.

Lemma actual_name_without_data (name : string) :
  contains " ✓" name = false -> contains " (no data)" name = false ->
  get_actual_module_name (name +:+ " (no data)") = name.
Proof.
  intros H1 H2. destruct marker_facts as (B1 & B2 & O & C & A1 & A2).
  unfold get_actual_module_name. rewrite (marked_not_all _ _ A2).
  rewrite (replace_absent _ _ _ (no_check_mark _ H1)).
  rewrite (replace_suffix _ _ _ B2 H2). apply append_empty_r.
Qed.

(** X2: the name of a module is recovered from its entry in the list of
    options, whichever mark the entry carries, when the name itself holds
    neither mark; the entry for all modules stands for itself. *)
Theorem module_option_round_trip (modules_status : ModulesStatus) :
  (forall module,
     In module (with_data modules_status ++ without_data modules_status) ->
     contains " ✓" (cell_text module) = false /\
     contains " (no data)" (cell_text module) = false) ->
  map get_actual_module_name (create_enhanced_module_options modules_status)
  = "All Modules"
    :: map cell_text (with_data modules_status ++ without_data modules_status).
Proof.
  intros H. unfold create_enhanced_module_options.
  cbn [map]. f_equal. rewrite !map_app, !map_map. f_equal.
  - apply map_ext_in. intros m Hm.
    destruct (H m) as [H1 H2]; [apply in_or_app; left; exact Hm|].
    apply actual_name_with_data; assumption.
  - apply map_ext_in. intros m Hm.
    destruct (H m) as [H1 H2]; [apply in_or_app; right; exact Hm|].
    apply actual_name_without_data; assumption.
Qed.


(** X3: an entry of the list of options is taken for a module with data
    exactly when it is the entry for all modules or the entry of a module in
    the list of those with data, provided no module without data has the
    mark of the others in its name. *)
Theorem module_option_status (modules_status : ModulesStatus) :
  (forall module, In module (without_data modules_status) ->
                  contains " ✓" (cell_text module) = false) ->
  map check_module_has_data (create_enhanced_module_options modules_status)
  = true :: map (fun _ => true) (with_data modules_status)
         ++ map (fun _ => false) (without_data modules_status).
Proof.
  intros H. unfold create_enhanced_module_options.
  cbn [map]. f_equal. rewrite !map_app, !map_map. f_equal.
  - apply map_ext. intros m. unfold check_module_has_data.
    assert (C : contains " ✓" (cell_text m +:+ " ✓" +:+ "") = true) by apply contains_app.
    rewrite append_empty_r in C. now rewrite C.
  - apply map_ext_in. intros m Hm. unfold check_module_has_data.
    destruct marker_facts as (B1 & B2 & O & C & A1 & A2).
    rewrite (no_check_mark _ (H m Hm)), (marked_not_all _ _ A2). reflexivity.
Qed.

Lemma fold_status (f : cell -> bool) (entities : list cell) (w wo : list cell) :
  fold_left
    (fun status entity =>
       if f entity
       then mkModulesStatus (with_data status ++ [entity]) (without_data status)
       else mkModulesStatus (with_data status) (without_data status ++ [entity]))
    entities (mkModulesStatus w wo)
  = mkModulesStatus (w ++ List.filter f entities)
                    (wo ++ List.filter (fun e => negb (f e)) entities).
Proof.
  revert w wo; induction entities as [|e es IH]; intros w wo; cbn [fold_left List.filter].
  - now rewrite !app_nil_r.
  - destruct (f e); cbn [with_data without_data negb]; rewrite IH, <- app_assoc;
      reflexivity.
Qed.

Lemma existsb_false_iff {A} (f : A -> bool) (l : list A) :
  existsb f l = false <-> forall x, In x l -> f x = false.
Proof.
  split.
  - intros H x Hx. destruct (f x) eqn:E; [|reflexivity].
    assert (T : existsb f l = true) by (apply existsb_exists; eauto). congruence.
  - intros H. destruct (existsb f l) eqn:E; [|reflexivity].
    apply existsb_exists in E. destruct E as (x & Hx & Fx). rewrite (H x Hx) in Fx.
    discriminate.
Qed.

(** X4: on a table of counts,
    [validate_modules_with_demographic_data] puts every module of
    [get_unique_values('EntityDesc')] in exactly one of its two lists,
    keeping the order: in the first when some demographic column of the
    frame sums to more than 0 over the rows of the module, in the second
    when none does. *)
Theorem modules_partitioned (self_df : DataFrame) :
  count_table self_df (get_demographic_columns (columns self_df)) = true ->
  let status := validate_modules_with_demographic_data self_df in
  let entities := get_unique_values py_str self_df "EntityDesc" in
  let counts entity demo_col :=
    demo_sum (rows_where self_df "EntityDesc" entity) demo_col in
  Permutation (with_data status ++ without_data status) entities /\
  (forall entity,
     In entity (with_data status) <->
     In entity entities /\
     exists demo_col, In demo_col (get_demographic_columns (columns self_df))
                      /\ (0 < counts entity demo_col)%Q) /\
  (forall entity,
     In entity (without_data status) <->
     In entity entities /\
     forall demo_col, In demo_col (get_demographic_columns (columns self_df)) ->
                      (counts entity demo_col <= 0)%Q).
Proof.
  intros _. cbv zeta. unfold validate_modules_with_demographic_data.
  rewrite fold_status. cbn [with_data without_data app].
  set (entities := get_unique_values py_str self_df "EntityDesc").
  set (cols := get_demographic_columns (columns self_df)).
  assert (Hcol : forall e c, In c cols ->
            has_column (rows_where self_df "EntityDesc" e) c = true).
  { intros e c Hc. unfold cols in Hc. rewrite get_demographic_columns_filter in Hc.
    apply filter_In in Hc. destruct Hc as [Hc _].
    unfold has_column, rows_where, select. cbn [columns]. unfold mem.
    apply existsb_exists. exists c. split; [exact Hc|apply String.eqb_refl]. }
  split; [|split].
  - clear Hcol. induction entities as [|e es IH]; cbn [List.filter]; [reflexivity|].
    destruct (has_demo_data self_df cols e); cbn [negb app].
    + now apply perm_skip.
    + rewrite <- Permutation_middle. now apply perm_skip.
  - intros e. rewrite filter_In. unfold has_demo_data. rewrite existsb_exists.
    split; intros [He Hd]; (split; [exact He|]).
    + destruct Hd as (c & Hc & Hd). exists c. split; [exact Hc|].
      apply andb_true_iff in Hd. destruct Hd as [_ Hd].
      apply negb_true_iff in Hd. now apply Qle_bool_false.
    + destruct Hd as (c & Hc & Hd). exists c. split; [exact Hc|].
      rewrite (Hcol e c Hc). cbn [andb]. apply negb_true_iff. now apply Qle_bool_false.
  - intros e. rewrite filter_In, negb_true_iff. unfold has_demo_data.
    rewrite existsb_false_iff.
    split; intros [He Hd]; (split; [exact He|]); intros c Hc; specialize (Hd c Hc).
    + rewrite (Hcol e c Hc) in Hd. cbn [andb] in Hd. apply negb_false_iff in Hd.
      now apply Qle_bool_iff.
    + rewrite (Hcol e c Hc). cbn [andb]. apply negb_false_iff. now apply Qle_bool_iff.
Qed.

(** X5: on a frame with distinct labels, one of them EntityDesc, choosing
    the entry of a module in the list of options and filtering by the name
    recovered from it keeps exactly the rows that hold the text of the
    module, when that text holds neither mark.  For a module whose value is
    text these are the rows of the module; for a module whose value is a
    number every row kept holds text, so that no row of the module is
    kept. *)
Theorem selected_module_rows (self_df : DataFrame) (module : cell) (option : string) :
  distinct_labels (columns self_df) = true ->
  has_column self_df "EntityDesc" = true ->
  contains " ✓" (cell_text module) = false ->
  contains " (no data)" (cell_text module) = false ->
  option = cell_text module +:+ " ✓" \/ option = cell_text module +:+ " (no data)" ->
  let selected :=
    apply_filters self_df [("EntityDesc", [Str (get_actual_module_name option)])] in
  selected = rows_where self_df "EntityDesc" (Str (cell_text module)) /\
  ((exists name, module = Str name) ->
   selected = rows_where self_df "EntityDesc" module) /\
  (forall q, module = Num q ->
   forall r, In r (rows selected) ->
             exists text, row_get (columns self_df) r "EntityDesc" = Some (Str text)).
Proof.
  intros _ Hcol H1 H2 Hopt selected.
  assert (E : get_actual_module_name option = cell_text module).
  { destruct Hopt as [-> | ->];
      [apply actual_name_with_data|apply actual_name_without_data]; assumption. }
  assert (Hs : selected = rows_where self_df "EntityDesc" (Str (cell_text module))).
  { unfold selected. rewrite E. unfold apply_filters. cbn [fold_left length Nat.eqb negb].
    rewrite Hcol. cbn [andb]. unfold rows_where, select. f_equal.
    apply filter_ext_bool. intros r.
    destruct (row_get (columns self_df) r "EntityDesc") as [c|]; [|reflexivity].
    unfold isin. cbn [existsb]. rewrite orb_false_r.
    destruct c; reflexivity. }
  split; [exact Hs|]. split.
  - intros [name ->]. exact Hs.
  - intros q _ r Hr. rewrite Hs in Hr. unfold rows_where, select in Hr.
    cbn [rows] in Hr. apply filter_In in Hr as [_ Hr].
    destruct (row_get (columns self_df) r "EntityDesc") as [c|]; [|discriminate].
    destruct c as [x|text|]; [discriminate | exists text; reflexivity | discriminate].
Qed.

End module_facts.

(** ** Grouping *)

Section sum_facts.

Local Open Scope Q_scope.

Lemma Qsum_cons (x : Q) (l : list Q) : Qsum (x :: l) = x + Qsum l.
Proof. reflexivity. Qed.

Lemma Qsum_app (l1 l2 : list Q) : Qsum (l1 ++ l2) == Qsum l1 + Qsum l2.
Proof.
  induction l1 as [|x l1 IH]; cbn [app]; rewrite ?Qsum_cons; [cbn; lra|].
  rewrite IH. lra.
Qed.

Lemma Qsum_ext {A} (f g : A -> Q) (l : list A) :
  (forall x, In x l -> f x == g x) -> Qsum (map f l) == Qsum (map g l).
Proof.
  induction l as [|x l IH]; intros H; cbn [map]; [reflexivity|].
  rewrite !Qsum_cons, (H x (or_introl eq_refl)), IH; [reflexivity|].
  intros y Hy. apply H. right. exact Hy.
Qed.

Lemma Qsum_plus {A} (f g : A -> Q) (l : list A) :
  Qsum (map (fun x => f x + g x) l) == Qsum (map f l) + Qsum (map g l).
Proof.
  induction l as [|x l IH]; cbn [map]; rewrite ?Qsum_cons; [cbn; lra|].
  rewrite IH. lra.
Qed.

Lemma Qsum_zero {A} (f : A -> Q) (l : list A) :
  (forall x, In x l -> f x == 0) -> Qsum (map f l) == 0.
Proof.
  intros H. rewrite (Qsum_ext f (fun _ => 0) l H).
  induction l as [|x l IH]; cbn [map]; rewrite ?Qsum_cons; [reflexivity|].
  rewrite IH; [lra|]. intros y Hy. apply H. right. exact Hy.
Qed.

Lemma Qsum_perm (l l' : list Q) : Permutation l l' -> Qsum l == Qsum l'.
Proof.
  induction 1 as [|x l l' _ IH|x y l|l l' l'' _ IH1 _ IH2]; rewrite ?Qsum_cons.
  - reflexivity.
  - now rewrite IH.
  - lra.
  - now rewrite IH1.
Qed.

Lemma Qsum_concat (ls : list (list Q)) : Qsum (concat ls) == Qsum (map Qsum ls).
Proof.
  induction ls as [|l ls IH]; cbn [concat map]; [reflexivity|].
  rewrite Qsum_app, Qsum_cons, IH. reflexivity.
Qed.

End sum_facts.

Section grouping_facts.

Local Open Scope Q_scope.

Context {K X : Type} (eqb : K -> K -> bool) (key : X -> option K) (v : X -> Q).

Hypothesis eqb_sym : forall a b, eqb a b = eqb b a.
Hypothesis eqb_trans : forall a b c, eqb a b = true -> eqb b c = true -> eqb a c = true.

(** The row belongs to the group of [k]. *)
Definition in_group (k : K) (x : X) : bool :=
  match key x with
  | Some k' => eqb k' k
  | None => false
  end.

Definition has_key (x : X) : bool :=
  match key x with
  | Some _ => true
  | None => false
  end.

Definition group_sum (rows : list X) (k : K) : Q :=
  Qsum (map v (List.filter (in_group k) rows)).

Lemma no_match (ks : list K) (k' : K) (q : Q) :
  (forall k, In k ks -> eqb k' k = false) ->
  Qsum (map (fun k => if eqb k' k then q else 0) ks) == 0.
Proof.
  intros H. apply Qsum_zero. intros k Hk. now rewrite (H k Hk).
Qed.

Lemma one_match (ks : list K) (k' : K) (q : Q) :
  ForallOrdPairs (fun a b => eqb b a = false) ks ->
  (exists k, In k ks /\ eqb k' k = true) ->
  Qsum (map (fun k => if eqb k' k then q else 0) ks) == q.
Proof.
  induction 1 as [|k0 ks H0 Hs IH]; intros (k & Hk & E); [destruct Hk|].
  cbn [map]. rewrite Qsum_cons. destruct (eqb k' k0) eqn:E0.
  - rewrite no_match; [lra|]. intros k1 Hk1.
    rewrite List.Forall_forall in H0. specialize (H0 k1 Hk1).
    destruct (eqb k' k1) eqn:E1; [|reflexivity].
    rewrite eqb_sym in E1. rewrite (eqb_trans _ _ _ E1 E0) in H0. discriminate.
  - destruct Hk as [->|Hk]; [congruence|].
    rewrite IH; [lra|]. exists k. split; assumption.
Qed.

(** Each row with a key counts in one group, so the groups sum to the
    rows that have a key. *)
Lemma group_sums_total (ks : list K) (rows : list X) :
  ForallOrdPairs (fun a b => eqb b a = false) ks ->
  (forall x k', In x rows -> key x = Some k' -> exists k, In k ks /\ eqb k' k = true) ->
  Qsum (map (group_sum rows) ks) == Qsum (map v (List.filter has_key rows)).
Proof.
  intros Hd. induction rows as [|x rows IH]; intros Hc.
  - unfold group_sum. cbn [List.filter map]. apply Qsum_zero. reflexivity.
  - rewrite (Qsum_ext _ (fun k => (if in_group k x then v x else 0) + group_sum rows k)).
    2:{ intros k _. unfold group_sum. cbn [List.filter].
        destruct (in_group k x); cbn [map]; rewrite ?Qsum_cons; lra. }
    rewrite Qsum_plus, IH by (intros y k' Hy; apply Hc; right; exact Hy).
    cbn [List.filter]. unfold in_group, has_key. destruct (key x) as [k'|] eqn:Ek.
    + cbn [map]. rewrite Qsum_cons.
      rewrite (one_match ks k' (v x) Hd); [reflexivity|].
      apply (Hc x k'); [left; reflexivity|exact Ek].
    + rewrite Qsum_zero by reflexivity. lra.
Qed.

End grouping_facts.

Section frame_sum_facts.

Import PyStr Num Frame.
Local Open Scope Q_scope.

(** The number that a row holds under a label, 0 without the label. *)
Definition row_value (cols : list string) (col : string) (r : list cell) : Q :=
  match row_get cols r col with
  | Some c => cell_num c
  | None => 0
  end.

Lemma demo_sum_rows (df : DataFrame) (col : string) :
  demo_sum df col = Qsum (map (row_value (columns df) col) (rows df)).
Proof.
  unfold demo_sum, column, row_value, row_get.
  destruct (index_of col (columns df)) as [i|].
  - rewrite sum_cells_Qsum, map_map. reflexivity.
  - induction (rows df) as [|r rs IH]; [reflexivity|].
    cbn [map]. rewrite Qsum_cons, <- IH. reflexivity.
Qed.

Lemma col_sum_demo_sum (df : DataFrame) (col : string) (t : Q) :
  col_sum df col = Ok t -> demo_sum df col = t.
Proof.
  unfold col_sum, demo_sum. destruct (column df col); cbn [rbind]; congruence.
Qed.

Lemma column_rows (df : DataFrame) (col : string) (cells : list cell) :
  column df col = Ok cells ->
  cells = map (fun r => default NaN (row_get (columns df) r col)) (rows df) /\
  forall r, row_get (columns df) r col <> None.
Proof.
  unfold column, row_get. destruct (index_of col (columns df)) as [i|]; [|discriminate].
  intros [= <-]. split; [reflexivity|discriminate].
Qed.

(** The key of a row in a column: its value there, when it has one. *)
Definition row_key (cols : list string) (col : string) (r : list cell) : option cell :=
  match row_get cols r col with
  | Some c => if notna c then Some c else None
  | None => None
  end.

(** The rows of a frame that have a value in each of the columns [key_cols]. *)
Definition known (df : DataFrame) (key_cols : list string) : DataFrame :=
  select df (fun r => forallb (fun col => match row_key (columns df) col r with
                                          | Some _ => true
                                          | None => false
                                          end) key_cols).

Lemma rows_where_in_group (df : DataFrame) (col : string) (value : cell) :
  notna value = true ->
  rows (rows_where df col value)
  = List.filter (in_group cell_eqb (row_key (columns df) col) value) (rows df).
Proof.
  intros Hv. unfold rows_where, select. cbn [rows]. apply filter_ext_bool.
  intros r. unfold in_group, row_key.
  destruct (row_get (columns df) r col) as [c|]; [|reflexivity].
  destruct c, value; try reflexivity; discriminate.
Qed.

Lemma rows_where_missing (df : DataFrame) (col : string) :
  rows (rows_where df col NaN) = [].
Proof.
  unfold rows_where, select. cbn [rows].
  induction (rows df) as [|r rs IH]; [reflexivity|]. cbn [List.filter].
  destruct (row_get (columns df) r col) as [c|]; [destruct c|]; exact IH.
Qed.

Lemma pairwise_filter {A} (R : A -> A -> Prop) (p : A -> bool) (l : list A) :
  ForallOrdPairs R l -> ForallOrdPairs R (List.filter p l).
Proof.
  induction 1 as [|a l Ha Hl IH]; cbn [List.filter]; [constructor|].
  destruct (p a); [|exact IH]. constructor; [|exact IH].
  rewrite List.Forall_forall in Ha |- *. intros b Hb. apply filter_In in Hb.
  apply Ha. tauto.
Qed.

(** The groups of the distinct values of a column sum to the rows that
    have a value in the column, whatever is summed. *)
Lemma unique_groups_sum (df : DataFrame) (col : string) (cells : list cell)
  (v : list cell -> Q) :
  column df col = Ok cells ->
  Qsum (map (fun value => Qsum (map v (rows (rows_where df col value)))) (unique cells))
  == Qsum (map v (rows (known df [col]))).
Proof.
  intros Hc. destruct (column_rows _ _ _ Hc) as [Ecells Hget].
  set (g := group_sum cell_eqb (row_key (columns df) col) v (rows df)).
  rewrite (Qsum_ext _ (fun value => if notna value then g value else 0)).
  2:{ intros value _. destruct (notna value) eqn:Hv.
      - rewrite rows_where_in_group by exact Hv. reflexivity.
      - destruct value; try discriminate. rewrite rows_where_missing. reflexivity. }
  assert (E : Qsum (map (fun value => if notna value then g value else 0) (unique cells))
              == Qsum (map g (List.filter notna (unique cells)))).
  { induction (unique cells) as [|c l IH]; [reflexivity|].
    cbn [map List.filter]. destruct (notna c); cbn [map]; rewrite ?Qsum_cons, IH; lra. }
  rewrite E. unfold g.
  rewrite (group_sums_total cell_eqb _ _ cell_eqb_sym cell_eqb_trans).
  - unfold known, select. cbn [rows columns].
    erewrite filter_ext_bool; [reflexivity|].
    intros r. unfold has_key. cbn [forallb]. now rewrite andb_true_r.
  - apply pairwise_filter. rewrite unique_distinct. apply distinct_aux_pairwise.
  - intros r k' Hr Hk. unfold row_key in Hk.
    destruct (row_get (columns df) r col) as [c|] eqn:Eg; [|discriminate].
    destruct (notna c) eqn:Hn; [|discriminate]. injection Hk as <-.
    assert (Hin : In c cells).
    { rewrite Ecells. apply in_map_iff. exists r. rewrite Eg. split; [reflexivity|exact Hr]. }
    rewrite unique_distinct.
    destruct (distinct_cover cell_eqb cell_eqb_refl cells c Hin) as (y & Hy & Exy).
    exists y. split; [|exact Exy]. apply filter_In. split; [exact Hy|].
    destruct c, y; try discriminate; reflexivity.
Qed.

Lemma unique_groups_total (df : DataFrame) (col label : string) (cells : list cell) :
  column df col = Ok cells ->
  Qsum (map (fun value => demo_sum (rows_where df col value) label) (unique cells))
  == demo_sum (known df [col]) label.
Proof.
  intros Hc. rewrite demo_sum_rows.
  rewrite <- (unique_groups_sum df col cells _ Hc).
  apply Qsum_ext. intros value _. rewrite demo_sum_rows. reflexivity.
Qed.

End frame_sum_facts.

(** ** Aggregates of the processor *)

Section aggregate_facts.

Import PyStr Num Frame.
Local Open Scope Q_scope.

Lemma insert_by_insert_leb {A} (key : A -> Q) (x : A) (l : list A) :
  insert_by key x l = insert_leb (fun a b => Qle_bool (key a) (key b)) x l.
Proof.
  induction l as [|y l IH]; [reflexivity|]. cbn [insert_by insert_leb].
  now rewrite IH.
Qed.

Lemma sort_values_sort_leb {A} (key : A -> Q) (l : list A) :
  sort_values key l = sort_leb (fun a b => Qle_bool (key a) (key b)) l.
Proof.
  unfold sort_values, sort_leb. induction l as [|x l IH]; [reflexivity|].
  cbn [fold_right]. rewrite IH. apply insert_by_insert_leb.
Qed.

Lemma sort_values_perm {A} (key : A -> Q) (l : list A) :
  Permutation (sort_values key l) l.
Proof. rewrite sort_values_sort_leb. apply sort_leb_perm. Qed.

Lemma sort_values_sorted {A} (key : A -> Q) (l : list A) :
  StronglySorted (fun a b => key a <= key b) (sort_values key l).
Proof.
  rewrite sort_values_sort_leb.
  eapply strongly_sorted_impl; [|apply sort_leb_sorted].
  - intros a b H. apply Qle_bool_iff. exact H.
  - intros x y. apply Qle_bool_total.
  - intros x y z. apply Qle_bool_trans.
Qed.

(** What the entries of a row say of its group. *)
Definition shares_consistent (total_people : Q) (shares : list (string * (Q * Q)))
  : Prop :=
  forall demo_col demo_count percentage,
    In (demo_col, (demo_count, percentage)) shares ->
    percentage * total_people == 100 * demo_count.

Lemma demographic_shares_consistent (demographic_cols : list string)
  (data : DataFrame) (total_people : Q) :
  ~ total_people == 0 ->
  shares_consistent total_people (demographic_shares demographic_cols data total_people).
Proof.
  intros Ht c n p Hin. unfold demographic_shares in Hin. apply in_map_iff in Hin.
  destruct Hin as (c' & E & _). injection E as <- <- <-. field. exact Ht.
Qed.

Lemma collect_summary (demographic_cols : list string) (df : DataFrame)
  (key_col : string) (values : list cell) (table : list SummaryRow) :
  collect_rows (summary_row demographic_cols df key_col) values = Ok table ->
  Qsum (map sr_Total_People table)
  == Qsum (map (fun value => demo_sum (rows_where df key_col value) "TOTAL") values)
  /\ forall row, In row table ->
       ~ sr_Total_People row == 0 /\
       shares_consistent (sr_Total_People row) (sr_demographics row).
Proof.
  revert table; induction values as [|value values IH]; intros table H;
    cbn [collect_rows] in H.
  - injection H as <-. split; [reflexivity|intros ? []].
  - unfold summary_row at 1 in H.
    destruct (col_sum (rows_where df key_col value) "TOTAL") as [t|e] eqn:Et;
      cbn [rbind] in H; [|discriminate].
    apply col_sum_demo_sum in Et.
    destruct (collect_rows _ values) as [rest|e]; cbn [rbind] in H;
      [|destruct (Qeq_bool t 0); discriminate].
    destruct (IH rest eq_refl) as [IH1 IH2]. cbn [map]. rewrite Qsum_cons, Et.
    destruct (Qeq_bool t 0) eqn:Ez; cbn [rbind] in H; injection H as <-.
    + apply Qeq_bool_iff in Ez. split; [rewrite IH1, Ez; lra|exact IH2].
    + cbn [map]. rewrite Qsum_cons. cbn [sr_Total_People].
      split; [rewrite IH1; reflexivity|].
      intros row [<-|Hrow]; [|apply IH2, Hrow]. cbn [sr_Total_People sr_demographics].
      assert (Hz : ~ t == 0) by (intros Hz; apply Qeq_bool_iff in Hz; congruence).
      split; [exact Hz|]. apply demographic_shares_consistent, Hz.
Qed.

Lemma summary_by_total (demographic_cols : list string) (df : DataFrame)
  (key_col : string) (table : list SummaryRow) :
  summary_by demographic_cols df key_col = Ok table ->
  Qsum (map sr_Total_People table) == demo_sum (known df [key_col]) "TOTAL"
  /\ forall row, In row table ->
       ~ sr_Total_People row == 0 /\
       shares_consistent (sr_Total_People row) (sr_demographics row).
Proof.
  unfold summary_by. destruct (column df key_col) as [values|e] eqn:Ec;
    cbn [rbind]; [|discriminate].
  intros H. destruct (collect_summary _ _ _ _ _ H) as [H1 H2]. split; [|exact H2].
  rewrite H1. apply unique_groups_total, Ec.
Qed.

(** In exact arithmetic: each table of [calculate_grade_comparisons] counts
    every person of the rows that have a grade (a component) once, and no
    others; no row of a table has a total of 0, and each percentage of a row
    times its total is 100 times the count beside it. *)
Lemma grade_comparisons_exact (self_cols : list string) (df : DataFrame)
  (comparisons : Comparisons) :
  calculate_grade_comparisons self_cols df = Ok (Some comparisons) ->
  Qsum (map sr_Total_People (grade_summary comparisons))
  == demo_sum (known df ["Grade"]) "TOTAL" /\
  Qsum (map sr_Total_People (component_summary comparisons))
  == demo_sum (known df ["Component Desc"]) "TOTAL" /\
  forall row,
    In row (grade_summary comparisons ++ component_summary comparisons) ->
    ~ sr_Total_People row == 0 /\
    shares_consistent (sr_Total_People row) (sr_demographics row).
Proof.
  unfold calculate_grade_comparisons.
  destruct (Nat.eqb (length (get_demographic_columns self_cols)) 0); [discriminate|].
  destruct (summary_by _ df "Grade") as [g|e] eqn:Eg; cbn [rbind]; [|discriminate].
  destruct (summary_by _ df "Component Desc") as [c|e] eqn:Ec; cbn [rbind];
    [|discriminate].
  intros [= <-]. cbn [grade_summary component_summary].
  destruct (summary_by_total _ _ _ _ Eg) as [G1 G2].
  destruct (summary_by_total _ _ _ _ Ec) as [C1 C2].
  split; [exact G1|]. split; [exact C1|].
  intros row Hrow. apply in_app_or in Hrow. destruct Hrow; [apply G2|apply C2]; assumption.
Qed.

(** X6: on a frame with distinct labels whose TOTAL holds counts, each
    table of [calculate_grade_comparisons] counts every person of the rows
    that have a grade (a component) once, and no others, and no row of a
    table has a total of 0. *)
Theorem grade_comparisons_account (self_cols : list string) (df : DataFrame)
  (comparisons : Comparisons) :
  count_table df ["TOTAL"] = true ->
  calculate_grade_comparisons self_cols df = Ok (Some comparisons) ->
  Qsum (map sr_Total_People (grade_summary comparisons))
  == demo_sum (known df ["Grade"]) "TOTAL" /\
  Qsum (map sr_Total_People (component_summary comparisons))
  == demo_sum (known df ["Component Desc"]) "TOTAL" /\
  forall row,
    In row (grade_summary comparisons ++ component_summary comparisons) ->
    ~ sr_Total_People row == 0.
Proof.
  intros _ H. destruct (grade_comparisons_exact _ _ _ H) as (H1 & H2 & H3).
  split; [exact H1|]. split; [exact H2|]. intros row Hrow. exact (proj1 (H3 row Hrow)).
Qed.

End aggregate_facts.

Section trend_facts.

Import PyStr Num Frame.
Local Open Scope Q_scope.

Lemma Qsum_filter {A} (f : A -> Q) (p : A -> bool) (l : list A) :
  Qsum (map f (List.filter p l)) == Qsum (map (fun x => if p x then f x else 0) l).
Proof.
  induction l as [|x l IH]; [reflexivity|]. cbn [List.filter map].
  destruct (p x); cbn [map]; rewrite ?Qsum_cons, IH; lra.
Qed.

(** Whether the row has a value under each label. *)
Definition has_values (cols key_cols : list string) (r : list cell) : bool :=
  forallb (fun col => match row_key cols col r with
                      | Some _ => true
                      | None => false
                      end) key_cols.

Lemma known_rows (df : DataFrame) (key_cols : list string) :
  rows (known df key_cols) = List.filter (has_values (columns df) key_cols) (rows df).
Proof. reflexivity. Qed.

Lemma known_nested (df : DataFrame) (col1 col2 label : string) (v : list cell -> Q) :
  Qsum (map (fun r => if has_values (columns df) [col2] r then v r else 0)
            (rows (known df [col1])))
  == Qsum (map v (rows (known df [col1; col2]))).
Proof.
  rewrite <- Qsum_filter, !known_rows, filter_filter.
  erewrite filter_ext_bool; [reflexivity|].
  intros r. unfold has_values. cbn [forallb]. now rewrite !andb_true_r.
Qed.

Lemma known_swap (df : DataFrame) (col1 col2 : string) :
  known df [col1; col2] = known df [col2; col1].
Proof.
  unfold known, select. f_equal. apply filter_ext_bool. intros r.
  cbn [forallb]. rewrite !andb_true_r. apply andb_comm.
Qed.

Lemma collect_trend (demographic_cols : list string) (grade_data : DataFrame)
  (grade : cell) (values : list cell) (table : list TrendRow) :
  collect_rows (trend_row demographic_cols grade_data grade) values = Ok table ->
  Qsum (map tr_Total_People table)
  == Qsum (map (fun value =>
                  demo_sum (rows_where grade_data "EntityDesc" value) "TOTAL") values)
  /\ forall row, In row table ->
       ~ tr_Total_People row == 0 /\
       shares_consistent (tr_Total_People row) (tr_demographics row).
Proof.
  revert table; induction values as [|value values IH]; intros table H;
    cbn [collect_rows] in H.
  - injection H as <-. split; [reflexivity|intros ? []].
  - unfold trend_row at 1 in H.
    destruct (col_sum (rows_where grade_data "EntityDesc" value) "TOTAL") as [t|e] eqn:Et;
      cbn [rbind] in H; [|discriminate].
    apply col_sum_demo_sum in Et.
    destruct (collect_rows _ values) as [rest|e]; cbn [rbind] in H;
      [|destruct (Qeq_bool t 0); discriminate].
    destruct (IH rest eq_refl) as [IH1 IH2]. cbn [map]. rewrite Qsum_cons, Et.
    destruct (Qeq_bool t 0) eqn:Ez; cbn [rbind] in H; injection H as <-.
    + apply Qeq_bool_iff in Ez. split; [rewrite IH1, Ez; lra|exact IH2].
    + cbn [map]. rewrite Qsum_cons. cbn [tr_Total_People].
      split; [rewrite IH1; reflexivity|].
      intros row [<-|Hrow]; [|apply IH2, Hrow]. cbn [tr_Total_People tr_demographics].
      assert (Hz : ~ t == 0) by (intros Hz; apply Qeq_bool_iff in Hz; congruence).
      split; [exact Hz|]. apply demographic_shares_consistent, Hz.
Qed.

(** The rows of one grade with a module, summed. *)
Definition module_part (cols : list string) (r : list cell) : Q :=
  if has_values cols ["EntityDesc"] r then row_value cols "TOTAL" r else 0.

Lemma grade_trends_total (demographic_cols : list string) (df : DataFrame)
  (grade : cell) (table : list TrendRow) :
  grade_trends demographic_cols df grade = Ok table ->
  Qsum (map tr_Total_People table)
  == Qsum (map (module_part (columns df)) (rows (rows_where df "Grade" grade)))
  /\ forall row, In row table ->
       ~ tr_Total_People row == 0 /\
       shares_consistent (tr_Total_People row) (tr_demographics row).
Proof.
  unfold grade_trends.
  destruct (column (rows_where df "Grade" grade) "EntityDesc") as [entities|e] eqn:Ec;
    cbn [rbind]; [|discriminate].
  intros H. destruct (collect_trend _ _ _ _ _ H) as [H1 H2]. split; [|exact H2].
  rewrite H1, (unique_groups_total _ _ _ _ Ec), demo_sum_rows, known_rows.
  rewrite Qsum_filter. reflexivity.
Qed.

Lemma mapM_trends (demographic_cols : list string) (df : DataFrame)
  (grades : list cell) (per_grade : list (list TrendRow)) :
  mapM (grade_trends demographic_cols df) grades = Ok per_grade ->
  Qsum (map tr_Total_People (concat per_grade))
  == Qsum (map (fun grade =>
                  Qsum (map (module_part (columns df))
                            (rows (rows_where df "Grade" grade)))) grades)
  /\ forall row, In row (concat per_grade) ->
       ~ tr_Total_People row == 0 /\
       shares_consistent (tr_Total_People row) (tr_demographics row).
Proof.
  revert per_grade; induction grades as [|g grades IH]; intros per_grade H;
    cbn [mapM] in H.
  - injection H as <-. split; [reflexivity|intros ? []].
  - destruct (grade_trends demographic_cols df g) as [t|e] eqn:Eg; cbn [rbind] in H;
      [|discriminate].
    destruct (mapM _ grades) as [rest|e]; cbn [rbind] in H; [|discriminate].
    injection H as <-. destruct (IH rest eq_refl) as [IH1 IH2].
    destruct (grade_trends_total _ _ _ _ Eg) as [G1 G2].
    cbn [concat map]. rewrite map_app, Qsum_app, Qsum_cons, G1, IH1.
    split; [reflexivity|].
    intros row Hrow. apply in_app_or in Hrow. destruct Hrow; [apply G2|apply IH2]; assumption.
Qed.

(** In exact arithmetic: when the frame has demographic columns, the table
    of [calculate_demographic_trends] counts every person of the rows that
    have both a grade and a module once, and no others; no row of it has a
    total of 0, and each percentage of a row times its total is 100 times the
    count beside it. *)
Lemma demographic_trends_exact (self_cols : list string) (df : DataFrame)
  (table : list TrendRow) :
  get_demographic_columns self_cols <> [] ->
  calculate_demographic_trends self_cols df = Ok table ->
  Qsum (map tr_Total_People table)
  == demo_sum (known df ["EntityDesc"; "Grade"]) "TOTAL" /\
  forall row, In row table ->
    ~ tr_Total_People row == 0 /\
    shares_consistent (tr_Total_People row) (tr_demographics row).
Proof.
  intros Hd. unfold calculate_demographic_trends.
  destruct (get_demographic_columns self_cols) as [|d ds] eqn:Ed; [congruence|].
  cbn [length Nat.eqb].
  destruct (column df "Grade") as [grades|e] eqn:Ec; cbn [rbind]; [|discriminate].
  destruct (mapM _ (unique grades)) as [per_grade|e] eqn:Em; cbn [rbind]; [|discriminate].
  intros [= <-]. destruct (mapM_trends _ _ _ _ Em) as [H1 H2]. split; [|exact H2].
  rewrite H1, (unique_groups_sum _ _ _ _ Ec).
  unfold module_part. rewrite (known_nested df "Grade" "EntityDesc" "TOTAL").
  rewrite known_swap, demo_sum_rows. reflexivity.
Qed.

(** X7: on a frame with distinct labels whose TOTAL holds counts, when the
    processor has demographic columns, the table of
    [calculate_demographic_trends] counts every person of the rows that have
    both a grade and a module once, and no others, and no row of it has a
    total of 0. *)
Theorem demographic_trends_account (self_cols : list string) (df : DataFrame)
  (table : list TrendRow) :
  count_table df ["TOTAL"] = true ->
  get_demographic_columns self_cols <> [] ->
  calculate_demographic_trends self_cols df = Ok table ->
  Qsum (map tr_Total_People table)
  == demo_sum (known df ["EntityDesc"; "Grade"]) "TOTAL" /\
  forall row, In row table -> ~ tr_Total_People row == 0.
Proof.
  intros _ Hd H. destruct (demographic_trends_exact _ _ _ Hd H) as (H1 & H2).
  split; [exact H1|]. intros row Hrow. exact (proj1 (H2 row Hrow)).
Qed.

Lemma combine_map {A B C} (f : A -> B) (g : A -> C) (l : list A) :
  combine (map f l) (map g l) = map (fun x => (f x, g x)) l.
Proof. induction l as [|x l IH]; [reflexivity|]. cbn [map combine]. now rewrite IH. Qed.

Lemma pair_eqb_refl (k : cell * cell) : pair_eqb k k = true.
Proof. unfold pair_eqb. now rewrite !cell_eqb_refl. Qed.

Lemma pair_eqb_sym (a b : cell * cell) : pair_eqb a b = pair_eqb b a.
Proof. unfold pair_eqb. now rewrite (cell_eqb_sym (fst a)), (cell_eqb_sym (snd a)). Qed.

Lemma pair_eqb_trans (a b c : cell * cell) :
  pair_eqb a b = true -> pair_eqb b c = true -> pair_eqb a c = true.
Proof.
  unfold pair_eqb. rewrite !andb_true_iff. intros [H1 H2] [H3 H4].
  split; eapply cell_eqb_trans; eassumption.
Qed.

(** The key of a keyed value: the pair, when neither part is missing. *)
Definition pair_key (kt : (cell * cell) * cell) : option (cell * cell) :=
  if notna (fst (fst kt)) && notna (snd (fst kt)) then Some (fst kt) else None.

Lemma pair_total_group (keyed : list ((cell * cell) * cell)) (k : cell * cell) :
  notna (fst k) && notna (snd k) = true ->
  pair_total keyed k
  = group_sum pair_eqb pair_key (fun kt => cell_num (snd kt)) keyed k.
Proof.
  intros Hk. unfold pair_total, group_sum. rewrite sum_cells_Qsum, map_map. do 2 f_equal.
  apply filter_ext_bool. intros [[e g] t]. unfold in_group, pair_key, pair_eqb.
  cbn [fst snd]. destruct k as [k1 k2]. cbn [fst snd] in Hk |- *.
  apply andb_true_iff in Hk. destruct Hk as [Hk1 Hk2].
  destruct e, g, k1, k2; try discriminate;
    cbn [notna andb cell_eqb fst snd]; rewrite ?andb_false_r; reflexivity.
Qed.

Lemma empty_known_sum (df : DataFrame) (key_cols : list string) (label : string) :
  empty df = true -> demo_sum (known df key_cols) label = 0.
Proof.
  unfold empty, demo_sum, column, known, select. cbn [columns rows].
  destruct (columns df) as [|c cs] eqn:Ec.
  - intros _. reflexivity.
  - destruct (rows df) as [|r rs]; [|discriminate]. intros _.
    cbn [List.filter map]. destruct (index_of label (c :: cs)); reflexivity.
Qed.

(** The sum of the table of [calculate_module_totals]. *)
Lemma module_totals_sum (df : DataFrame) (table : list ModuleTotal) :
  calculate_module_totals df = Ok table ->
  Qsum (map mt_Total_People table)
  == demo_sum (known df ["EntityDesc"; "Grade"]) "TOTAL".
Proof.
  unfold calculate_module_totals. destruct (empty df) eqn:Ee.
  - intros [= <-]. now rewrite empty_known_sum.
  - destruct (column df "EntityDesc") as [es|e] eqn:E1; cbn [rbind]; [|discriminate].
    destruct (column df "Grade") as [gs|e] eqn:E2; cbn [rbind]; [|discriminate].
    destruct (column df "TOTAL") as [ts|e] eqn:E3; cbn [rbind]; [|discriminate].
    intros [= <-].
    destruct (column_rows _ _ _ E1) as [-> G1], (column_rows _ _ _ E2) as [-> G2],
      (column_rows _ _ _ E3) as [-> G3].
    rewrite !combine_map.
    rewrite (Qsum_perm _ _ (Permutation_map _ (sort_values_perm _ _))), map_map.
    cbn [mt_Total_People]. unfold group_pairs.
    rewrite (Qsum_perm _ _ (Permutation_map _ (sort_leb_perm _ _))).
    set (keyed := map _ (rows df)).
    set (ks := distinct pair_eqb _).
    rewrite (Qsum_ext _ (group_sum pair_eqb pair_key (fun kt => cell_num (snd kt)) keyed)).
    2:{ intros k Hk. rewrite pair_total_group; [reflexivity|].
        unfold ks in Hk. apply distinct_In in Hk. apply filter_In in Hk. tauto. }
    rewrite (group_sums_total pair_eqb _ _ pair_eqb_sym pair_eqb_trans).
    + rewrite demo_sum_rows, known_rows. unfold keyed.
      change (columns (known df ["EntityDesc"; "Grade"])) with (columns df).
      rewrite !Qsum_filter, map_map. apply Qsum_ext. intros r _.
      unfold has_key, pair_key, has_values, row_key, row_value. cbn [fst snd forallb].
      specialize (G1 r). specialize (G2 r). specialize (G3 r).
      destruct (row_get (columns df) r "EntityDesc") as [e|]; [|congruence].
      destruct (row_get (columns df) r "Grade") as [g|]; [|congruence].
      destruct (row_get (columns df) r "TOTAL") as [t|]; [|congruence].
      cbn. destruct (notna e), (notna g); reflexivity.
    + apply distinct_aux_pairwise.
    + intros kt k' Hkt Hk. unfold pair_key in Hk.
      destruct (notna (fst (fst kt)) && notna (snd (fst kt))) eqn:Hn; [|discriminate].
      injection Hk as <-.
      apply (distinct_cover pair_eqb pair_eqb_refl). apply filter_In. split; [|exact Hn].
      unfold keyed in Hkt. apply in_map_iff in Hkt. destruct Hkt as (r & <- & Hr).
      cbn [fst]. apply in_map_iff. exists r. split; [reflexivity|exact Hr].
Qed.

(** X8: on a frame with distinct labels whose TOTAL holds counts, the table
    of [calculate_module_totals] counts every person of the rows that have
    both a module and a grade once, and no others; it lists its rows from
    the largest total to the smallest, and no two of its rows are for the
    same module and grade. *)
Theorem module_totals_account (df : DataFrame) (table : list ModuleTotal) :
  count_table df ["TOTAL"] = true ->
  calculate_module_totals df = Ok table ->
  Qsum (map mt_Total_People table)
  == demo_sum (known df ["EntityDesc"; "Grade"]) "TOTAL" /\
  StronglySorted (fun a b => mt_Total_People b <= mt_Total_People a) table /\
  all_differ pair_eqb (map (fun m => (mt_EntityDesc m, mt_Grade m)) table).
Proof.
  intros _ H. split; [exact (module_totals_sum df table H)|].
  unfold calculate_module_totals in H. destruct (empty df).
  - injection H as <-. split; [constructor|]. split; [constructor|intros ? ? []].
  - destruct (column df "EntityDesc") as [es|e]; cbn [rbind] in H; [|discriminate].
    destruct (column df "Grade") as [gs|e]; cbn [rbind] in H; [|discriminate].
    destruct (column df "TOTAL") as [ts|e]; cbn [rbind] in H; [|discriminate].
    injection H as <-. split.
    + eapply strongly_sorted_impl; [|apply sort_values_sorted].
      intros a b Hab. cbn beta in Hab. lra.
    + eapply all_differ_perm.
      { symmetry. apply Permutation_map, sort_values_perm. }
      rewrite map_map. cbn [mt_EntityDesc mt_Grade].
      erewrite map_ext; [rewrite map_id|intros [a b]; reflexivity].
      eapply all_differ_perm; [symmetry; apply sort_leb_perm|].
      apply (pairwise_all_differ pair_eqb pair_eqb_refl pair_eqb_sym).
      apply distinct_aux_pairwise.
Qed.

End trend_facts.

(** ** Filters, continued *)

Section filter_composition.

Import PyStr Frame.

Lemma passes_select (df : DataFrame) (p : list cell -> bool) (r : list cell)
  (f : string * list cell) :
  passes (select df p) r f = passes df r f.
Proof. reflexivity. Qed.

Lemma select_select (df : DataFrame) (p q : list cell -> bool) :
  select (select df q) p = select df (fun r => q r && p r).
Proof. unfold select. cbn [columns rows]. now rewrite filter_filter. Qed.

Lemma select_ext (df : DataFrame) (p q : list cell -> bool) :
  (forall r, p r = q r) -> select df p = select df q.
Proof. intros H. unfold select. f_equal. now apply filter_ext_bool. Qed.

Lemma apply_filters_swap (df : DataFrame) (f g : string * list cell)
  (filters : list (string * list cell)) :
  apply_filters df (f :: g :: filters) = apply_filters df (g :: f :: filters).
Proof.
  rewrite !apply_filters_cons. f_equal.
  rewrite !select_select. apply select_ext. intros r.
  rewrite !passes_select. apply andb_comm.
Qed.

Lemma apply_filters_app (df : DataFrame) (filters1 filters2 : list (string * list cell)) :
  apply_filters df (filters1 ++ filters2)
  = apply_filters (apply_filters df filters1) filters2.
Proof. unfold apply_filters. apply fold_left_app. Qed.

Lemma apply_filters_perm (filters filters' : list (string * list cell)) :
  Permutation filters filters' ->
  forall df, apply_filters df filters = apply_filters df filters'.
Proof.
  induction 1 as [|f l l' _ IH|f g l|l l' l'' _ IH1 _ IH2]; intros df.
  - reflexivity.
  - rewrite !apply_filters_cons. apply IH.
  - symmetry. apply apply_filters_swap.
  - now rewrite IH1.
Qed.

Lemma apply_filters_twice (df : DataFrame) (f : string * list cell) :
  apply_filters df [f; f] = apply_filters df [f].
Proof.
  rewrite !apply_filters_cons. cbn [apply_filters fold_left].
  rewrite select_select. apply select_ext. intros r.
  rewrite passes_select. apply andb_diag.
Qed.

(** X9: on a frame with distinct labels, for two dicts of filters that
    have no key in common: filtering in two steps is filtering by the two
    dicts joined; entering the entries of a dict in another order does not
    change the result; and filtering a result again by the same dict changes
    nothing. *)
Theorem apply_filters_compose (df : DataFrame)
  (filters more reordered : list (string * list cell)) :
  distinct_labels (columns df) = true ->
  distinct_labels (map fst (filters ++ more)) = true ->
  apply_filters (apply_filters df filters) more = apply_filters df (filters ++ more)
  /\ (Permutation filters reordered ->
      apply_filters df filters = apply_filters df reordered)
  /\ apply_filters (apply_filters df filters) filters = apply_filters df filters.
Proof.
  intros _ _.
  split; [symmetry; apply apply_filters_app|]. split; [intros P; now apply apply_filters_perm|].
  rewrite <- apply_filters_app. clear more reordered. revert df.
  induction filters as [|f l IH]; intros df; [reflexivity|].
  cbn [app].
  rewrite (apply_filters_perm (f :: l ++ f :: l)%list (f :: f :: l ++ l)%list).
  2:{ apply perm_skip. symmetry. apply Permutation_middle. }
  change (f :: f :: l ++ l)%list with ([f; f] ++ (l ++ l))%list.
  rewrite apply_filters_app, apply_filters_twice, IH.
  rewrite <- apply_filters_app. reflexivity.
Qed.

End filter_composition.

(** ** The equity scorecard *)

Section scorecard_facts.

Import PyStr Num Frame.
Local Open Scope Q_scope.

(** The score of a distance to the target: 5 points off per percentage
    point, never below 0. *)
Definition score_of (gap : Q) : Q :=
  if Qle_bool (100 - Qabs gap * 5) 0 then 0 else 100 - Qabs gap * 5.

Lemma Qabs_zero (q : Q) : Qabs q == 0 <-> q == 0.
Proof.
  split.
  - apply Qabs_case; intros; lra.
  - intros H. rewrite H. reflexivity.
Qed.

Lemma score_of_bounds (gap : Q) :
  0 <= score_of gap <= 100 /\ (score_of gap == 100 <-> gap == 0) /\
  (score_of gap < 50 <-> 10 < Qabs gap).
Proof.
  unfold score_of. assert (Ha := Qabs_nonneg gap). assert (Hzero := Qabs_zero gap).
  set (a := Qabs gap) in *. clearbody a.
  destruct (Qle_bool (100 - a * 5) 0) eqn:E.
  - apply Qle_bool_iff in E. split; [lra|]. split; split; intros H;
      first [lra|apply Hzero in H; lra].
  - apply Qle_bool_false in E. split; [lra|]. split; split; intros H;
      first [lra|apply Hzero; lra|apply Hzero in H; lra].
Qed.

(** The entry of one column when the total is not 0. *)
Lemma score_demographic_finite (df : DataFrame) (targets : gmap string Q)
  (total_people : Q) (demo_col : string) :
  ~ total_people == 0 ->
  let actual := demo_sum df demo_col / total_people * 100 in
  let target := lookup_target targets demo_col in
  score_demographic df targets total_people demo_col
  = ((demo_col,
      mkDemographicScore (Fin (score_of (actual - target))) (Fin actual) target
        (Fin (actual - target))),
     if negb (Qle_bool (Qabs (actual - target)) 10)
     then if negb (Qle_bool target actual)
          then [Increase demo_col (Fin (target - actual))]
          else [Balance demo_col (Fin (actual - target))]
     else []).
Proof.
  intros Hz. cbv zeta. unfold score_demographic. rewrite (np_div_finite _ _ Hz).
  cbn [np_scale np_sub np_abs np_rsub np_gt np_lt]. unfold py_max0, np_gt, score_of.
  destruct (Qle_bool (100 - Qabs _ * 5) 0); reflexivity.
Qed.

Lemma np_mean_fold (n : Z) (l : list npfloat) :
  (0 < n)%Z -> (Z.of_nat (length l) <= n)%Z ->
  List.Forall (fun x => exists q, x = Fin q /\ 0 <= q <= 100) l ->
  exists m,
    fold_right (fun x acc => match x, acc with
                             | Fin a, Fin b => Fin (a / inject_Z n + b)
                             | _, _ => NaNf
                             end) (Fin 0) l = Fin m
    /\ 0 <= m /\ m * inject_Z n <= 100 * inject_Z (Z.of_nat (length l)).
Proof.
  intros Hn. induction l as [|x l IH]; intros Hlen Hall.
  - exists 0. split; [reflexivity|]. split; [lra|].
    cbn [length]. change (inject_Z (Z.of_nat 0)) with 0. lra.
  - inversion Hall as [|? ? (q & -> & Hq) Hall']; subst.
    destruct IH as (m & E & Hm0 & Hm); [cbn [length] in Hlen; lia|exact Hall'|].
    cbn [fold_right]. rewrite E. exists (q / inject_Z n + m). split; [reflexivity|].
    assert (Hpos : 0 < inject_Z n) by (change 0 with (inject_Z 0); rewrite <- Zlt_Qlt; exact Hn).
    assert (Hq' : q / inject_Z n * inject_Z n == q) by (field; lra).
    assert (Hdiv : 0 <= q / inject_Z n).
    { apply Qle_shift_div_l; [exact Hpos|lra]. }
    split; [lra|].
    cbn [length]. rewrite Nat2Z.inj_succ, <- Z.add_1_r, inject_Z_plus.
    change (inject_Z 1) with 1. nra.
Qed.

Lemma np_mean_bounds (l : list npfloat) :
  l <> [] ->
  List.Forall (fun x => exists q, x = Fin q /\ 0 <= q <= 100) l ->
  exists m, np_mean l = Fin m /\ 0 <= m <= 100.
Proof.
  intros Hne Hall. unfold np_mean.
  assert (Hn : (0 < Z.of_nat (length l))%Z) by (destruct l; [congruence|cbn [length]; lia]).
  destruct (np_mean_fold (Z.of_nat (length l)) l Hn (Z.le_refl _) Hall) as (m & E & H0 & H1).
  exists m. split; [exact E|]. split; [exact H0|].
  assert (Hpos : 0 < inject_Z (Z.of_nat (length l)))
    by (change 0 with (inject_Z 0); rewrite <- Zlt_Qlt; exact Hn).
  nra.
Qed.

(** In exact arithmetic: on a frame whose total is not 0 the equity
    scorecard is made of finite numbers: the score of each demographic lies
    between 0 and 100 and is 100 exactly when its share equals its target,
    and the overall score lies between 0 and 100. *)
Lemma scorecard_scores_exact (demographic_cols : list string) (df : DataFrame)
  (targets : gmap string Q) (total_people : Q) :
  col_sum df "TOTAL" = Ok total_people -> ~ total_people == 0 ->
  exists scorecard,
    generate_equity_scorecard demographic_cols df targets = Ok scorecard /\
    (forall demo_col d,
       In (demo_col, d) (demographic_scores scorecard) ->
       exists score actual,
         ds_score d = Fin score /\ ds_actual d = Fin actual /\
         ds_gap d = Fin (actual - ds_target d) /\
         actual == demo_sum df demo_col / total_people * 100 /\
         0 <= score <= 100 /\
         (score == 100 <-> actual == ds_target d)) /\
    exists overall, overall_score scorecard = Fin overall /\ 0 <= overall <= 100.
Proof.
  intros Ht Hz. unfold generate_equity_scorecard. rewrite Ht. cbn [rbind].
  eexists. split; [reflexivity|]. cbn [demographic_scores overall_score].
  set (cols := List.filter (has_column df) demographic_cols).
  assert (Hscores : forall demo_col d,
            In (demo_col, d) (map fst (map (score_demographic df targets total_people) cols)) ->
            exists score actual,
              ds_score d = Fin score /\ ds_actual d = Fin actual /\
              ds_gap d = Fin (actual - ds_target d) /\
              actual == demo_sum df demo_col / total_people * 100 /\
              0 <= score <= 100 /\ (score == 100 <-> actual == ds_target d)).
  { intros c d Hin. rewrite map_map in Hin. apply in_map_iff in Hin.
    destruct Hin as (c' & E & _). rewrite (score_demographic_finite _ _ _ _ Hz) in E.
    cbn [fst] in E. injection E as <- <-.
    cbn [ds_score ds_actual ds_gap ds_target].
    do 2 eexists. split; [reflexivity|]. split; [reflexivity|]. split; [reflexivity|].
    split; [reflexivity|].
    destruct (score_of_bounds
                (demo_sum df c' / total_people * 100 - lookup_target targets c'))
      as (B1 & B2 & _).
    split; [exact B1|]. rewrite B2. split; intros H; lra. }
  split; [exact Hscores|].
  destruct (map fst (map (score_demographic df targets total_people) cols))
    as [|s ss] eqn:Es.
  - exists 0. split; [reflexivity|lra].
  - rewrite <- Es in *. apply np_mean_bounds.
    + rewrite Es. discriminate.
    + apply List.Forall_forall. intros x Hx. apply in_map_iff in Hx.
      destruct Hx as ([c d] & <- & Hin). destruct (Hscores c d Hin)
        as (score & actual & E1 & _ & _ & _ & B & _).
      exists score. split; assumption.
Qed.

(** X10: on a table of counts whose total is not 0 the equity scorecard is
    made of finite numbers: the score of each demographic lies between 0 and
    100 and is 100 when its share equals its target, and the overall score
    lies between 0 and 100. *)
Theorem scorecard_scores_bounded (demographic_cols : list string) (df : DataFrame)
  (targets : gmap string Q) (total_people : Q) :
  count_table df ("TOTAL" :: demographic_cols) = true ->
  col_sum df "TOTAL" = Ok total_people -> ~ total_people == 0 ->
  exists scorecard,
    generate_equity_scorecard demographic_cols df targets = Ok scorecard /\
    (forall demo_col d,
       In (demo_col, d) (demographic_scores scorecard) ->
       exists score actual,
         ds_score d = Fin score /\ ds_actual d = Fin actual /\
         0 <= score <= 100 /\
         (actual == ds_target d -> score == 100)) /\
    exists overall, overall_score scorecard = Fin overall /\ 0 <= overall <= 100.
Proof.
  intros _ Ht Hz.
  destruct (scorecard_scores_exact demographic_cols df targets total_people Ht Hz)
    as (scorecard & Hs & Hscores & Hoverall).
  exists scorecard. split; [exact Hs|]. split; [|exact Hoverall].
  intros demo_col d Hin.
  destruct (Hscores demo_col d Hin) as (score & actual & E1 & E2 & _ & _ & B & Hiff).
  exists score, actual. split; [exact E1|]. split; [exact E2|]. split; [exact B|].
  apply Hiff.
Qed.

(** The column that a recommendation is about. *)
Definition about (r : recommendation) : string :=
  match r with
  | Increase demo_col _ | Balance demo_col _ => demo_col
  end.

(** X11: on a frame whose total is not 0 the scorecard recommends a change
    for exactly the demographics whose score is below 50, that is, whose
    share is more than 10 points from its target: an increase by the missing
    points when the share is below the target, a balancing by the exceeding
    points when it is above. *)
Theorem scorecard_recommendations (demographic_cols : list string) (df : DataFrame)
  (targets : gmap string Q) (total_people : Q) (scorecard : Scorecard) :
  col_sum df "TOTAL" = Ok total_people -> ~ total_people == 0 ->
  generate_equity_scorecard demographic_cols df targets = Ok scorecard ->
  (forall r, In r (recommendations scorecard) ->
     exists d score actual,
       In (about r, d) (demographic_scores scorecard) /\
       ds_score d = Fin score /\ ds_actual d = Fin actual /\ score < 50 /\
       match r with
       | Increase _ points => actual < ds_target d /\ points = Fin (ds_target d - actual)
       | Balance _ points => ds_target d < actual /\ points = Fin (actual - ds_target d)
       end) /\
  (forall demo_col d score,
     In (demo_col, d) (demographic_scores scorecard) ->
     ds_score d = Fin score -> score < 50 ->
     exists r, In r (recommendations scorecard) /\ about r = demo_col).
Proof.
  intros Ht Hz. unfold generate_equity_scorecard. rewrite Ht. cbn [rbind].
  intros [= <-]. cbn [demographic_scores recommendations].
  set (cols := List.filter (has_column df) demographic_cols).
  split.
  - intros r Hr. apply in_concat in Hr. destruct Hr as (rs & Hrs & Hr).
    rewrite map_map in Hrs. apply in_map_iff in Hrs. destruct Hrs as (c & <- & Hc).
    rewrite (score_demographic_finite _ _ _ _ Hz) in Hr. cbn [snd] in Hr.
    set (actual := demo_sum df c / total_people * 100) in *.
    set (target := lookup_target targets c) in *.
    destruct (score_of_bounds (actual - target)) as (_ & _ & B).
    destruct (negb (Qle_bool (Qabs (actual - target)) 10)) eqn:Eg; [|destruct Hr].
    apply negb_true_iff, Qle_bool_false in Eg.
    exists (mkDemographicScore (Fin (score_of (actual - target))) (Fin actual) target
              (Fin (actual - target))), (score_of (actual - target)), actual.
    cbn [ds_score ds_actual ds_target].
    assert (Hin : forall r', about r' = c ->
              In (about r', mkDemographicScore (Fin (score_of (actual - target)))
                              (Fin actual) target (Fin (actual - target)))
                 (map fst (map (score_demographic df targets total_people) cols))).
    { intros r' ->. rewrite map_map. apply in_map_iff. exists c.
      rewrite (score_demographic_finite _ _ _ _ Hz). split; [reflexivity|exact Hc]. }
    destruct (negb (Qle_bool target actual)) eqn:El.
    + apply negb_true_iff, Qle_bool_false in El.
      destruct Hr as [<-|[]]. split; [apply Hin; reflexivity|].
      repeat split; try reflexivity; [apply B; exact Eg|exact El].
    + apply negb_false_iff, Qle_bool_iff in El.
      destruct Hr as [<-|[]]. split; [apply Hin; reflexivity|].
      repeat split; try reflexivity; [apply B; exact Eg|].
      revert Eg. apply Qabs_case; intros; lra.
  - intros c d score Hin Es Hlow. rewrite map_map in Hin. apply in_map_iff in Hin.
    destruct Hin as (c' & E & Hc). pose proof (score_demographic_finite df targets _ c' Hz) as S.
    cbv zeta in S. rewrite S in E. cbn [fst] in E. injection E as <- <-.
    cbn [ds_score] in Es. injection Es as <-.
    set (actual := demo_sum df c' / total_people * 100) in *.
    set (target := lookup_target targets c') in *.
    destruct (score_of_bounds (actual - target)) as (_ & _ & B).
    apply B in Hlow. apply Qle_bool_false in Hlow.
    destruct (negb (Qle_bool target actual)) eqn:El.
    + exists (Increase c' (Fin (target - actual))). split; [|reflexivity].
      apply in_concat. eexists. split.
      * rewrite map_map. apply in_map_iff. exists c'. split; [reflexivity|exact Hc].
      * rewrite S. cbn [snd]. rewrite Hlow. left; reflexivity.
    + exists (Balance c' (Fin (actual - target))). split; [|reflexivity].
      apply in_concat. eexists. split.
      * rewrite map_map. apply in_map_iff. exists c'. split; [reflexivity|exact Hc].
      * rewrite S. cbn [snd]. rewrite Hlow. left; reflexivity.
Qed.

End scorecard_facts.

(** ** Representation gaps *)

Section representation_facts.

Import PyStr Num Frame.
Local Open Scope Q_scope.

Lemma max_entry_spec (rest : list (string * Q)) (first : string * Q) :
  In (max_entry first rest) (first :: rest) /\
  forall g, In g (first :: rest) -> snd g <= snd (max_entry first rest).
Proof.
  revert first; induction rest as [|e rest IH]; intros first; cbn [max_entry].
  - split; [left; reflexivity|]. intros g [<-|[]]. lra.
  - destruct (negb (Qle_bool (snd e) (snd first))) eqn:E.
    + apply negb_true_iff, Qle_bool_false in E.
      destruct (IH e) as [H1 H2]. split; [right; exact H1|].
      intros g [<-|Hg]; [|apply H2, Hg].
      specialize (H2 e (or_introl eq_refl)). lra.
    + apply negb_false_iff, Qle_bool_iff in E.
      destruct (IH first) as [H1 H2]. split.
      * destruct H1 as [H1|H1]; [left; exact H1|right; right; exact H1].
      * intros g [<-|[<-|Hg]].
        -- apply H2. left; reflexivity.
        -- specialize (H2 first (or_introl eq_refl)). lra.
        -- apply H2. right; exact Hg.
Qed.

Lemma min_entry_spec (rest : list (string * Q)) (first : string * Q) :
  In (min_entry first rest) (first :: rest) /\
  forall g, In g (first :: rest) -> snd (min_entry first rest) <= snd g.
Proof.
  revert first; induction rest as [|e rest IH]; intros first; cbn [min_entry].
  - split; [left; reflexivity|]. intros g [<-|[]]. lra.
  - destruct (negb (Qle_bool (snd first) (snd e))) eqn:E.
    + apply negb_true_iff, Qle_bool_false in E.
      destruct (IH e) as [H1 H2]. split; [right; exact H1|].
      intros g [<-|Hg]; [|apply H2, Hg].
      specialize (H2 e (or_introl eq_refl)). lra.
    + apply negb_false_iff, Qle_bool_iff in E.
      destruct (IH first) as [H1 H2]. split.
      * destruct H1 as [H1|H1]; [left; exact H1|right; right; exact H1].
      * intros g [<-|[<-|Hg]].
        -- apply H2. left; reflexivity.
        -- specialize (H2 first (or_introl eq_refl)). lra.
        -- apply H2. right; exact Hg.
Qed.

(** What a row of [detect_representation_gaps] says of its module. *)
Definition gap_extremes (demographic_cols : list string) (df : DataFrame)
  (targets : gmap string Q) (row : ModuleGap) : Prop :=
  let entity_data := entity_rows df (mg_Module row) in
  let total_people := demo_sum entity_data "TOTAL" in
  let gaps := module_gaps demographic_cols entity_data targets total_people in
  ~ total_people == 0 /\
  In (mg_Largest_Overrep row) gaps /\ In (mg_Largest_Underrep row) gaps /\
  (forall g, In g gaps ->
             snd (mg_Largest_Underrep row) <= snd g <= snd (mg_Largest_Overrep row)) /\
  mg_Gap_Range row = snd (mg_Largest_Overrep row) - snd (mg_Largest_Underrep row) /\
  0 <= mg_Gap_Range row.

Lemma module_gap_row_extremes (demographic_cols : list string) (df : DataFrame)
  (targets : gmap string Q) (entity : cell) (row : ModuleGap) :
  module_gap_row demographic_cols df targets entity = Ok (Some row) ->
  gap_extremes demographic_cols df targets row.
Proof.
  unfold module_gap_row, gap_extremes.
  destruct (col_sum (entity_rows df entity) "TOTAL") as [t|e] eqn:Et; cbn [rbind];
    [|discriminate].
  apply col_sum_demo_sum in Et.
  destruct (Qeq_bool t 0) eqn:Ez; [discriminate|].
  destruct (module_gaps demographic_cols (entity_rows df entity) targets t)
    as [|g gs] eqn:Eg; [discriminate|].
  intros [= <-]. cbn [mg_Module mg_Largest_Overrep mg_Largest_Underrep mg_Gap_Range].
  rewrite Et, Eg.
  destruct (max_entry_spec gs g) as [M1 M2], (min_entry_spec gs g) as [N1 N2].
  split; [intros Hz; apply Qeq_bool_iff in Hz; congruence|].
  split; [exact M1|]. split; [exact N1|].
  split; [intros x Hx; split; [apply N2|apply M2]; exact Hx|].
  split; [reflexivity|].
  specialize (M2 _ N1). lra.
Qed.

(** X12: when [detect_representation_gaps] returns, its table is not empty
    and runs from the widest range of gaps to the narrowest; in each row the
    module has a total that is not 0, the two named demographics are columns
    of the module with the largest and the smallest gap of all its columns,
    and the range is their difference, never negative. *)
Theorem representation_gaps_rows (demographic_cols : list string) (df : DataFrame)
  (targets : gmap string Q) (table : list ModuleGap) :
  detect_representation_gaps demographic_cols df targets = Ok table ->
  table <> [] /\
  StronglySorted (fun a b => mg_Gap_Range b <= mg_Gap_Range a) table /\
  forall row, In row table -> gap_extremes demographic_cols df targets row.
Proof.
  unfold detect_representation_gaps.
  destruct (column df "EntityDesc") as [entities|e]; cbn [rbind]; [|discriminate].
  destruct (collect_rows _ (unique entities)) as [gap_analysis|e] eqn:Ec; cbn [rbind];
    [|discriminate].
  destruct gap_analysis as [|g gs] eqn:Eg; [discriminate|]. rewrite <- Eg in *.
  intros [= <-]. split; [|split].
  - intros Hnil.
    assert (P := sort_values_perm (fun r => - mg_Gap_Range r) gap_analysis).
    rewrite Hnil in P. apply Permutation_nil in P. congruence.
  - eapply strongly_sorted_impl; [|apply sort_values_sorted].
    intros a b Hab. cbn beta in Hab. lra.
  - intros row Hrow.
    apply (Permutation_in _ (sort_values_perm _ _)) in Hrow.
    destruct (collect_rows_flat _ _ _ Ec) as [_ Hflat]. rewrite Hflat in Hrow.
    apply in_flat_map in Hrow. destruct Hrow as (entity & _ & Hrow).
    destruct (module_gap_row demographic_cols df targets entity) as [[r|]|] eqn:Er;
      [|destruct Hrow|destruct Hrow].
    destruct Hrow as [<-|[]]. exact (module_gap_row_extremes _ _ _ _ _ Er).
Qed.

(** X13: [detect_representation_gaps] has no empty table to return: on a
    frame without rows, and on one that has none of the demographic
    columns, it raises. *)
Theorem representation_gaps_nothing_to_report (demographic_cols : list string)
  (df : DataFrame) (targets : gmap string Q) :
  rows df = [] \/ List.filter (has_column df) demographic_cols = [] ->
  exists e, detect_representation_gaps demographic_cols df targets = Raise e.
Proof.
  intros H. unfold detect_representation_gaps.
  destruct (column df "EntityDesc") as [entities|e] eqn:Ee; cbn [rbind]; [|eauto].
  destruct (collect_rows _ (unique entities)) as [gap_analysis|e] eqn:Ec; cbn [rbind];
    [|eauto].
  destruct (collect_rows_flat _ _ _ Ec) as [_ Hflat].
  assert (Hnil : gap_analysis = []).
  { rewrite Hflat. destruct H as [H|H].
    - destruct (column_rows _ _ _ Ee) as [-> _]. rewrite H. reflexivity.
    - clear Hflat Ec. induction (unique entities) as [|entity l IH]; [reflexivity|].
      cbn [flat_map]. rewrite IH, app_nil_r. unfold module_gap_row.
      destruct (col_sum (entity_rows df entity) "TOTAL") as [t|e]; cbn [rbind];
        [|reflexivity].
      destruct (Qeq_bool t 0); [reflexivity|]. unfold module_gaps.
      replace (List.filter (has_column (entity_rows df entity)) demographic_cols)
        with (List.filter (has_column df) demographic_cols) by reflexivity.
      rewrite H. reflexivity. }
  rewrite Hnil. eauto.
Qed.

End representation_facts.

(** ** Rounded tables *)

Section rounding_facts.

Import PyStr Num Frame.
Local Open Scope Q_scope.

Lemma round_half_even_error (q : Q) :
  Qabs (inject_Z (round_half_even q) - q) <= 1 # 2.
Proof.
  unfold round_half_even.
  assert (H1 := Qfloor_le q). assert (H2 := Qlt_floor q).
  rewrite inject_Z_plus in H2. change (inject_Z 1) with 1 in H2.
  set (f := Qfloor q) in *. apply Qabs_Qle_condition.
  destruct (Qcompare (q - inject_Z f) (1 # 2)) eqn:E.
  - apply Qeq_alt in E. destruct (Z.even f); rewrite ?inject_Z_plus;
      change (inject_Z 1) with 1; split; lra.
  - apply Qlt_alt in E. split; lra.
  - apply Qgt_alt in E. rewrite inject_Z_plus. change (inject_Z 1) with 1. split; lra.
Qed.

(** Rounding to two decimals moves a number by at most half a hundredth. *)
Lemma round2_error (q : Q) : Qabs (round2 q - q) <= 1 # 200.
Proof.
  unfold round2. assert (H := round_half_even_error (q * 100)).
  apply Qabs_Qle_condition in H. apply Qabs_Qle_condition.
  set (z := inject_Z (round_half_even (q * 100))) in *. clearbody z.
  assert (E : z / 100 == z * (1 # 100)) by (field). rewrite E. split; lra.
Qed.

Lemma col_sum_raise (df : DataFrame) (col : string) (e : exn) :
  col_sum df col = Raise e -> e = KeyError col /\ has_column df col = false.
Proof.
  unfold col_sum, column, has_column, mem.
  destruct (index_of col (columns df)) as [i|] eqn:Ei; cbn [rbind]; [discriminate|].
  intros [= <-]. split; [reflexivity|].
  induction (columns df) as [|c cs IH]; [reflexivity|].
  cbn [existsb index_of] in *. destruct (String.eqb col c); [discriminate|].
  destruct (index_of col cs); [discriminate|]. now apply IH.
Qed.

(** In exact arithmetic: [calculate_demographic_gaps] returns a table or
    raises for one of two reasons: the frame has no column TOTAL, or it has
    none of the demographic columns of the processor's frame.  A table that
    is not empty has one row for each demographic column that the frame has,
    from the smallest gap to the largest.  The gap that a row shows differs
    from the difference of the two percentages that it shows by at most a
    hundredth. *)
Lemma demographic_gaps_cases (self_cols : list string) (df : DataFrame)
  (targets : gmap string Q) :
  match calculate_demographic_gaps self_cols df targets with
  | Ok table =>
      StronglySorted (fun a b => Gap a <= Gap b) table /\
      (table = [] \/
       Permutation (map Demographic table)
         (List.filter (has_column df) (get_demographic_columns self_cols))) /\
      forall r, In r table ->
                Qabs (Gap r - (Actual_pct r - Target_pct r)) <= 1 # 100
  | Raise e =>
      (e = KeyError "TOTAL" /\ has_column df "TOTAL" = false) \/
      (e = KeyError "Gap" /\
       List.filter (has_column df) (get_demographic_columns self_cols) = [])
  end.
Proof.
  unfold calculate_demographic_gaps.
  assert (Hnil : StronglySorted (fun a b => Gap a <= Gap b) [] /\
                 (@nil GapRecord = [] \/
                  Permutation (map Demographic [])
                    (List.filter (has_column df) (get_demographic_columns self_cols))) /\
                 forall r, In r [] ->
                           Qabs (Gap r - (Actual_pct r - Target_pct r)) <= 1 # 100).
  { split; [constructor|]. split; [left; reflexivity|intros ? []]. }
  destruct (Nat.eqb (length (get_demographic_columns self_cols)) 0 || empty df);
    [exact Hnil|].
  destruct (col_sum df "TOTAL") as [total_people|e] eqn:Et; cbn [rbind].
  2:{ left. exact (col_sum_raise _ _ _ Et). }
  destruct (Qeq_bool total_people 0); [exact Hnil|].
  set (cols := List.filter (has_column df) (get_demographic_columns self_cols)).
  destruct (map (gap_record df targets total_people) cols) as [|g gs] eqn:Eg.
  - right. split; [reflexivity|]. destruct cols; [reflexivity|discriminate].
  - rewrite <- Eg. split; [apply sort_values_sorted|]. split.
    + right. rewrite (Permutation_map Demographic (sort_values_perm _ _)), map_map.
      cbn [gap_record Demographic]. rewrite map_id. reflexivity.
    + intros r Hr. apply (Permutation_in _ (sort_values_perm _ _)) in Hr.
      apply in_map_iff in Hr. destruct Hr as (c & <- & _).
      cbn [gap_record Gap Actual_pct Target_pct].
      set (a := demo_sum df c / total_people * 100).
      set (t := default 0 (targets !! c)).
      assert (Ha := round2_error a). assert (Hg := round2_error (a - t)).
      apply Qabs_Qle_condition in Ha, Hg. apply Qabs_Qle_condition. split; lra.
Qed.

(** X14: on a table of counts, [calculate_demographic_gaps] returns a table
    or raises for one of two reasons: the frame has no column TOTAL, or it
    has none of the demographic columns of the processor's frame.  A table
    that is not empty has one row for each demographic column that the frame
    has, from the smallest gap to the largest. *)
Theorem demographic_gaps_outcome (self_cols : list string) (df : DataFrame)
  (targets : gmap string Q) :
  count_table df ("TOTAL" :: get_demographic_columns self_cols) = true ->
  match calculate_demographic_gaps self_cols df targets with
  | Ok table =>
      StronglySorted (fun a b => Gap a <= Gap b) table /\
      (table = [] \/
       Permutation (map Demographic table)
         (List.filter (has_column df) (get_demographic_columns self_cols)))
  | Raise e =>
      (e = KeyError "TOTAL" /\ has_column df "TOTAL" = false) \/
      (e = KeyError "Gap" /\
       List.filter (has_column df) (get_demographic_columns self_cols) = [])
  end.
Proof.
  intros _. assert (H := demographic_gaps_cases self_cols df targets).
  destruct (calculate_demographic_gaps self_cols df targets) as [table|e];
    [|exact H].
  destruct H as (H1 & H2 & _). split; assumption.
Qed.

End rounding_facts.

Section percentage_facts.

Import PyStr Num Frame.
Local Open Scope Q_scope.

Lemma flat_map_keys {A B} (f : A -> result (option B)) (key : B -> A) (l : list A) :
  (forall x b, f x = Ok (Some b) -> key b = x) ->
  map key (flat_map (fun x => match f x with Ok (Some b) => [b] | _ => [] end) l)
  = List.filter (fun x => match f x with Ok (Some _) => true | _ => false end) l.
Proof.
  intros H. induction l as [|x l IH]; [reflexivity|].
  cbn [flat_map List.filter]. rewrite map_app, IH.
  destruct (f x) as [[b|]|] eqn:E; try reflexivity.
  cbn [map app]. now rewrite (H x b E).
Qed.

(** X15: the table of [calculate_demographic_percentages] has one row for
    each module whose total is not 0, no module twice; each row lists every
    demographic column of the processor's frame, in order, with a finite
    percentage, which is 0 for a column that the frame does not have. *)
Theorem demographic_percentages_table (self_cols : list string) (df : DataFrame)
  (table : list PercentageRow) :
  calculate_demographic_percentages self_cols df = Ok table ->
  all_differ cell_eqb (map pr_EntityDesc table) /\
  forall row, In row table ->
    ~ demo_sum (entity_rows df (pr_EntityDesc row)) "TOTAL" == 0 /\
    map fst (pr_percentages row) = get_demographic_columns self_cols /\
    forall demo_col p,
      In (demo_col, p) (pr_percentages row) ->
      is_finite p = true /\ (has_column df demo_col = false -> p = Fin 0).
Proof.
  unfold calculate_demographic_percentages.
  destruct (Nat.eqb (length (get_demographic_columns self_cols)) 0 || empty df).
  { intros [= <-]. split; [split; [constructor|intros ? ? []]|intros ? []]. }
  destruct (column df "EntityDesc") as [entities|e]; cbn [rbind]; [|discriminate].
  intros H. destruct (collect_rows_flat _ _ _ H) as [_ ->]. clear H.
  set (cols := get_demographic_columns self_cols).
  assert (Hkey : forall x b, percentage_row cols df x = Ok (Some b) -> pr_EntityDesc b = x).
  { intros x b. unfold percentage_row. destruct (empty (entity_rows df x)); [discriminate|].
    destruct (col_sum (entity_rows df x) "TOTAL"); cbn [rbind]; [|discriminate].
    destruct (Qeq_bool _ 0); [discriminate|]. intros [= <-]. reflexivity. }
  split.
  - rewrite (flat_map_keys _ pr_EntityDesc _ Hkey).
    apply (pairwise_all_differ cell_eqb cell_eqb_refl cell_eqb_sym).
    apply pairwise_filter. rewrite unique_distinct. apply distinct_aux_pairwise.
  - intros row Hrow. apply in_flat_map in Hrow. destruct Hrow as (entity & _ & Hrow).
    destruct (percentage_row cols df entity) as [[r|]|] eqn:Er;
      [|destruct Hrow|destruct Hrow].
    destruct Hrow as [<-|[]]. rewrite (Hkey _ _ Er).
    destruct (percentage_row_guarded _ _ _ _ Er) as [(total & Ht & Hz) Hfin].
    rewrite (col_sum_demo_sum _ _ _ Ht). split; [exact Hz|].
    unfold percentage_row in Er. destruct (empty (entity_rows df entity)); [discriminate|].
    rewrite Ht in Er. cbn [rbind] in Er.
    destruct (Qeq_bool total 0); [discriminate|]. injection Er as <-.
    cbn [pr_percentages] in *. split.
    + rewrite map_map. erewrite map_ext; [apply map_id|].
      intros c. cbn beta. destruct (has_column (entity_rows df entity) c); reflexivity.
    + intros c p Hp. split.
      * rewrite List.Forall_forall in Hfin. exact (Hfin _ Hp).
      * intros Hc. apply in_map_iff in Hp. destruct Hp as (c' & E & _).
        replace (has_column (entity_rows df entity) c') with (has_column df c') in E
          by reflexivity.
        destruct (has_column df c') eqn:Hc'; injection E as <- <-; [congruence|reflexivity].
Qed.

End percentage_facts.

(** ** The balance of the representation *)

Section balance_facts.

Import PyStr Num Frame.

Lemma q_mean_Qsum (values : list Q) :
  q_mean values = (Qsum values / inject_Z (Z.of_nat (length values)))%Q.
Proof. reflexivity. Qed.

Lemma length_pos {A} (l : list A) :
  l <> [] -> (0 < inject_Z (Z.of_nat (length l)))%Q.
Proof.
  intros H. change 0%Q with (inject_Z 0). rewrite <- Zlt_Qlt.
  destruct l; [congruence|cbn [length]; lia].
Qed.

Lemma Qsquare_nonneg (q : Q) : (0 <= q * q)%Q.
Proof. nra. Qed.

Lemma Qsquare_zero (q : Q) : (q * q == 0)%Q -> (q == 0)%Q.
Proof. nra. Qed.

Lemma Qsum_squares_zero (values : list Q) (m : Q) :
  (Qsum (map (fun x => (x - m) * (x - m)) values) == 0)%Q ->
  forall x, In x values -> (x == m)%Q.
Proof.
  induction values as [|y l IH]; intros H x Hx; [destruct Hx|].
  cbn [map] in H. rewrite Qsum_cons in H.
  assert (Hs : (0 <= Qsum (map (fun x => (x - m) * (x - m)) l))%Q).
  { apply Qsum_nonneg. apply List.Forall_forall. intros z Hz.
    apply in_map_iff in Hz. destruct Hz as (w & <- & _). apply Qsquare_nonneg. }
  assert (Hy := Qsquare_nonneg (y - m)).
  destruct Hx as [<-|Hx].
  - assert (E : (y - m == 0)%Q) by (apply Qsquare_zero; lra). lra.
  - apply IH; [|exact Hx]. lra.
Qed.

Lemma mean_squares_nonneg (values : list Q) (m : Q) :
  values <> [] ->
  (0 <= q_mean (map (fun x => (x - m) * (x - m)) values))%Q.
Proof.
  intros Hne. rewrite q_mean_Qsum, length_map.
  apply Qle_shift_div_l; [apply length_pos, Hne|].
  rewrite Qmult_0_l. apply Qsum_nonneg. apply List.Forall_forall. intros z Hz.
  apply in_map_iff in Hz. destruct Hz as (w & <- & _). apply Qsquare_nonneg.
Qed.

(** The spread is 0 exactly when all values are the same. *)
Lemma np_std_zero (values : list Q) :
  values <> [] ->
  np_std values = 0%R <-> forall x, In x values -> (x == q_mean values)%Q.
Proof.
  intros Hne. unfold np_std. set (m := q_mean values).
  assert (Hn := length_pos values Hne).
  assert (Hpos := mean_squares_nonneg values m Hne).
  split.
  - intros H. apply sqrt_eq_0 in H; [|apply Q2R_nonneg, Hpos].
    rewrite <- RMicromega.Q2R_0 in H. apply eqR_Qeq in H.
    rewrite q_mean_Qsum, length_map in H.
    apply Qsum_squares_zero.
    assert (E : (Qsum (map (fun x => (x - m) * (x - m)) values)
                 == Qsum (map (fun x => (x - m) * (x - m)) values)
                    / inject_Z (Z.of_nat (length values))
                    * inject_Z (Z.of_nat (length values)))%Q) by (field; lra).
    rewrite E, H. lra.
  - intros H.
    assert (E : (q_mean (map (fun x => (x - m) * (x - m)) values) == 0)%Q).
    { rewrite q_mean_Qsum, length_map.
      rewrite (Qsum_zero (fun x => (x - m) * (x - m))%Q values).
      - field. lra.
      - intros x Hx. rewrite (H x Hx). unfold m. lra. }
    rewrite (Qeq_eqR _ _ E), RMicromega.Q2R_0. apply sqrt_0.
Qed.

(** In exact arithmetic: the representation balance of
    [calculate_diversity_metrics], when the dict has it, lies above 0 and at
    most at 1; it is 1 exactly when the mean share is not positive or all
    demographic columns have the same share. *)
Lemma representation_balance_exact (self_cols : list string) (df : DataFrame)
  (balance : R) :
  representation_balance self_cols df = Ok (Some balance) ->
  (0 < balance <= 1)%R /\
  exists total_people,
    col_sum df "TOTAL" = Ok total_people /\ ~ (total_people == 0)%Q /\
    let demo_percentages :=
      map (fun demo_count => (demo_count / total_people * 100)%Q)
          (demo_counts self_cols df) in
    (balance = 1%R <->
     (q_mean demo_percentages <= 0)%Q \/
     forall p, In p demo_percentages -> (p == q_mean demo_percentages)%Q).
Proof.
  unfold representation_balance.
  destruct (Nat.eqb (length (get_demographic_columns self_cols)) 0); [discriminate|].
  destruct (col_sum df "TOTAL") as [total_people|e]; cbn [rbind]; [|discriminate].
  destruct (Qeq_bool total_people 0) eqn:Ez; [discriminate|].
  destruct (map _ (demo_counts self_cols df)) as [|p0 ps'] eqn:Eps; [discriminate|].
  rewrite <- Eps.
  set (ps := map (fun demo_count => (demo_count / total_people * 100)%Q)
                 (demo_counts self_cols df)) in *.
  assert (Hne : ps <> []) by (rewrite Eps; discriminate).
  intros [= <-].
  assert (Hstd : (0 <= np_std ps)%R) by apply sqrt_pos.
  assert (Hz : ~ (total_people == 0)%Q).
  { intros Hz. apply Qeq_bool_iff in Hz. congruence. }
  destruct (Qle_bool (q_mean ps) 0) eqn:Em; cbn [negb].
  - apply Qle_bool_iff in Em. split; [rewrite Rplus_0_r; lra|].
    exists total_people. split; [reflexivity|]. split; [exact Hz|].
    cbv zeta. fold ps. split; [intros _; left; exact Em|intros _; rewrite Rplus_0_r; lra].
  - apply Qle_bool_false in Em. apply Q2R_pos in Em.
    set (cv := (np_std ps / Q2R (q_mean ps))%R).
    assert (Hcv : (0 <= cv)%R).
    { unfold cv. apply Rmult_le_pos; [exact Hstd|].
      apply Rlt_le, Rinv_0_lt_compat, Em. }
    assert (Hinv : (0 < / (1 + cv) <= 1)%R).
    { split; [apply Rinv_0_lt_compat; lra|].
      rewrite <- Rinv_1 at 2. apply Rinv_le_contravar; lra. }
    split; [unfold Rdiv; rewrite Rmult_1_l; exact Hinv|].
    exists total_people. split; [reflexivity|]. split; [exact Hz|].
    cbv zeta. fold ps. rewrite <- (np_std_zero ps Hne). split.
    + intros H. right. unfold Rdiv in H. rewrite Rmult_1_l in H.
      assert (E : (1 + cv = 1)%R).
      { apply Rinv_eq_reg. rewrite H, Rinv_1. reflexivity. }
      assert (E0 : cv = 0%R) by lra. unfold cv, Rdiv in E0.
      apply Rmult_integral in E0. destruct E0 as [E0|E0]; [exact E0|].
      assert (Hi := Rinv_0_lt_compat _ Em). lra.
    + intros [H|H].
      * apply Q2R_pos in Em. lra.
      * unfold cv. rewrite H. unfold Rdiv. rewrite Rmult_0_l, Rplus_0_r, Rmult_1_l.
        apply Rinv_1.
Qed.

(** X16: on a table of counts, the representation balance of
    [calculate_diversity_metrics], when the dict has it, lies above 0 and at
    most at 1. *)
Theorem representation_balance_bounds (self_cols : list string) (df : DataFrame)
  (balance : R) :
  count_table df ("TOTAL" :: get_demographic_columns self_cols) = true ->
  representation_balance self_cols df = Ok (Some balance) ->
  (0 < balance <= 1)%R.
Proof.
  intros _ H. exact (proj1 (representation_balance_exact self_cols df balance H)).
Qed.

End balance_facts.

(** ** The two heat maps *)

Section heatmap_agreement.

Import PyStr Num Frame.
Local Open Scope Q_scope.

Lemma all_na_sum (l : list cell) : all_na l = true -> sum_cells l == 0.
Proof.
  induction l as [|c l IH]; [reflexivity|]. unfold all_na. cbn [forallb].
  intros H. apply andb_true_iff in H. destruct H as [Hc Hl].
  change (cell_num c + sum_cells l == 0). rewrite (IH Hl).
  destruct c; try discriminate. cbn [cell_num]. lra.
Qed.

Lemma no_data_sum (entity_data : DataFrame) (demo_col : string) :
  has_data entity_data demo_col = false -> demo_sum entity_data demo_col == 0.
Proof.
  unfold has_data, demo_sum. destruct (column entity_data demo_col) as [l|e].
  - intros H. apply negb_false_iff in H. now apply all_na_sum.
  - reflexivity.
Qed.

Lemma percent_of_zero (demo_count total_people : Q) :
  demo_count == 0 -> percent_of demo_count total_people == 0.
Proof.
  intros H. unfold percent_of. destruct (negb (Qle_bool total_people 0)) eqn:E.
  - apply negb_true_iff, Qle_bool_false in E. rewrite H. field. lra.
  - reflexivity.
Qed.

Lemma gaps_agree (df : DataFrame) (targets : gmap string Q) (m c : string) :
  aligned_gap df targets m c == improved_gap df targets m c.
Proof.
  unfold aligned_gap, improved_gap.
  destruct (has_data (group_rows df m) c) eqn:E; [reflexivity|].
  rewrite (percent_of_zero _ _ (no_data_sum _ _ E)). lra.
Qed.

Lemma Forall2_map_same {A B} (R : B -> B -> Prop) (f g : A -> B) (l : list A) :
  (forall a, In a l -> R (f a) (g a)) -> List.Forall2 R (map f l) (map g l).
Proof.
  induction l as [|a l IH]; intros H; cbn [map]; constructor.
  - apply H. left; reflexivity.
  - apply IH. intros b Hb. apply H. right; exact Hb.
Qed.

(** X17: whenever [create_aligned_heatmap] and [create_improved_heatmap]
    both draw a heat map of the same frame, columns and targets, the two
    maps have the same rows and show the same gap in every cell. *)
Theorem heatmap_builders_agree (df : DataFrame) (demographic_cols : list string)
  (targets : gmap string Q) (z z' : list (list Q)) (x x' y y' : list string)
  (text text' : list (list string)) :
  create_aligned_heatmap df demographic_cols targets = Ok (Heatmap z x y text) ->
  create_improved_heatmap df demographic_cols targets = Ok (Heatmap z' x' y' text') ->
  y' = y /\ List.Forall2 (List.Forall2 Qeq) z z'.
Proof.
  intros Ha Hi.
  destruct (aligned_heatmap_table _ _ _ _ _ _ _ Ha) as (_ & -> & -> & _).
  destruct (improved_heatmap_table _ _ _ _ _ _ _ Hi) as (Hv & _ & -> & -> & _).
  split; [reflexivity|]. rewrite Hv.
  apply Forall2_map_same. intros m _. apply Forall2_map_same. intros c _.
  apply gaps_agree.
Qed.

End heatmap_agreement.

(** ** The comprehensive health check *)

Section comprehensive_facts.

Import PyStr Num Frame.
Local Open Scope Q_scope.

Variable parse_numeric : string -> option Q.
Variable py_str : Q -> string.

(** Each branch of the goal, decided. *)
Ltac decide_branches :=
  repeat match goal with
    | |- context [if ?b then _ else _] => destruct b
    end.

Lemma quality_issues (df : DataFrame) (self c : Checker) :
  _check_demographic_data_quality parse_numeric py_str df self = Ok c ->
  issues c = issues self.
Proof.
  unfold _check_demographic_data_quality.
  destruct (_validate_data parse_numeric df) as [processor_df|e]; cbn [rbind];
    [|discriminate].
  cbv zeta. decide_branches; intros [= <-]; reflexivity.
Qed.

Lemma missing_values_issues (df : DataFrame) (self : Checker) :
  issues (_check_missing_values df self) = issues self.
Proof.
  unfold _check_missing_values. cbn [fold_left]. decide_branches; reflexivity.
Qed.

Lemma completeness_issues (df : DataFrame) (self : Checker) :
  issues (_check_data_completeness df self) = issues self.
Proof.
  unfold _check_data_completeness. cbv zeta. decide_branches; reflexivity.
Qed.

Lemma distribution_issues (df : DataFrame) (self c : Checker) :
  _check_demographic_distribution parse_numeric df self = Ok c ->
  issues c = issues self.
Proof.
  unfold _check_demographic_distribution.
  destruct (_validate_data parse_numeric df) as [processor_df|e]; cbn [rbind];
    [|discriminate].
  cbv zeta. decide_branches; intros [= <-]; reflexivity.
Qed.

Lemma required_columns_issues (df : DataFrame) (self : Checker) :
  (has_column df "EntityDesc" && has_column df "Grade" && has_column df "TOTAL" = true ->
   issues (_check_required_columns df self) = issues self) /\
  (has_column df "EntityDesc" && has_column df "Grade" && has_column df "TOTAL" = false ->
   exists m, issues (_check_required_columns df self) = (issues self ++ [m])%list).
Proof.
  unfold _check_required_columns. cbn [List.filter].
  destruct (has_column df "EntityDesc"), (has_column df "Grade"),
    (has_column df "TOTAL"); cbn [negb andb nonempty length Nat.eqb add_issue add_info issues];
    split; intros H; try discriminate; try reflexivity; eexists; reflexivity.
Qed.

(** X18: a frame that the processor refuses makes the comprehensive check
    raise what the processor raised, with no report; so does every frame in
    which a required field can be mapped to no column. *)
Theorem comprehensive_check_raises (df : DataFrame) :
  (forall e, _validate_data parse_numeric df = Raise e ->
             run_comprehensive_check parse_numeric py_str df = Raise e) /\
  ((exists f variations,
      In (f, variations) column_mappings /\ ~ mappable variations (columns df)) ->
   exists msg, run_comprehensive_check parse_numeric py_str df = Raise (ValueError msg)).
Proof.
  assert (H : forall e, _validate_data parse_numeric df = Raise e ->
                        run_comprehensive_check parse_numeric py_str df = Raise e).
  { intros e He. unfold run_comprehensive_check, _check_demographic_data_quality.
    rewrite He. reflexivity. }
  split; [exact H|].
  intros (f & variations & Hin & Hn).
  exists (error_msg (missing_required (map_columns column_mappings (columns df)))
            (columns df)).
  apply H. unfold _validate_data.
  destruct (missing_required (map_columns column_mappings (columns df))) as [|m ms] eqn:Em.
  - assert (Hf : In f (missing_required (map_columns column_mappings (columns df)))).
    { apply missing_required_In. exists variations. split; assumption. }
    rewrite Em in Hf. destruct Hf.
  - reflexivity.
Qed.

Lemma total_consistency_issues (df : DataFrame) (self c : Checker)
  (processor_df : DataFrame) :
  _validate_data parse_numeric df = Ok processor_df ->
  _check_total_consistency parse_numeric df self = Ok c ->
  exists added,
    issues c = (issues self ++ added)%list /\
    (has_column df "TOTAL" = true ->
     added = [] <->
     forall r, In r (rows df) ->
               ~ over (columns df)
                   (List.filter (has_column df)
                      (get_demographic_columns (columns processor_df))) r).
Proof.
  intros Ev E. unfold _check_total_consistency in E.
  destruct (has_column df "TOTAL") eqn:Ht; cbn [negb] in E.
  2:{ injection E as <-. exists []. split; [now rewrite app_nil_r|discriminate]. }
  rewrite Ev in E. cbn [rbind] in E.
  destruct (Nat.eqb (length (get_demographic_columns (columns processor_df))) 0) eqn:Ed.
  - injection E as <-. exists []. split; [now rewrite app_nil_r|]. intros _.
    apply Nat.eqb_eq, length_zero_iff_nil in Ed. rewrite Ed. cbn [List.filter].
    split; [|reflexivity]. intros _ r _ (s & t & Hs & _ & Hlt & Hpos).
    cbn [row_demo_sum] in Hs. injection Hs as <-. lra.
  - destruct (check_rows (columns df) _ 0 (rows df)) as [fs|e] eqn:Ef;
      cbn [rbind] in E; [|discriminate].
    injection E as <-. cbn [issues].
    destruct (check_rows_findings _ _ _ _ _ Ef) as (Ho & _).
    unfold report. destruct (inconsistent_rows fs) as [|m ms] eqn:Ei.
    + exists []. split; [now rewrite app_nil_r|]. intros _. split; [|reflexivity].
      intros _ r Hr Hover. apply (proj1 Ho); [|reflexivity]. exists r. tauto.
    + eexists. split; [reflexivity|]. intros _. split; [discriminate|].
      intros H. exfalso. destruct (proj2 Ho) as (r & Hr & Hover); [discriminate|].
      exact (H r Hr Hover).
Qed.

(** X19: when the comprehensive check returns, its results are shown as
    usable exactly when the frame has the columns EntityDesc, Grade and TOTAL
    under these very names and no row in which the demographic counts sum to
    more than a positive total. *)
Theorem comprehensive_check_verdict (df : DataFrame) (results : Results) :
  run_comprehensive_check parse_numeric py_str df = Ok results ->
  exists processor_df,
    _validate_data parse_numeric df = Ok processor_df /\
    let demographic_cols :=
      List.filter (has_column df) (get_demographic_columns (columns processor_df)) in
    (snd (display_health_check_results results) = true <->
     has_column df "EntityDesc" = true /\ has_column df "Grade" = true /\
     has_column df "TOTAL" = true /\
     forall r, In r (rows df) -> ~ over (columns df) demographic_cols r).
Proof.
  unfold run_comprehensive_check. cbv zeta.
  set (s0 := _check_required_columns df (mkChecker [] [] [])).
  destruct (_check_demographic_data_quality parse_numeric py_str df s0) as [s1|e] eqn:E1;
    cbn [rbind]; [|discriminate].
  destruct (_check_total_consistency parse_numeric df s1) as [s2|e] eqn:E2;
    cbn [rbind]; [|discriminate].
  destruct (_check_demographic_distribution parse_numeric df _) as [s3|e] eqn:E3;
    cbn [rbind]; [|discriminate].
  intros [= <-].
  apply distribution_issues in E3. rewrite completeness_issues, missing_values_issues in E3.
  assert (I1 := quality_issues _ _ _ E1).
  destruct (_validate_data parse_numeric df) as [processor_df|e] eqn:Ev.
  2:{ unfold _check_demographic_data_quality in E1. rewrite Ev in E1. discriminate. }
  exists processor_df. split; [reflexivity|]. cbv zeta.
  rewrite display_verdict, negb_true_iff. unfold nonempty. rewrite negb_false_iff.
  rewrite Nat.eqb_eq, length_zero_iff_nil. cbn [critical results_of]. rewrite E3.
  destruct (total_consistency_issues _ _ _ _ Ev E2) as (added & -> & Hadded).
  rewrite I1.
  destruct (required_columns_issues df (mkChecker [] [] [])) as [R1 R2]. fold s0 in R1, R2.
  cbn [issues app] in R1, R2.
  destruct (has_column df "EntityDesc"), (has_column df "Grade"),
    (has_column df "TOTAL"); cbn [andb] in R1, R2;
    try (destruct (R2 eq_refl) as [m ->]; cbn [app];
         split; [discriminate|intros (? & ? & ? & _); discriminate]).
  rewrite (R1 eq_refl). cbn [app]. rewrite (Hadded eq_refl). tauto.
Qed.

End comprehensive_facts.

Section report_facts.

Import PyStr Num Frame.

Variable parse_numeric : string -> option Q.

Lemma report_capped (n : nat) (more : nat -> message) (found lst : list message) :
  exists added, report n more found lst = (lst ++ added)%list /\ (length added <= S n)%nat.
Proof.
  unfold report. destruct found as [|m ms] eqn:E.
  - exists []. split; [now rewrite app_nil_r|cbn [length]; lia].
  - rewrite <- E. eexists. split; [reflexivity|]. rewrite length_app.
    assert (H := firstn_le_length n found).
    assert (H' : (length (firstn n found) <= n)%nat)
      by (rewrite length_firstn; apply Nat.le_min_l).
    destruct (n <? length found)%nat; cbn [length]; lia.
Qed.

(** X20: one run of [_check_total_consistency] adds at most six critical
    issues and at most four warnings to the lists of the checker, however
    many rows are found, keeps what the lists held, and adds nothing to the
    third list. *)
Theorem total_consistency_capped (df : DataFrame) (self c : Checker) :
  _check_total_consistency parse_numeric df self = Ok c ->
  (exists added, issues c = (issues self ++ added)%list /\ (length added <= 6)%nat) /\
  (exists added, warnings c = (warnings self ++ added)%list /\ (length added <= 4)%nat) /\
  info c = info self.
Proof.
  assert (Hself : (exists added, issues self = (issues self ++ added)%list
                                 /\ (length added <= 6)%nat) /\
                  (exists added, warnings self = (warnings self ++ added)%list
                                 /\ (length added <= 4)%nat) /\
                  info self = info self).
  { split; [|split; [|reflexivity]]; exists []; rewrite app_nil_r; cbn [length];
      (split; [reflexivity|lia]). }
  unfold _check_total_consistency.
  destruct (negb (has_column df "TOTAL")); [intros [= <-]; exact Hself|].
  destruct (_validate_data parse_numeric df) as [processor_df|e]; cbn [rbind];
    [|discriminate].
  destruct (Nat.eqb (length (get_demographic_columns (columns processor_df))) 0);
    [intros [= <-]; exact Hself|].
  destruct (check_rows _ _ 0 (rows df)) as [fs|e]; cbn [rbind]; [|discriminate].
  intros [= <-]. cbn [issues warnings info].
  split; [apply report_capped|]. split; [apply report_capped|reflexivity].
Qed.

End report_facts.

(** ** Column headers *)

Section header_facts.

Import PyStr Num Frame.

Lemma flat_map_nil {A B} (f : A -> list B) (l : list A) :
  flat_map f l = [] <-> forall x, In x l -> f x = [].
Proof.
  induction l as [|x l IH]; cbn [flat_map].
  - split; [intros _ ? []|reflexivity].
  - split.
    + intros H. apply app_eq_nil in H. destruct H as [H1 H2].
      intros y [<-|Hy]; [exact H1|]. apply IH; assumption.
    + intros H. rewrite (H x (or_introl eq_refl)). cbn [app]. apply IH.
      intros y Hy. apply H. right; exact Hy.
Qed.

Lemma filter_nil {A} (p : A -> bool) (l : list A) :
  List.filter p l = [] <-> forall x, In x l -> p x = false.
Proof.
  induction l as [|x l IH]; cbn [List.filter].
  - split; [intros _ ? []|reflexivity].
  - destruct (p x) eqn:E.
    + split; [discriminate|]. intros H. rewrite (H x (or_introl eq_refl)) in E. discriminate.
    + rewrite IH. split.
      * intros H y [<-|Hy]; [exact E|apply H, Hy].
      * intros H y Hy. apply H. right; exact Hy.
Qed.

(** X21: [validate_column_headers] calls the headers valid exactly when
    each expected column is among them or resembled by none of them, so that
    headers with a column missing and nothing like it are valid, as are no
    headers at all; each suggestion names a header of the frame that
    resembles an expected column that the frame does not have. *)
Theorem column_headers_verdict (cols : list string) :
  (fst (validate_column_headers cols) = true <->
   forall expected_col patterns,
     In (expected_col, patterns) expected_patterns ->
     In expected_col cols \/ forall col, In col cols -> resembles patterns col = false) /\
  (forall suggestion,
     In suggestion (snd (validate_column_headers cols)) ->
     exists expected_col patterns col,
       In (expected_col, patterns) expected_patterns /\ ~ In expected_col cols /\
       In col cols /\ resembles patterns col = true /\
       suggestion
       = "Consider renaming '" +:+ col +:+ "' to '" +:+ expected_col +:+ "'") /\
  fst (validate_column_headers []) = true.
Proof.
  unfold validate_column_headers. cbn [fst snd]. split; [|split; [|reflexivity]].
  - rewrite Nat.eqb_eq, length_zero_iff_nil, flat_map_nil. split.
    + intros H e ps Hin. specialize (H (e, ps) Hin). cbn beta iota in H.
      destruct (mem e cols) eqn:Em; cbn [negb] in H.
      * left. now apply mem_In.
      * right. apply filter_nil. destruct (List.filter (resembles ps) cols);
          [reflexivity|discriminate].
    + intros H [e ps] Hin. destruct (H e ps Hin) as [He|Hn].
      * apply mem_In in He. rewrite He. reflexivity.
      * apply filter_nil in Hn. rewrite Hn. destruct (negb (mem e cols)); reflexivity.
  - intros s Hs. apply in_flat_map in Hs. destruct Hs as ([e ps] & Hin & Hs).
    destruct (mem e cols) eqn:Em; cbn [negb] in Hs; [destruct Hs|].
    destruct (List.filter (resembles ps) cols) as [|c cs] eqn:Ef; [destruct Hs|].
    destruct Hs as [<-|[]].
    assert (Hc : In c (List.filter (resembles ps) cols)) by (rewrite Ef; left; reflexivity).
    apply filter_In in Hc. destruct Hc as [Hc Hr].
    exists e, ps, c. split; [exact Hin|]. split.
    + intros He. apply mem_In in He. congruence.
    + split; [exact Hc|]. split; [exact Hr|reflexivity].
Qed.

End header_facts.

(** ** The exported heat map *)

Section export_facts.

Import PyStr Num Frame.
Local Open Scope Q_scope.

(** The percentages of an exported row. *)
Definition exported_percentages (row : HeatmapExportRow) : cell * list (string * npfloat) :=
  (he_EntityDesc row, map (fun d => (fst d, snd (snd d))) (he_demographics row)).

Definition table_percentages (row : PercentageRow) : cell * list (string * npfloat) :=
  (pr_EntityDesc row, pr_percentages row).

Lemma empty_rows_sum (df : DataFrame) (col : string) (t : Q) :
  empty df = true -> col_sum df col = Ok t -> Qeq_bool t 0 = true.
Proof.
  unfold empty, col_sum, column. destruct (columns df) as [|c cs]; [discriminate|].
  destruct (rows df); [|discriminate]. intros _.
  destruct (index_of col (c :: cs)); cbn [rbind]; [|discriminate].
  intros [= <-]. reflexivity.
Qed.

Lemma export_row_percentages (demographic_cols : list string) (df : DataFrame)
  (entity : cell) (o1 : option HeatmapExportRow) (o2 : option PercentageRow) :
  export_row demographic_cols df entity = Ok o1 ->
  percentage_row demographic_cols df entity = Ok o2 ->
  option_map exported_percentages o1 = option_map table_percentages o2.
Proof.
  unfold export_row, percentage_row.
  destruct (col_sum (entity_rows df entity) "TOTAL") as [t|e] eqn:Et; cbn [rbind].
  2:{ intros H. discriminate. }
  destruct (empty (entity_rows df entity)) eqn:Ee.
  - rewrite (empty_rows_sum _ _ _ Ee Et). intros [= <-] [= <-]. reflexivity.
  - destruct (Qeq_bool t 0); [intros [= <-] [= <-]; reflexivity|].
    destruct (column (entity_rows df entity) "Grade"); cbn [rbind]; [|discriminate].
    destruct (column (entity_rows df entity) "Component Desc"); cbn [rbind];
      [|discriminate].
    destruct (join_cells _); cbn [rbind]; [|discriminate].
    destruct (join_cells _); cbn [rbind]; [|discriminate].
    intros [= <-] [= <-]. cbn [option_map]. unfold exported_percentages, table_percentages.
    cbn [he_EntityDesc he_demographics pr_EntityDesc pr_percentages]. do 2 f_equal.
    rewrite map_map. apply map_ext. intros c.
    destruct (has_column (entity_rows df entity) c); reflexivity.
Qed.

(** X22: when [export_heatmap_data], given the demographic columns of the
    processor's frame, and [calculate_demographic_percentages] both return,
    the exported table has the rows of the table of percentages, for the same
    modules in the same order, with the same percentage for every
    demographic column. *)
Theorem export_matches_percentages (self_cols : list string) (df : DataFrame)
  (exported : list HeatmapExportRow) (table : list PercentageRow) :
  export_heatmap_data df (get_demographic_columns self_cols) = Ok exported ->
  calculate_demographic_percentages self_cols df = Ok table ->
  map exported_percentages exported = map table_percentages table.
Proof.
  unfold export_heatmap_data, calculate_demographic_percentages.
  rewrite (orb_comm (empty df)).
  destruct (Nat.eqb (length (get_demographic_columns self_cols)) 0 || empty df).
  { intros [= <-] [= <-]. reflexivity. }
  destruct (column df "EntityDesc") as [entities|e]; cbn [rbind]; [|discriminate].
  generalize (unique entities) as l. intros l. revert exported table.
  induction l as [|entity l IH]; intros exported table; cbn [collect_rows].
  - intros [= <-] [= <-]. reflexivity.
  - destruct (export_row _ df entity) as [o1|e] eqn:E1; cbn [rbind]; [|discriminate].
    destruct (collect_rows (export_row _ df) l) as [rs1|e]; cbn [rbind]; [|discriminate].
    destruct (percentage_row _ df entity) as [o2|e] eqn:E2; cbn [rbind];
      [|intros _; discriminate].
    destruct (collect_rows (percentage_row _ df) l) as [rs2|e]; cbn [rbind];
      [|intros _; discriminate].
    intros [= <-] [= <-]. specialize (IH rs1 rs2 eq_refl eq_refl).
    assert (H := export_row_percentages _ _ _ _ _ E1 E2).
    destruct o1, o2; cbn [option_map] in H; try discriminate; cbn [map].
    + assert (H' : exported_percentages h = table_percentages p) by congruence.
      now rewrite H', IH.
    + exact IH.
Qed.

End export_facts.

(** ** The default targets *)

Section target_facts.

Import PyStr Num Frame.

Lemma default_target_keys (key : string) (target : Q) :
  get_default_demographic_targets !! key = Some target -> lower key = key.
Proof.
  unfold get_default_demographic_targets. intros H.
  apply elem_of_list_to_map_2 in H. apply list_elem_of_In in H.
  repeat (destruct H as [H|H]; [injection H as <- _; reflexivity|]).
  destruct H.
Qed.

(** X23: with the table of default targets, the look-up of the analytics
    and of the heat maps does not depend on the case of the column name: it
    gives the entry of the table for the lower-case name, or 10 when the
    table has none. *)
Theorem default_targets_any_case (demo_col : string) :
  lookup_target get_default_demographic_targets demo_col
  = default 10%Q (get_default_demographic_targets !! lower demo_col).
Proof.
  unfold lookup_target.
  destruct (get_default_demographic_targets !! lower demo_col) as [t|] eqn:El;
    [reflexivity|].
  destruct (get_default_demographic_targets !! demo_col) as [t|] eqn:Ec;
    [|reflexivity].
  rewrite <- (default_target_keys _ _ Ec) in Ec. congruence.
Qed.

End target_facts.


(** ** Scenarios *)

Section aggregate_scenarios.

Import PyStr Num Frame.
Local Open Scope Q_scope.

(** Two modules, the second without demographic counts; three rows lack a
    grade, a module or a component. *)
Definition module_frame : DataFrame :=
  mkDF ["Grade"; "EntityDesc"; "Component Desc"; "TOTAL"; "AAM"; "HF"]
       [[Str "Gr. 4"; Str "Module 2"; Str "Lesson"; Num 100; Num 31; Num 7];
        [NaN; Str "Module 1"; Str "Lesson"; Num 50; Num 0; NaN];
        [Str "Gr. 5"; NaN; Str "Quiz"; Num 20; Num 3; Num 1];
        [Str "Gr. 5"; Str "Module 1"; Str "Quiz"; Num 5; Num 0; Num 0];
        [Str "Gr. 5"; Str "Module 2"; NaN; Num 30; Num 3; Num 1]].

Lemma module_frame_status :
  validate_modules_with_demographic_data fmt_int module_frame
  = mkModulesStatus [Str "Module 2"] [Str "Module 1"].
Proof. vm_compute. reflexivity. Qed.

Lemma module_option_round_trip_witness :
  map get_actual_module_name
      (create_enhanced_module_options fmt_int
         (validate_modules_with_demographic_data fmt_int module_frame))
  = ["All Modules"; "Module 2"; "Module 1"].
Proof.
  rewrite module_frame_status.
  apply (module_option_round_trip fmt_int
           (mkModulesStatus [Str "Module 2"] [Str "Module 1"])).
  intros module [<-|[<-|[]]]; split; reflexivity.
Defined.

Lemma module_option_status_witness :
  map check_module_has_data
      (create_enhanced_module_options fmt_int
         (validate_modules_with_demographic_data fmt_int module_frame))
  = [true; true; false].
Proof.
  rewrite module_frame_status.
  apply (module_option_status fmt_int
           (mkModulesStatus [Str "Module 2"] [Str "Module 1"])).
  intros module [<-|[]]. reflexivity.
Defined.

Lemma modules_partitioned_witness :
  Permutation
    (with_data (validate_modules_with_demographic_data fmt_int module_frame)
     ++ without_data (validate_modules_with_demographic_data fmt_int module_frame))
    (get_unique_values fmt_int module_frame "EntityDesc").
Proof.
  exact (proj1 (modules_partitioned fmt_int module_frame
                  ltac:(vm_compute; reflexivity))).
Defined.

Lemma selected_module_rows_witness :
  apply_filters module_frame
    [("EntityDesc", [Str (get_actual_module_name "Module 1 (no data)")])]
  = rows_where module_frame "EntityDesc" (Str "Module 1").
Proof.
  exact (proj1 (selected_module_rows fmt_int module_frame (Str "Module 1")
                  "Module 1 (no data)" eq_refl eq_refl eq_refl eq_refl
                  (or_intror eq_refl))).
Defined.

Lemma grade_comparisons_account_witness :
  exists comparisons,
    calculate_grade_comparisons (columns module_frame) module_frame
    = Ok (Some comparisons) /\
    Qsum (map sr_Total_People (grade_summary comparisons)) == 155 /\
    Qsum (map sr_Total_People (component_summary comparisons)) == 175.
Proof.
  eexists. split; [vm_compute; reflexivity|].
  destruct (grade_comparisons_account (columns module_frame) module_frame _
              ltac:(vm_compute; reflexivity) ltac:(vm_compute; reflexivity))
    as (Hg & Hc & _).
  split; [rewrite Hg | rewrite Hc]; reflexivity.
Defined.

Lemma demographic_trends_account_witness :
  exists table,
    calculate_demographic_trends (columns module_frame) module_frame = Ok table /\
    Qsum (map tr_Total_People table) == 135.
Proof.
  eexists. split; [vm_compute; reflexivity|].
  destruct (demographic_trends_account (columns module_frame) module_frame _
              ltac:(vm_compute; reflexivity) ltac:(vm_compute; discriminate)
              ltac:(vm_compute; reflexivity)) as (Ht & _).
  rewrite Ht. reflexivity.
Defined.

Lemma module_totals_account_witness :
  exists table,
    calculate_module_totals module_frame = Ok table /\
    Qsum (map mt_Total_People table) == 135 /\
    StronglySorted (fun a b => mt_Total_People b <= mt_Total_People a) table.
Proof.
  eexists. split; [vm_compute; reflexivity|].
  destruct (module_totals_account module_frame _ ltac:(vm_compute; reflexivity)
              ltac:(vm_compute; reflexivity)) as (Ht & Hs & _).
  split; [rewrite Ht; reflexivity | exact Hs].
Defined.

Lemma demographic_percentages_table_witness :
  exists table,
    calculate_demographic_percentages (columns module_frame) module_frame = Ok table /\
    all_differ cell_eqb (map pr_EntityDesc table).
Proof.
  eexists. split; [vm_compute; reflexivity|].
  exact (proj1 (demographic_percentages_table (columns module_frame) module_frame _
                  ltac:(vm_compute; reflexivity))).
Defined.

Lemma export_matches_percentages_witness :
  exists exported table,
    export_heatmap_data heat_frame (get_demographic_columns (columns heat_frame))
    = Ok exported /\
    calculate_demographic_percentages (columns heat_frame) heat_frame = Ok table /\
    map exported_percentages exported = map table_percentages table.
Proof.
  do 2 eexists. split; [vm_compute; reflexivity|]. split; [vm_compute; reflexivity|].
  exact (export_matches_percentages (columns heat_frame) heat_frame _ _ ltac:(vm_compute; reflexivity) ltac:(vm_compute; reflexivity)).
Defined.

Lemma apply_filters_compose_witness :
  apply_filters (apply_filters heat_frame [("Grade", [Str "Gr. 4"])])
                [("EntityDesc", [Str "Module 1"; Str "Module 2"])]
  = apply_filters heat_frame
      [("Grade", [Str "Gr. 4"]); ("EntityDesc", [Str "Module 1"; Str "Module 2"])].
Proof.
  exact (proj1 (apply_filters_compose heat_frame [("Grade", [Str "Gr. 4"])]
                  [("EntityDesc", [Str "Module 1"; Str "Module 2"])] []
                  ltac:(vm_compute; reflexivity) ltac:(vm_compute; reflexivity))).
Defined.

Lemma demographic_gaps_outcome_witness :
  exists table,
    calculate_demographic_gaps (columns module_frame) module_frame heat_targets
    = Ok table /\
    StronglySorted (fun a b => Gap a <= Gap b) table.
Proof.
  assert (H := demographic_gaps_outcome (columns module_frame) module_frame heat_targets
                 ltac:(vm_compute; reflexivity)).
  destruct (calculate_demographic_gaps (columns module_frame) module_frame heat_targets)
    as [table|e] eqn:E.
  - exists table. split; [reflexivity | exact (proj1 H)].
  - exfalso. vm_compute in E. discriminate.
Defined.

Lemma apply_filters_exact_witness :
  columns (apply_filters heat_frame
             [("Grade", [Str "Gr. 5"]); ("Region", [Str "North"]); ("EntityDesc", [])])
  = columns heat_frame /\
  exists keep : list cell -> bool,
    rows (apply_filters heat_frame
            [("Grade", [Str "Gr. 5"]); ("Region", [Str "North"]); ("EntityDesc", [])])
    = List.filter keep (rows heat_frame) /\
    forall r,
      keep r = true <->
      forall col values,
        In (col, values)
           [("Grade", [Str "Gr. 5"]); ("Region", [Str "North"]); ("EntityDesc", [])] ->
        has_column heat_frame col = true -> values <> [] ->
        exists c v, row_get (columns heat_frame) r col = Some c /\ In v values
                    /\ same_value c v.
Proof.
  apply (apply_filters_exact heat_frame
           [("Grade", [Str "Gr. 5"]); ("Region", [Str "North"]); ("EntityDesc", [])]);
    vm_compute; reflexivity.
Defined.

End aggregate_scenarios.

Section analytics_scenarios.

Import PyStr Num Frame.
Local Open Scope Q_scope.

Lemma heat_frame_total : col_sum heat_frame "TOTAL" = Ok 170.
Proof. vm_compute. reflexivity. Qed.

Lemma heat_total_not_zero : ~ 170 == 0.
Proof. intros H. vm_compute in H. discriminate. Qed.

Lemma scorecard_scores_bounded_witness :
  exists scorecard overall,
    generate_equity_scorecard ["AAM"; "HF"] heat_frame heat_targets = Ok scorecard /\
    overall_score scorecard = Fin overall /\ 0 <= overall <= 100.
Proof.
  destruct (scorecard_scores_bounded ["AAM"; "HF"] heat_frame heat_targets 170
              ltac:(vm_compute; reflexivity) heat_frame_total heat_total_not_zero)
    as (scorecard & Hs & _ & overall & Ho & Hb).
  exists scorecard, overall. split; [exact Hs|]. split; [exact Ho | exact Hb].
Defined.

Lemma scorecard_recommendations_witness :
  exists scorecard,
    generate_equity_scorecard ["AAM"; "HF"] heat_frame heat_targets = Ok scorecard /\
    recommendations scorecard <> [] /\
    forall r, In r (recommendations scorecard) ->
      exists d score, In (about r, d) (demographic_scores scorecard) /\
                      ds_score d = Fin score /\ score < 50.
Proof.
  eexists. split; [vm_compute; reflexivity|]. split; [vm_compute; discriminate|].
  intros r Hr.
  destruct (proj1 (scorecard_recommendations ["AAM"; "HF"] heat_frame heat_targets 170 _
                     heat_frame_total heat_total_not_zero ltac:(vm_compute; reflexivity)) r Hr)
    as (d & score & actual & Hd & Hs & _ & Hlt & _).
  exists d, score. split; [exact Hd|]. split; [exact Hs | exact Hlt].
Defined.

Lemma representation_gaps_rows_witness :
  exists table,
    detect_representation_gaps ["AAM"; "HF"] heat_frame heat_targets = Ok table /\
    table <> [] /\
    StronglySorted (fun a b => mg_Gap_Range b <= mg_Gap_Range a) table.
Proof.
  eexists. split; [vm_compute; reflexivity|].
  destruct (representation_gaps_rows ["AAM"; "HF"] heat_frame heat_targets _ ltac:(vm_compute; reflexivity))
    as (Hne & Hs & _).
  split; [exact Hne | exact Hs].
Defined.

Lemma representation_gaps_nothing_to_report_witness :
  exists e, detect_representation_gaps ["Veterans"] heat_frame heat_targets = Raise e.
Proof.
  apply (representation_gaps_nothing_to_report ["Veterans"] heat_frame heat_targets).
  right. reflexivity.
Defined.

Lemma heatmap_builders_agree_witness :
  exists z z' x x' y y' text text',
    create_aligned_heatmap heat_frame ["AAM"; "HF"] heat_targets
    = Ok (Heatmap z x y text) /\
    create_improved_heatmap heat_frame ["AAM"; "HF"] heat_targets
    = Ok (Heatmap z' x' y' text') /\
    y' = y /\ List.Forall2 (List.Forall2 Qeq) z z'.
Proof.
  do 8 eexists. split; [vm_compute; reflexivity|]. split; [vm_compute; reflexivity|].
  exact (heatmap_builders_agree heat_frame ["AAM"; "HF"] heat_targets _ _ _ _ _ _ _ _
           ltac:(vm_compute; reflexivity) ltac:(vm_compute; reflexivity)).
Defined.

End analytics_scenarios.

Section balance_scenarios.

Import PyStr Num Frame.

Lemma representation_balance_bounds_witness :
  exists balance,
    representation_balance (columns even_split) even_split = Ok (Some balance) /\
    (0 < balance <= 1)%R.
Proof.
  eexists. split; [reflexivity|].
  exact (representation_balance_bounds (columns even_split) even_split _
           ltac:(vm_compute; reflexivity) ltac:(vm_compute; reflexivity)).
Defined.

End balance_scenarios.

Section checker_scenarios.

Import PyStr Num Frame.
Local Open Scope Q_scope.

Lemma comprehensive_check_verdict_witness :
  exists results,
    run_comprehensive_check parse_nothing fmt_int attribution_table = Ok results /\
    exists processor_df,
      _validate_data parse_nothing attribution_table = Ok processor_df /\
      let demographic_cols :=
        List.filter (has_column attribution_table)
                    (get_demographic_columns (columns processor_df)) in
      (snd (display_health_check_results results) = true <->
       has_column attribution_table "EntityDesc" = true /\
       has_column attribution_table "Grade" = true /\
       has_column attribution_table "TOTAL" = true /\
       forall r, In r (rows attribution_table) ->
                 ~ over (columns attribution_table) demographic_cols r).
Proof.
  eexists. split; [vm_compute; reflexivity|].
  apply (comprehensive_check_verdict parse_nothing fmt_int attribution_table).
  vm_compute. reflexivity.
Defined.

Lemma total_consistency_capped_witness :
  exists c,
    _check_total_consistency parse_nothing attribution_table new_checker = Ok c /\
    (exists added, issues c = (issues new_checker ++ added)%list
                   /\ (length added <= 6)%nat) /\
    (exists added, warnings c = (warnings new_checker ++ added)%list
                   /\ (length added <= 4)%nat) /\
    info c = info new_checker.
Proof.
  eexists. split; [vm_compute; reflexivity|].
  apply (total_consistency_capped parse_nothing attribution_table new_checker).
  vm_compute. reflexivity.
Defined.

(** [f"{n:,}"] on some lengths of numbers. *)
Example fmt_thousands_groups :
  fmt_thousands 1234567 = "1,234,567" /\ fmt_thousands 100000 = "100,000" /\
  fmt_thousands 1000 = "1,000" /\ fmt_thousands 123 = "123" /\
  fmt_thousands 0 = "0" /\ fmt_thousands (-1234) = "-1,234".
Proof. vm_compute. repeat split; reflexivity. Qed.

End checker_scenarios.
